(** * prop24-scraper: the Property24 listing scraper, embedded in Rocq

    A shallow embedding of the class [Property24Scraper] and of the
    interfaces [Property], [ScraperOptions] and [ScraperResult] it works with.

    - JavaScript strings are sequences of UTF-16 code units ([list N]).
    - Regular expressions are run by a small backtracking matcher with the
      ECMAScript order of alternatives (greedy quantifiers, leftmost match).
    - The asynchronous methods are functions in a state-and-exception monad
      over the scraper instance, the browser behind it and the trace of the
      browser calls made so far; [await] is sequencing.
    - The markup library is the boundary of the extractor: a listing
      container is given by the results of the queries the code makes on it.
    - The command [scrape] of index.ts runs in the same monad, over a store
      given by the three calls it makes on database.ts. *)

From Stdlib Require Import String Ascii.
From Stdlib Require Import List NArith ZArith Bool Arith Lia.
From Stdlib Require DecimalString Decimal DecimalNat.
From Equations Require Import Equations.
Import ListNotations.

Set Implicit Arguments.

(* ===================================================================== *)
(** ** JavaScript strings *)
(* ===================================================================== *)

Module JS.

Local Open Scope N_scope.

(** A string is its sequence of UTF-16 code units. *)
Definition jsstring := list N.

(** An ASCII literal as a JavaScript string. *)
Definition js (s : string) : jsstring :=
  map N_of_ascii (list_ascii_of_string s).

(** Code units used by name. *)
Definition cComma : N := 44.
Definition cDot : N := 46.
Definition cSlash : N := 47.
Definition cMinus : N := 45.
Definition cPlus : N := 43.
Definition cSup2 : N := 178.   (* the superscript two of "m²" *)

(** WhiteSpace and LineTerminator of ECMAScript: what [\s] matches and what
    [trim] and [parseFloat] strip. *)
Definition isWhiteSpace (c : N) : bool :=
  ((9 <=? c) && (c <=? 13))
  || (c =? 32) || (c =? 160) || (c =? 5760)
  || ((8192 <=? c) && (c <=? 8202))
  || (c =? 8232) || (c =? 8233) || (c =? 8239) || (c =? 8287)
  || (c =? 12288) || (c =? 65279).

Definition isDigit (c : N) : bool := (48 <=? c) && (c <=? 57).

Definition isUpperAscii (c : N) : bool := (65 <=? c) && (c <=? 90).

(** [String.prototype.toLowerCase] on the ASCII letters; every other code
    unit is kept.  Outside ASCII the lower case of a code unit has an ASCII
    letter in two cases only, U+0130 ("i" and a combining dot) and U+212A
    ("k"), and neither can complete a keyword this program looks for. *)
Definition lowerChar (c : N) : N := if isUpperAscii c then c + 32 else c.
Definition toLowerCase (s : jsstring) : jsstring := map lowerChar s.

Fixpoint eqb (a b : jsstring) : bool :=
  match a, b with
  | [], [] => true
  | x :: a', y :: b' => (x =? y) && eqb a' b'
  | _, _ => false
  end.

(** [s.startsWith(p)] *)
Fixpoint startsWith (s p : jsstring) : bool :=
  match p with
  | [] => true
  | a :: p' =>
      match s with
      | [] => false
      | b :: s' => (b =? a) && startsWith s' p'
      end
  end.

(** [s.includes(p)] *)
Fixpoint includes (s p : jsstring) : bool :=
  startsWith s p ||
  match s with
  | [] => false
  | _ :: s' => includes s' p
  end.

Fixpoint dropWhile (p : N -> bool) (s : jsstring) : jsstring :=
  match s with
  | [] => []
  | c :: s' => if p c then dropWhile p s' else s
  end.

Fixpoint takeWhile (p : N -> bool) (s : jsstring) : jsstring :=
  match s with
  | [] => []
  | c :: s' => if p c then c :: takeWhile p s' else []
  end.

Definition trimStart (s : jsstring) : jsstring := dropWhile isWhiteSpace s.
Definition trimEnd (s : jsstring) : jsstring :=
  rev (dropWhile isWhiteSpace (rev s)).

(** [s.trim()] *)
Definition trim (s : jsstring) : jsstring := trimEnd (trimStart s).

(** [s.split(sep)] for a separator of one code unit: never empty, the empty
    string splits into one empty segment. *)
Fixpoint split (sep : N) (s : jsstring) : list jsstring :=
  match s with
  | [] => [[]]
  | c :: s' =>
      if c =? sep then [] :: split sep s'
      else match split sep s' with
           | [] => [[c]]
           | p :: ps => (c :: p) :: ps
           end
  end.

(** Truthiness of a string value that may be [undefined]: [x || undefined],
    [if (x)], [!x]. *)
Definition truthy (x : option jsstring) : bool :=
  match x with
  | Some (_ :: _) => true
  | _ => false
  end.

(** [x || undefined] *)
Definition orUndefined (x : option jsstring) : option jsstring :=
  if truthy x then x else None.

(** [x || y] with [y] a string. *)
Definition orElse (x : option jsstring) (y : jsstring) : jsstring :=
  match x with
  | Some ((_ :: _) as s) => s
  | _ => y
  end.

(** The decimal digits of a natural number, as in a template literal. *)
Definition ofNat (n : nat) : jsstring :=
  js (DecimalString.NilZero.string_of_uint (Nat.to_uint n)).

(** *** Numbers

    A number is a double.  A finite double is kept as a decimal, [Dec m e]
    for [m * 10^e]: every double is such a decimal.  A decimal literal is
    read as the double nearest to it, ties going to the even significand, and
    as [Infinity] from [2^1024] on, whatever its length (ECMAScript lets an
    implementation look at the first 20 significant digits only; the current
    engines look at them all).  A literal that is a double is kept as it is
    written.  Negative zero is not told from zero. *)
Inductive number :=
| NaN
| Infinity (negative : bool)
| Dec (m : Z) (e : Z).

Definition digitVal (c : N) : Z := Z.of_N (c - 48).

Definition digitsVal (ds : jsstring) : Z :=
  fold_left (fun acc c => (10 * acc + digitVal c)%Z) ds 0%Z.

Definition readSign (s : jsstring) : bool * jsstring :=
  match s with
  | c :: r => if c =? cMinus then (true, r)
              else if c =? cPlus then (false, r)
              else (false, s)
  | [] => (false, s)
  end.

Definition signed (neg : bool) (z : Z) : Z := if neg then (- z)%Z else z.

(** [floor (log2 (n / d))], for positive [n] and [d]. *)
Definition log2Ratio (n d : Z) : Z :=
  let l := (Z.log2 n - Z.log2 d)%Z in
  if (0 <=? l)%Z then (if (d * 2 ^ l <=? n)%Z then l else l - 1)%Z
  else (if (d <=? n * 2 ^ (- l))%Z then l else l - 1)%Z.

(** The double nearest to [n / d], for positive [n] and [d]: its significand
    [q] and the exponent [e2] of its last place, so that it is [q * 2^e2],
    and whether [n / d] is that double; [None] when it is out of range.  The
    significand has 53 bits, or fewer at the least exponent, -1074. *)
Definition nearestDouble (n d : Z) : option (Z * Z * bool) :=
  let e2 := Z.max (log2Ratio n d - 52) (-1074) in
  let num := (if e2 <? 0 then n * 2 ^ (- e2) else n)%Z in
  let den := (if e2 <? 0 then d else d * 2 ^ e2)%Z in
  let q := (num / den)%Z in
  let r := (num mod den)%Z in
  let q' := (if 2 * r <? den then q
             else if den <? 2 * r then q + 1
             else if Z.even q then q else q + 1)%Z in
  if ((0 <=? e2) && (2 ^ 1024 <=? q' * 2 ^ e2))%Z then None
  else Some (q', e2, (r =? 0)%Z).

(** The number a decimal literal [m * 10^e], [m >= 0], with its sign, is read
    as. *)
Definition toDouble (neg : bool) (m e : Z) : number :=
  if (m =? 0)%Z then Dec (signed neg m) e
  else
    let n := (if e <? 0 then m else m * 10 ^ e)%Z in
    let d := (if e <? 0 then 10 ^ (- e) else 1)%Z in
    match nearestDouble n d with
    | None => Infinity neg
    | Some (_, _, true) => Dec (signed neg m) e
    | Some (q, e2, false) =>
        if (e2 <? 0)%Z then Dec (signed neg (q * 5 ^ (- e2))) e2
        else Dec (signed neg (q * 2 ^ e2)) 0
    end.

(** The exponent part [e] / [E], optional sign, digits; 0 when there is none
    or it is not complete. *)
Definition readExponent (s : jsstring) : Z :=
  match s with
  | c :: r =>
      if (c =? 101) || (c =? 69) then
        let '(neg, r') := readSign r in
        match takeWhile isDigit r' with
        | [] => 0%Z
        | ds => signed neg (digitsVal ds)
        end
      else 0%Z
  | [] => 0%Z
  end.

(** [parseFloat(s)]: leading white space is skipped, then the longest prefix
    that is a decimal literal is read; [NaN] when there is none. *)
Definition parseFloat (s : jsstring) : number :=
  let '(neg, s1) := readSign (trimStart s) in
  if startsWith s1 (js "Infinity") then Infinity neg
  else
    let ip := takeWhile isDigit s1 in
    let r1 := dropWhile isDigit s1 in
    let '(fp, r2) :=
      match r1 with
      | c :: r => if c =? cDot then (takeWhile isDigit r, dropWhile isDigit r)
                  else ([], r1)
      | [] => ([], r1)
      end in
    match ip ++ fp with
    | [] => NaN
    | ds => toDouble neg (digitsVal ds)
                     (readExponent r2 - Z.of_nat (length fp))
    end.

(** [parseInt(s, 10)] *)
Definition parseInt10 (s : jsstring) : number :=
  let '(neg, s1) := readSign (trimStart s) in
  match takeWhile isDigit s1 with
  | [] => NaN
  | ds => toDouble neg (digitsVal ds) 0
  end.

End JS.

Import JS.

(* ===================================================================== *)
(** ** Regular expressions *)
(* ===================================================================== *)

Module Regex.

Inductive regex :=
| Eps
| Chr (p : N -> bool)           (* one code unit: a literal, a class, an escape *)
| Cat (r1 r2 : regex)
| Alt (r1 r2 : regex)           (* r1|r2, r1 tried first *)
| Star (r : regex)              (* r*, greedy *)
| Group (i : nat) (r : regex).  (* the i-th capturing group *)

(** Captured groups, the latest binding first. *)
Definition captures := list (nat * jsstring).

(** What [s] has lost to reach its suffix [s']. *)
Definition consumed (s s' : jsstring) : jsstring :=
  firstn (length s - length s') s.

(** The backtracking matcher, in continuation-passing style: [run r s c k]
    matches [r] at the front of [s] and hands the rest to [k]; when [k]
    fails the next alternative of [r] is tried.  An iteration of [Star] that
    consumes nothing is refused, as ECMAScript does. *)
Fixpoint run {X : Type} (r : regex) (s : jsstring) (c : captures)
    (k : jsstring -> captures -> option X) {struct r} : option X :=
  match r with
  | Eps => k s c
  | Chr p =>
      match s with
      | x :: s' => if p x then k s' c else None
      | [] => None
      end
  | Cat r1 r2 => run r1 s c (fun s' c' => run r2 s' c' k)
  | Alt r1 r2 =>
      match run r1 s c k with
      | Some x => Some x
      | None => run r2 s c k
      end
  | Star r' =>
      (fix loop (n : nat) (s : jsstring) (c : captures) {struct n} : option X :=
         match n with
         | O => k s c
         | S n' =>
             match run r' s c
                     (fun s' c' =>
                        if (length s' <? length s)%nat then loop n' s' c'
                        else None) with
             | Some x => Some x
             | None => k s c
             end
         end) (length s) s c
  | Group i r' =>
      run r' s c (fun s' c' => k s' ((i, consumed s s') :: c'))
  end.

(** A match: the matched text ([match[0]]) and the groups. *)
Definition matched : Type := jsstring * captures.

Definition matchAt (r : regex) (s : jsstring) : option matched :=
  run r s [] (fun s' c => Some (consumed s s', c)).

(** [s.match(r)] for a pattern without the [g] flag: the leftmost match. *)
Fixpoint exec (r : regex) (s : jsstring) : option matched :=
  match matchAt r s with
  | Some m => Some m
  | None =>
      match s with
      | [] => None
      | _ :: s' => exec r s'
      end
  end.

(** [r.test(s)] *)
Definition test (r : regex) (s : jsstring) : bool :=
  match exec r s with Some _ => true | None => false end.

(** [match[i]] for a group [i >= 1]. *)
Fixpoint group (i : nat) (c : captures) : option jsstring :=
  match c with
  | [] => None
  | (j, t) :: c' => if Nat.eqb i j then Some t else group i c'
  end.

(** [s.replace(/[...]/g, empty)] for a pattern that is one character class:
    every code unit of the class is removed. *)
Definition removeAll (cls : N -> bool) (s : jsstring) : jsstring :=
  filter (fun x => negb (cls x)) s.

(** Building blocks. *)
Definition lit (c : N) : regex := Chr (N.eqb c).
(** A literal under the [i] flag. *)
Definition ci (c : N) : regex := Chr (fun x => N.eqb (lowerChar x) (lowerChar c)).
Definition Plus (r : regex) : regex := Cat r (Star r).
Definition Opt (r : regex) : regex := Alt r Eps.
Definition digit : regex := Chr isDigit.
Definition space : regex := Chr isWhiteSpace.

Fixpoint chain (rs : list regex) : regex :=
  match rs with
  | [] => Eps
  | [r] => r
  | r :: rs' => Cat r (chain rs')
  end.

(** A literal string under the [i] flag. *)
Definition strCi (s : jsstring) : regex := chain (map ci s).

End Regex.

Import Regex.


(* ===================================================================== *)
(** ** Data model *)
(* ===================================================================== *)

(** [new Date(...)]: a time value in milliseconds, or Invalid Date (the one
    whose [getTime()] is [NaN]). *)
Inductive Date :=
| InvalidDate
| DateAt (ms : Z).

Inductive Status := sold | under_offer | no_offer.

(** [interface Property]; the fields the store fills in ([id], [scrape_date],
    [created_at], [updated_at]) are not part of a scraped record. *)
Record Property := {
  property_url : jsstring;
  street_address : option jsstring;
  estate_complex : option jsstring;
  suburb : jsstring;
  city : option jsstring;
  postal_code : option jsstring;
  floor_size_sqm : option number;
  total_price : option number;
  price_per_sqm : option number;
  rates_and_taxes : option number;
  levies : option number;
  status : option Status;
  property_type : option jsstring;
  bedrooms : option number;
  bathrooms : option number;
  listing_date : option Date
}.

(** [interface ScraperOptions] *)
Module ScraperOptions.
Record t := {
  suburb : jsstring;
  headless : option bool;
  timeout : option N
}.
End ScraperOptions.

(** [interface ScraperResult] *)
Record ScraperResult := {
  success : bool;
  propertiesScraped : nat;
  propertiesSaved : nat;
  errors : list jsstring;
  message : jsstring;
  properties : option (list Property)
}.

Definition BASE_URL : jsstring := js "https://www.property24.com".

(* ===================================================================== *)
(** ** Field parsers *)
(* ===================================================================== *)

(** The object [parseAddress] returns. *)
Module Address.
Record t := {
  street : option jsstring;
  estate : option jsstring;
  suburb : option jsstring;
  city : option jsstring;
  postalCode : option jsstring
}.
End Address.

(** [parseAddress(addressText)] *)
Definition parseAddress (addressText : jsstring) : Address.t :=
  let parts := map trim (split cComma addressText) in
  {| Address.street := orUndefined (nth_error parts 0);
     Address.estate := orUndefined (nth_error parts 1);
     Address.suburb := orUndefined (nth_error parts 2);
     Address.city := orUndefined (nth_error parts 3);
     Address.postalCode := orUndefined (nth_error parts 4) |}.

(** The class [[\s,\d.]] *)
Definition priceChar (c : N) : bool :=
  isWhiteSpace c || N.eqb c cComma || isDigit c || N.eqb c cDot.

(** [/R[\s,\d.]+/] *)
Definition reTotalPrice : regex :=
  Cat (lit 82) (Plus (Chr priceChar)).

(** [/R[\s,\d.]+\s*per\s*m²/i] *)
Definition rePricePerSqm : regex :=
  chain [ci 82; Plus (Chr priceChar); Star space; strCi (js "per");
         Star space; ci 109; lit cSup2].

(** The class of [/[R\s,]/g] *)
Definition stripTotal (c : N) : bool :=
  N.eqb c 82 || isWhiteSpace c || N.eqb c cComma.

(** The class of [/[R\s,\/m²]/gi] *)
Definition stripPerSqm (c : N) : bool :=
  N.eqb (lowerChar c) (lowerChar 82) || isWhiteSpace c || N.eqb c cComma
  || N.eqb c cSlash || N.eqb (lowerChar c) (lowerChar 109) || N.eqb c cSup2.

Record Price := {
  totalPrice : option number;
  pricePerSqm : option number
}.

(** [parsePrice(priceText)] *)
Definition parsePrice (priceText : jsstring) : Price :=
  let totalPriceMatch := exec reTotalPrice priceText in
  let totalPrice :=
    match totalPriceMatch with
    | Some m => Some (parseFloat (removeAll stripTotal (fst m)))
    | None => None
    end in
  let pricePerSqmMatch := exec rePricePerSqm priceText in
  let pricePerSqm :=
    match pricePerSqmMatch with
    | Some m => Some (parseFloat (removeAll stripPerSqm (fst m)))
    | None => None
    end in
  {| totalPrice := totalPrice; pricePerSqm := pricePerSqm |}.

(** [match[1] ?? "0"] *)
Definition groupOrZero (m : matched) : jsstring :=
  match group 1 (snd m) with
  | Some t => t
  | None => js "0"
  end.

(** [extractNumber(text, pattern)] *)
Definition extractNumber (text : jsstring) (pattern : regex) : option number :=
  match exec pattern text with
  | Some m => Some (parseInt10 (groupOrZero m))
  | None => None
  end.

(** [/(\d+)\s*(?:bed|bedroom)/i] *)
Definition reBedrooms : regex :=
  chain [Group 1 (Plus digit); Star space;
         Alt (strCi (js "bed")) (strCi (js "bedroom"))].

(** [/(\d+)\s*(?:bath|bathroom)/i] *)
Definition reBathrooms : regex :=
  chain [Group 1 (Plus digit); Star space;
         Alt (strCi (js "bath")) (strCi (js "bathroom"))].

(** [/(\d+)\s*(?:m²|sqm|m2)/i] *)
Definition reFloorSize : regex :=
  chain [Group 1 (Plus digit); Star space;
         Alt (Cat (ci 109) (lit cSup2))
             (Alt (strCi (js "sqm")) (strCi (js "m2")))].

(** [/(\d{1,2})[\/\-](\d{1,2})[\/\-](\d{4})/] *)
Definition dateSep (c : N) : bool := N.eqb c cSlash || N.eqb c cMinus.
Definition reDate : regex :=
  chain [Group 1 (Cat digit (Opt digit)); Chr dateSep;
         Group 2 (Cat digit (Opt digit)); Chr dateSep;
         Group 3 (chain [digit; digit; digit; digit])].

(** [match[i]] as it is spliced into a template literal. *)
Definition groupText (i : nat) (m : matched) : jsstring :=
  match group i (snd m) with
  | Some t => t
  | None => js "undefined"
  end.

(** The fields of a string of the date-only shape [YYYY-MM-DD] of the
    ECMAScript date-time string format. *)
Definition isoDateOnly (s : jsstring) : option (Z * Z * Z) :=
  match s with
  | [y1; y2; y3; y4; h1; m1; m2; h2; d1; d2] =>
      if forallb isDigit [y1; y2; y3; y4; m1; m2; d1; d2]
         && N.eqb h1 cMinus && N.eqb h2 cMinus
      then Some (digitsVal [y1; y2; y3; y4], digitsVal [m1; m2],
                 digitsVal [d1; d2])
      else None
  | _ => None
  end.

Section DateParsing.

(** What the host's [Date] makes of a string is implementation-defined except
    on the ECMAScript format; it is a parameter. *)
Variable hostDateParse : jsstring -> Date.

(** [new Date(s)].  The one case fixed here is the one ECMAScript fixes for
    every host: a string of the date-only shape whose month or day is out of
    bounds is not a date. *)
Definition newDate (s : jsstring) : Date :=
  match isoDateOnly s with
  | Some (_, m, d) =>
      if ((1 <=? m) && (m <=? 12) && (1 <=? d) && (d <=? 31))%Z
      then hostDateParse s
      else InvalidDate
  | None => hostDateParse s
  end.

(** [isNaN(date.getTime())] *)
Definition isNaNTime (d : Date) : bool :=
  match d with InvalidDate => true | DateAt _ => false end.

(** The second half of [parseDate]: the day/month/year pattern. *)
Definition parseDateDMY (dateText : jsstring) : option Date :=
  match exec reDate dateText with
  | Some dateMatch =>
      Some (newDate (groupText 3 dateMatch ++ [cMinus]
                     ++ groupText 2 dateMatch ++ [cMinus]
                     ++ groupText 1 dateMatch))
  | None => None
  end.

(** [parseDate(dateText)] *)
Definition parseDate (dateText : option jsstring) : option Date :=
  if negb (truthy dateText) then None
  else
    let dateText := orElse dateText [] in
    if includes dateText (js "T") then
      let date := newDate dateText in
      if negb (isNaNTime date) then Some date
      else parseDateDMY dateText
    else parseDateDMY dateText.

End DateParsing.

(** The status keywords of the extractor (lines 372-378): the text of the
    status element is lower-cased, then looked up. *)
Definition classifyStatus (text : jsstring) : option Status :=
  let statusText := toLowerCase text in
  if includes statusText (js "sold") then Some sold
  else if includes statusText (js "offer") then Some under_offer
  else None.





(* ===================================================================== *)
(** ** Outcomes *)
(* ===================================================================== *)

(** What a call returns: a value, or a thrown error, kept as its message
    ([error instanceof Error ? error.message : String(error)]). *)
Inductive outcome (A : Type) :=
| Ok (a : A)
| Throw (message : jsstring).
Arguments Ok {A} a.
Arguments Throw {A} message.

(* ===================================================================== *)
(** ** Record extractor: the markup of one page *)
(* ===================================================================== *)

(** One listing container of a rendered page, as the markup library shows it
    to [extractProperties]: each field is the result of one of the queries the
    code makes on the container ([$element.find(...)]); the first field is the
    error that ends the body of the callback on this container, when one of
    the calls of the body throws. *)
Record Container := {
  (** the error thrown inside the [try] of the callback, if any *)
  thrown : option jsstring;
  (** [attr("href")] of each element of [find('a[href*="/for-sale/"]')] *)
  forSaleHrefs : list (option jsstring);
  (** with [titleEl = find('h2, [class*="title"], a[href*="/p/"]')]:
      [attr("href")] of each element of [titleEl.find("a")] *)
  titleInnerHrefs : list (option jsstring);
  (** and of each element of [titleEl.closest("a")] *)
  titleClosestHrefs : list (option jsstring);
  (** [find('[class*="address"], .address, span').text()] *)
  addressText : jsstring;
  (** [find('[class*="price"], .price').first().text()] *)
  priceText : jsstring;
  (** [text()] of each element of [find('[class*="property-type"], span')] *)
  typeTexts : list jsstring;
  (** [find('[class*="feature"], li').text()] *)
  featuresText : jsstring;
  (** [text()] of each element of [find('[class*="status"], span')] *)
  statusTexts : list jsstring;
  (** [find('[class*="date"], time').attr("datetime")] *)
  dateAttr : option jsstring;
  (** [find('[class*="listed"]').text()] *)
  listedText : jsstring
}.

(** The markup of a page, as the containers that
    [$('[data-test-id="property-card"], .property-card, [class*="property"], article')]
    selects in it, in document order. *)
Definition Markup := list Container.

(** [.attr("href")] of a selection: the attribute of its first element. *)
Definition attrOfFirst (sel : list (option jsstring)) : option jsstring :=
  match sel with
  | [] => None
  | a :: _ => a
  end.

(** [.first().text()] of a selection given by the texts of its elements. *)
Definition firstText (sel : list jsstring) : jsstring :=
  match sel with
  | [] => []
  | t :: _ => t
  end.

(** Lines 288-305: the listing link of a container. *)
Definition findPropertyUrl (c : Container) : option jsstring :=
  let propertyUrl :=
    fold_left
      (fun propertyUrl href =>
         if truthy href && negb (truthy propertyUrl) then href else propertyUrl)
      (forSaleHrefs c) None in
  if negb (truthy propertyUrl) then
    let linkEl :=
      if (length (titleInnerHrefs c) =? 0)%nat then titleClosestHrefs c
      else titleInnerHrefs c in
    attrOfFirst linkEl
  else propertyUrl.

(** Lines 311-313. *)
Definition fullUrlOf (propertyUrl : jsstring) : jsstring :=
  if startsWith propertyUrl (js "http") then propertyUrl
  else js "https://www.property24.com" ++ propertyUrl.

(** The filter of the property-type elements. *)
Definition isTypeText (t : jsstring) : bool :=
  let text := toLowerCase t in
  includes text (js "house") || includes text (js "apartment")
  || includes text (js "townhouse") || includes text (js "land").

(** The filter of the status elements. *)
Definition isStatusText (t : jsstring) : bool :=
  let text := toLowerCase t in
  includes text (js "sold") || includes text (js "offer")
  || includes text (js "listed").

Section Extractor.

Variable hostDateParse : jsstring -> Date.

(** [this.options.suburb] *)
Variable optionsSuburb : jsstring.

(** The [try] block of the [each] callback of [extractProperties] for one
    container: [Ok None] is the early [return] of a container without a
    link. *)
Definition containerBody (c : Container) : outcome (option Property) :=
  match thrown c with
  | Some error => Throw error
  | None =>
      let propertyUrl := findPropertyUrl c in
      if negb (truthy propertyUrl) then Ok None
      else
        let fullUrl := fullUrlOf (orElse propertyUrl []) in
        let addressParts := parseAddress (addressText c) in
        let price := parsePrice (priceText c) in
        let propertyTypeEl := firstText (filter isTypeText (typeTexts c)) in
        let propertyType := orUndefined (Some (trim propertyTypeEl)) in
        let features := featuresText c in
        let bedrooms := extractNumber features reBedrooms in
        let bathrooms := extractNumber features reBathrooms in
        let floorSizeMatch := exec reFloorSize features in
        let floorSizeSqm :=
          match floorSizeMatch with
          | Some m => Some (parseFloat (groupOrZero m))
          | None => None
          end in
        let statusEl := firstText (filter isStatusText (statusTexts c)) in
        let status := classifyStatus statusEl in
        let listingDateText :=
          if truthy (dateAttr c) then dateAttr c else Some (listedText c) in
        let listingDate := parseDate hostDateParse listingDateText in
        Ok (Some {| property_url := fullUrl;
                    street_address := Address.street addressParts;
                    estate_complex := Address.estate addressParts;
                    suburb := orElse (Address.suburb addressParts) optionsSuburb;
                    city := Address.city addressParts;
                    postal_code := Address.postalCode addressParts;
                    floor_size_sqm := floorSizeSqm;
                    total_price := totalPrice price;
                    price_per_sqm := pricePerSqm price;
                    rates_and_taxes := None;
                    levies := None;
                    status := status;
                    property_type := propertyType;
                    bedrooms := bedrooms;
                    bathrooms := bathrooms;
                    listing_date := listingDate |})
  end.

(** The callback: the record to push, if any.  The [catch] (lines 404-409)
    logs the error and the loop goes on with the next container. *)
Definition extractContainer (c : Container) : option Property :=
  match containerBody c with
  | Ok pushed => pushed
  | Throw _ => None
  end.

(** [extractProperties] after the markup is loaded: the early return on no
    container, then the [each] loop pushing the record of each container that
    gives one. *)
Definition extractFromMarkup (propertyElements : Markup) : list Property :=
  if (length propertyElements =? 0)%nat then []
  else
    fold_left
      (fun properties element =>
         match extractContainer element with
         | Some property => properties ++ [property]
         | None => properties
         end)
      propertyElements [].

End Extractor.

(* ===================================================================== *)
(** ** The browser and the monad of the asynchronous methods *)
(* ===================================================================== *)

(** The calls the scraper makes on puppeteer.  There is one page per run, so
    the page is not an argument. *)
Inductive Call :=
| Launch (headless : bool)
| BrowserClose
| NewPage
| Goto (url : jsstring) (timeout : N)
| WaitForSelector (selector : jsstring) (timeout : N)
| WaitForNavigation (timeout : N)
| Content
| Query (selector : jsstring)            (* page.$(selector) *)
| HandleClick (selector : jsstring)      (* click() on the handle page.$ gave *)
| Focus (selector : jsstring)
| Click (selector : jsstring)
| TypeText (selector text : jsstring)
| KeyPress (key : jsstring)
| Url
| Screenshot (counter : nat) (label : jsstring)
| PageClose.

(** A browser: a state of type [W] and the answer to every call.  [content]
    gives the page's markup already loaded into the markup library; [query]
    tells whether [page.$] found an element; [url] is synchronous and does not
    fail. *)
Record Browser (W : Type) := {
  launch : bool -> W -> outcome unit * W;
  browserClose : W -> outcome unit * W;
  newPage : W -> outcome unit * W;
  goto : jsstring -> N -> W -> outcome unit * W;
  waitForSelector : jsstring -> N -> W -> outcome unit * W;
  waitForNavigation : N -> W -> outcome unit * W;
  content : W -> outcome Markup * W;
  query : jsstring -> W -> outcome bool * W;
  handleClick : jsstring -> W -> outcome unit * W;
  focus : jsstring -> W -> outcome unit * W;
  click : jsstring -> W -> outcome unit * W;
  typeText : jsstring -> jsstring -> W -> outcome unit * W;
  keyPress : jsstring -> W -> outcome unit * W;
  url : W -> jsstring;
  screenshot : nat -> jsstring -> W -> outcome unit * W;
  pageClose : W -> outcome unit * W
}.

(** The private fields of a [Property24Scraper].  [browser] tells whether the
    field holds a browser or [null]; [tmpDir] only names the screenshot
    files and is left out. *)
Record Scraper := {
  browser : bool;
  options : ScraperOptions.t;
  screenshotCounter : nat;
  listingUrlForSuburb : option jsstring
}.

(** [new Property24Scraper(options)]: the defaults are spread first. *)
Definition newScraper (opts : ScraperOptions.t) : Scraper :=
  {| browser := false;
     options :=
       {| ScraperOptions.suburb := ScraperOptions.suburb opts;
          ScraperOptions.headless :=
            match ScraperOptions.headless opts with
            | Some h => Some h
            | None => Some true
            end;
          ScraperOptions.timeout :=
            match ScraperOptions.timeout opts with
            | Some t => Some t
            | None => Some 30000%N
            end |};
     screenshotCounter := 0;
     listingUrlForSuburb := None |}.

Section Monad.

Variable W : Type.

(** The state a method runs in: the instance, the browser behind it, and the
    calls made so far (latest last). *)
Record State := {
  self : Scraper;
  world : W;
  calls : list Call
}.

Definition M (A : Type) : Type := State -> outcome A * State.

Definition ret {A} (a : A) : M A := fun st => (Ok a, st).

Definition throw {A} (message : jsstring) : M A := fun st => (Throw message, st).

Definition bind {A B} (m : M A) (k : A -> M B) : M B :=
  fun st =>
    match m st with
    | (Ok a, st') => k a st'
    | (Throw e, st') => (Throw e, st')
    end.

(** [try { body } catch (error) { handler }] and [promise.catch(handler)] *)
Definition tryCatch {A} (body : M A) (handler : jsstring -> M A) : M A :=
  fun st =>
    match body st with
    | (Ok a, st') => (Ok a, st')
    | (Throw e, st') => handler e st'
    end.

(** [try { body } finally { final }]: a throwing [final] replaces the
    completion of [body]. *)
Definition tryFinally {A} (body : M A) (final : M unit) : M A :=
  fun st =>
    match body st with
    | (r, st') =>
        match final st' with
        | (Ok _, st'') => (r, st'')
        | (Throw e, st'') => (Throw e, st'')
        end
    end.

(** One call on the browser, recorded in the trace. *)
Definition perform {A} (c : Call) (op : W -> outcome A * W) : M A :=
  fun st =>
    match op (world st) with
    | (r, w') =>
        (r, {| self := self st; world := w'; calls := calls st ++ [c] |})
    end.

Definition getSelf : M Scraper := fun st => (Ok (self st), st).

Definition setSelf (s : Scraper) : M unit :=
  fun st => (Ok tt, {| self := s; world := world st; calls := calls st |}).

End Monad.

Arguments ret {W A} a.
Arguments throw {W A} message.
Arguments getSelf {W}.
Arguments setSelf {W} s.

Declare Scope scraper_scope.
Delimit Scope scraper_scope with scraper.
Notation "x <- m ;; k" := (bind m (fun x => k))
  (at level 61, m at next level, right associativity) : scraper_scope.
Notation "m ;;; k" := (bind m (fun _ => k))
  (at level 61, right associativity) : scraper_scope.
Open Scope scraper_scope.

(* ===================================================================== *)
(** ** The methods of [Property24Scraper] *)
(* ===================================================================== *)

Definition withBrowser (me : Scraper) (b : bool) : Scraper :=
  {| browser := b; options := options me;
     screenshotCounter := screenshotCounter me;
     listingUrlForSuburb := listingUrlForSuburb me |}.

Definition withScreenshotCounter (me : Scraper) (n : nat) : Scraper :=
  {| browser := browser me; options := options me;
     screenshotCounter := n;
     listingUrlForSuburb := listingUrlForSuburb me |}.

(** The safety limit of the pagination loop. *)
Definition maxPages : nat := 100.

(** How many more times the condition [pageNumber <= maxPages] can hold. *)
Definition pagesLeft (pageNumber : nat) : nat := maxPages + 1 - pageNumber.
Arguments pagesLeft : simpl never.

(** A double-quoted attribute value inside a selector. *)
Definition quoted (s : jsstring) : jsstring := [34%N] ++ s ++ [34%N].

Definition propertyCardSelector : jsstring := js "[data-test-id=" ++ quoted (js "property-card") ++ js "]".

Definition nextPageSelectors : list jsstring :=
  [ js "a[rel=" ++ quoted (js "next") ++ js "]";
    js "button:has-text(" ++ quoted (js "Next") ++ js ")";
    js "[class*=" ++ quoted (js "next") ++ js "] a";
    js "a[aria-label*=" ++ quoted (js "next") ++ js "]";
    js "a[title*=" ++ quoted (js "next") ++ js "]" ].

Definition searchInputSelectors : list jsstring :=
  [ js "input[id*=" ++ quoted (js "token-input-AutoCompleteItems") ++ js "]";
    js "input[placeholder*="
      ++ quoted (js "Search for a City, Suburb or Web Reference") ++ js "]" ].

Definition searchButtonSelector : jsstring := js "button[class=" ++ quoted (js "btn btn-danger") ++ js "]".

Definition cookieButtonSelector : jsstring := js "button[id=" ++ quoted (js "cookieBannerClose") ++ js "]".

(** [/\/properties\//i], [/for-sale/i], [/\/p\//i] *)
Definition rePropertiesPath : regex := strCi (js "/properties/").
Definition reForSale : regex := strCi (js "for-sale").
Definition rePPath : regex := strCi (js "/p/").

Section Methods.

Variable W : Type.
Variable B : Browser W.
Variable hostDateParse : jsstring -> Date.

(** [init()] *)
Definition init : M W unit :=
  tryCatch
    (me <- getSelf ;;
     let launchHeadless :=
       match ScraperOptions.headless (options me) with
       | Some h => h
       | None => true
       end in
     perform (Launch launchHeadless) (launch B launchHeadless) ;;;
     me <- getSelf ;;
     setSelf (withBrowser me true))
    (fun error => throw error).

(** [close()] *)
Definition close : M W unit :=
  me <- getSelf ;;
  if browser me then perform BrowserClose (browserClose B) else ret tt.

(** [takeScreenshot(page, label)]: the counter goes up, then the file is
    written; a failure is logged and swallowed. *)
Definition takeScreenshot (label : jsstring) : M W unit :=
  tryCatch
    (me <- getSelf ;;
     setSelf (withScreenshotCounter me (screenshotCounter me + 1)) ;;;
     me <- getSelf ;;
     perform (Screenshot (screenshotCounter me) label)
             (screenshot B (screenshotCounter me) label))
    (fun _ => ret tt).

(** [closeCookieBanner(page)] *)
Definition closeCookieBanner : M W unit :=
  cookieButton <- perform (Query cookieButtonSelector)
                          (query B cookieButtonSelector) ;;
  if (cookieButton : bool) then
    perform (HandleClick cookieButtonSelector)
            (handleClick B cookieButtonSelector) ;;;
    takeScreenshot (js "cookie-consent-closed")
  else ret tt.

(** The [for] loop of [goToNextPage] over the selectors still to try. *)
Fixpoint goToNextPageFrom (selectors : list jsstring) (currentPageNum : nat)
  : M W bool :=
  match selectors with
  | [] => ret false
  | selector :: rest =>
      nextButton <- perform (Query selector) (query B selector) ;;
      if (nextButton : bool) then
        perform (HandleClick selector) (handleClick B selector) ;;;
        tryCatch
          (perform (WaitForNavigation 10000) (waitForNavigation B 10000))
          (fun _ =>
             tryCatch
               (perform (WaitForSelector propertyCardSelector 5000)
                        (waitForSelector B propertyCardSelector 5000))
               (fun _ => ret tt)) ;;;
        takeScreenshot (js "pagination-page-" ++ ofNat (currentPageNum + 1)) ;;;
        ret true
      else goToNextPageFrom rest currentPageNum
  end.

(** [goToNextPage(page, currentPageNum)] *)
Definition goToNextPage (currentPageNum : nat) : M W bool :=
  tryCatch (goToNextPageFrom nextPageSelectors currentPageNum)
           (fun _ => ret false).

(** [extractProperties(page)] *)
Definition extractProperties : M W (list Property) :=
  htmlContent <- perform Content (content B) ;;
  me <- getSelf ;;
  ret (extractFromMarkup hostDateParse (ScraperOptions.suburb (options me))
         htmlContent).

(** The [while (pageNumber <= maxPages)] loop of
    [extractPropertiesWithPagination], from the values of its two variables. *)
Equations? paginationLoop (pageNumber : nat) (allProperties : list Property)
  : M W (list Property) by wf (pagesLeft pageNumber) lt :=
paginationLoop pageNumber allProperties with le_dec pageNumber maxPages := {
  | left _ =>
      pageProperties <- extractProperties ;;
      let allProperties := allProperties ++ pageProperties in
      nextPageFound <- goToNextPage pageNumber ;;
      if negb nextPageFound then ret allProperties
      else paginationLoop (pageNumber + 1) allProperties
  | right _ => ret allProperties }.
Proof. unfold pagesLeft, maxPages in *. lia. Qed.

(** [extractPropertiesWithPagination(page)] *)
Definition extractPropertiesWithPagination : M W (list Property) :=
  paginationLoop 1 [].

(** The body of the [try] block of the search loop for one input selector:
    [Some resolved] is its [return resolved], [None] its falling through. *)
Definition searchWith (suburb sel : jsstring) : M W (option jsstring) :=
  perform (Focus sel) (focus B sel) ;;;
  tryCatch (perform (Click sel) (click B sel)) (fun _ => ret tt) ;;;
  perform (TypeText sel suburb) (typeText B sel suburb) ;;;
  takeScreenshot (js "search-input-filled") ;;;
  tryCatch (perform (KeyPress (js "Enter")) (keyPress B (js "Enter")))
           (fun _ => throw (js "Failed to press enter key to submit search")) ;;;
  takeScreenshot (js "search-submitted") ;;;
  perform (Focus searchButtonSelector) (focus B searchButtonSelector) ;;;
  tryCatch (perform (Click searchButtonSelector) (click B searchButtonSelector))
           (fun _ => throw (js "No search button found")) ;;;
  takeScreenshot (js "search-button-clicked") ;;;
  tryCatch
    (perform (WaitForNavigation 30000) (waitForNavigation B 30000) ;;;
     takeScreenshot (js "after-navigation"))
    (fun _ => takeScreenshot (js "navigation-timeout")) ;;;
  resolved <- perform Url (fun w => (Ok (url B w), w)) ;;
  if test rePropertiesPath resolved || test reForSale resolved
     || test rePPath resolved
  then ret (Some resolved)
  else ret None.

(** The [for] loop of [findListingUrlForSuburb] over the input selectors
    still to try, and the [throw] after it. *)
Fixpoint searchFrom (suburb : jsstring) (selectors : list jsstring)
  : M W jsstring :=
  match selectors with
  | [] => throw (js "Could not resolve listing URL for suburb: " ++ suburb)
  | sel :: rest =>
      exists_ <- perform (Query sel) (query B sel) ;;
      if negb exists_ then searchFrom suburb rest
      else
        returned <- tryCatch (searchWith suburb sel) (fun _ => ret None) ;;
        match returned with
        | Some resolved => ret resolved
        | None => searchFrom suburb rest
        end
  end.

(** [findListingUrlForSuburb(page, suburb)] *)
Definition findListingUrlForSuburb (suburb : jsstring) : M W jsstring :=
  me <- getSelf ;;
  if truthy (listingUrlForSuburb me) then
    ret (orElse (listingUrlForSuburb me) [])
  else
    tryCatch
      (perform (Goto BASE_URL 15000) (goto B BASE_URL 15000) ;;;
       takeScreenshot (js "homepage-loaded"))
      (fun _ => throw (js "Failed to load Property24 homepage")) ;;;
    closeCookieBanner ;;;
    searchFrom suburb searchInputSelectors.

(** [this.options.timeout ?? 30000] *)
Definition timeoutOr (me : Scraper) : N :=
  match ScraperOptions.timeout (options me) with
  | Some t => t
  | None => 30000%N
  end.

(** Lines 132-145 of [scrapeSuburb]: the listing page is opened and given
    time to show its cards. *)
Definition loadListing (me : Scraper) (searchUrl : jsstring) : M W unit :=
  perform (Goto searchUrl (timeoutOr me)) (goto B searchUrl (timeoutOr me)) ;;;
  takeScreenshot (js "listing-page-loaded") ;;;
  tryCatch
    (perform (WaitForSelector propertyCardSelector 10000)
             (waitForSelector B propertyCardSelector 10000))
    (fun _ => ret tt).

(** The body of the inner [try] of [scrapeSuburb] (lines 132-161). *)
Definition scrapeListing (me : Scraper) (errors : list jsstring)
    (searchUrl : jsstring) : M W ScraperResult :=
  loadListing me searchUrl ;;;
  properties <- extractPropertiesWithPagination ;;
  let propertiesScraped := length properties in
  takeScreenshot (js "properties-extracted") ;;;
  ret {| success := true;
         propertiesScraped := propertiesScraped;
         propertiesSaved := 0;
         errors := errors;
         message := js "Successfully scraped " ++ ofNat propertiesScraped
                    ++ js " properties from "
                    ++ ScraperOptions.suburb (options me);
         properties := Some properties |}.

(** The body of the outer [try] of [scrapeSuburb] (lines 114-164). *)
Definition scrapeBody (errors : list jsstring) : M W ScraperResult :=
  me <- getSelf ;;
  (if negb (browser me) then throw (js "Browser not initialized")
   else ret tt) ;;;
  perform NewPage (newPage B) ;;;
  searchUrl <- findListingUrlForSuburb (ScraperOptions.suburb (options me)) ;;
  tryFinally (scrapeListing me errors searchUrl)
             (perform PageClose (pageClose B)).

(** [scrapeSuburb()] *)
Definition scrapeSuburb : M W ScraperResult :=
  let errors : list jsstring := [] in
  tryCatch
    (scrapeBody errors)
    (fun errorMessage =>
       let errors := errors ++ [errorMessage] in
       ret {| success := false;
              propertiesScraped := 0;
              propertiesSaved := 0;
              errors := errors;
              message := js "Failed to scrape properties: " ++ errorMessage;
              properties := Some [] |}).

End Methods.

(* ===================================================================== *)
(** ** The names of the screenshot folder and of its files *)
(* ===================================================================== *)

(** The clock is read through [new Date().toISOString()]; the text it gives
    is an argument here. *)

Definition cColon : N := 58.
Definition cUnderscore : N := 95.
Definition cZero : N := 48.

Definition isLowerAscii (c : N) : bool := (97 <=? c)%N && (c <=? 122)%N.

(** [[a-zA-Z0-9-]], the class the constructor negates. *)
Definition isFolderChar (c : N) : bool :=
  isLowerAscii c || isUpperAscii c || isDigit c || N.eqb c cMinus.

(** [.replace(/[:.]/g, "-")] *)
Definition dashed (iso : jsstring) : jsstring :=
  map (fun c => if N.eqb c cColon || N.eqb c cDot then cMinus else c) iso.

(** [now.toISOString().replace(/[:.]/g, "-").slice(0, 19)] *)
Definition dateTime (iso : jsstring) : jsstring := firstn 19 (dashed iso).

(** [options.suburb.replace(/[^a-zA-Z0-9-]/g, "-")]: the expression has no
    [u] flag, so it works on code units. *)
Definition sanitizedSuburb (suburb : jsstring) : jsstring :=
  map (fun c => if isFolderChar c then c else cMinus) suburb.

(** The template [`${dateTime}_${sanitizedSuburb}`] of the constructor. *)
Definition folderName (iso suburb : jsstring) : jsstring :=
  dateTime iso ++ [cUnderscore] ++ sanitizedSuburb suburb.

(** [.slice(0, -5)] *)
Definition timestamp (iso : jsstring) : jsstring :=
  firstn (length iso - 5) (dashed iso).

(** [.padStart(3, "0")] *)
Definition padStart3 (s : jsstring) : jsstring :=
  repeat cZero (3 - length s) ++ s.

(** The template of [takeScreenshot] for the name of the file. *)
Definition filename (screenshotCounter : nat) (label iso : jsstring)
    : jsstring :=
  padStart3 (ofNat screenshotCounter) ++ [cUnderscore] ++ label
  ++ [cUnderscore] ++ timestamp iso ++ js ".png".

(* ===================================================================== *)
(** ** The command [scrape <suburb>] of index.ts *)
(* ===================================================================== *)

(** The three calls the command makes on database.ts.  The store is part of
    the world [W]; its calls are not calls on the browser and leave the trace
    alone. *)
Record Store (W : Type) := {
  connectDB : W -> outcome unit * W;
  insertProperty : Property -> W -> outcome unit * W;
  closeDB : W -> outcome unit * W
}.

(** The three lines of results the command prints. *)
Record Report := {
  found : nat;                  (* Properties found: result.propertiesScraped *)
  saved : nat;                  (* Properties saved: savedCount *)
  shownErrors : list jsstring   (* Errors: result.errors, when there are any *)
}.

(** How the command ends: it returns, having printed its report, or it leaves
    through [process.exit(1)].  The report is printed before the browser and
    the store are closed, so an exit can follow a printed report. *)
Inductive Ending :=
| Returned (report : Report)
| Exit1 (printed : option Report).

Module Index.
Section Command.

Variable W : Type.
Variable B : Browser W.
Variable D : Store W.
Variable hostDateParse : jsstring -> Date.

Definition onStore {A} (op : W -> outcome A * W) : M W A :=
  fun st =>
    match op (world st) with
    | (r, w') => (r, {| self := self st; world := w'; calls := calls st |})
    end.

(** The loop of lines 414-421: a record the store refuses costs that record
    only. *)
Fixpoint saveProperties (properties : list Property) (savedCount : nat)
    : M W nat :=
  match properties with
  | [] => ret savedCount
  | property :: rest =>
      savedCount <- tryCatch
                      (onStore (insertProperty D property) ;;;
                       ret (savedCount + 1))
                      (fun _ => ret savedCount) ;;
      saveProperties rest savedCount
  end.

(** [scrapeSuburb(suburb, options)].  The instance the command makes takes
    the place of [self]; the folder its constructor creates is outside the
    model.  The inner handler stands for the same [catch] as the outer one,
    reached after the report was printed. *)
Definition scrapeSuburb (suburb : jsstring) (headless : option bool)
    (timeout : option N) : M W Ending :=
  tryCatch
    (onStore (connectDB D) ;;;
     setSelf (newScraper {| ScraperOptions.suburb := suburb;
                            ScraperOptions.headless := headless;
                            ScraperOptions.timeout := timeout |}) ;;;
     init B ;;;
     result <- scrapeSuburb B hostDateParse ;;
     savedCount <- match properties result with
                   | Some ((_ :: _) as ps) => saveProperties ps 0
                   | _ => ret 0
                   end ;;
     let report := {| found := propertiesScraped result;
                      saved := savedCount;
                      shownErrors := errors result |} in
     tryCatch
       (close B ;;;
        onStore (closeDB D) ;;;
        ret (Returned report))
       (fun _ => ret (Exit1 (Some report))))
    (fun _ => ret (Exit1 None)).

End Command.
End Index.

(* ===================================================================== *)
(** ** Vocabulary of the properties *)
(* ===================================================================== *)

(** A string without white space at either end. *)
Definition isTrimmed (s : jsstring) : bool :=
  match s with
  | [] => true
  | c :: _ => negb (isWhiteSpace c)
  end
  && match rev s with
     | [] => true
     | c :: _ => negb (isWhiteSpace c)
     end.

(** The field of an address at a position of the comma-separated text. *)
Definition fieldAt (a : Address.t) (i : nat) : option jsstring :=
  match i with
  | 0 => Address.street a
  | 1 => Address.estate a
  | 2 => Address.suburb a
  | 3 => Address.city a
  | 4 => Address.postalCode a
  | _ => None
  end.



(** The selection the fallback of the link search reads its [href] from. *)
Definition titleLink (c : Container) : list (option jsstring) :=
  if (length (titleInnerHrefs c) =? 0)%nat then titleClosestHrefs c
  else titleInnerHrefs c.

(** A container has a resolvable listing link when one of its /for-sale/
    links, or else its title link, has a non-empty [href]. *)
Definition hasLink (c : Container) : bool :=
  existsb truthy (forSaleHrefs c) || truthy (attrOfFirst (titleLink c)).

(** The records of a page, one container after the other. *)
Definition recordsOf (hostDateParse : jsstring -> Date) (optionsSuburb : jsstring)
    (cs : Markup) : list Property :=
  flat_map
    (fun c =>
       match extractContainer hostDateParse optionsSuburb c with
       | Some p => [p]
       | None => []
       end) cs.

(** *** Observing a run *)

Definition isContent (c : Call) : bool :=
  match c with Content => true | _ => false end.

(** The number of extraction calls in a trace: [extractProperties] is the one
    method that reads the page's content, once per call. *)
Definition extractionCalls (trace : list Call) : nat :=
  length (filter isContent trace).

Definition extractions {W} (st : State W) : nat := extractionCalls (calls st).

(** The state after the one call [extractProperties] makes. *)
Definition afterContent {W} (st : State W) (w' : W) : State W :=
  {| self := self st; world := w'; calls := calls st ++ [Content] |}.

(** The cache field of the instance. *)
Definition cacheOf {W} (st : State W) : option jsstring :=
  listingUrlForSuburb (self st).

(** A method that leaves an observation of the state as it was. *)
Definition preserves {W X A} (f : State W -> X) (m : M W A) : Prop :=
  forall st, f (snd (m st)) = f st.

(** The two shapes of a result of [scrapeSuburb]. *)
Definition isSuccessOf (ps : list Property) (r : ScraperResult) : Prop :=
  success r = true /\ propertiesScraped r = length ps
  /\ properties r = Some ps /\ errors r = [].

Definition isFailure (r : ScraperResult) : Prop :=
  success r = false /\ propertiesScraped r = 0
  /\ properties r = Some [] /\ exists e, errors r = [e].

(** The state in which a run of [scrapeSuburb] started in [st] enters the
    pagination stage: the browser is there, the page is open, the listing URL
    is resolved and the listing page is loaded. *)
Definition entersWalk {W} (B : Browser W) (st s : State W) : Prop :=
  browser (self st) = true
  /\ exists s1 searchUrl s2,
       perform NewPage (newPage B) st = (Ok tt, s1)
       /\ findListingUrlForSuburb B
            (ScraperOptions.suburb (options (self st))) s1
          = (Ok searchUrl, s2)
       /\ loadListing B (self st) searchUrl s2 = (Ok tt, s).

(** An absolute URL of the web: one with the scheme "http" or "https". *)
Definition isAbsoluteUrl (url : jsstring) : bool :=
  startsWith url (js "http://") || startsWith url (js "https://").

(** A container whose callback runs to its end. *)
Definition completes (c : Container) : bool :=
  match thrown c with Some _ => false | None => true end.

(** The status element of a container: the first one that passes the filter
    of the extractor, and its text; the empty text when there is none. *)
Definition statusElement (c : Container) : jsstring :=
  firstText (filter isStatusText (statusTexts c)).

(** *** The next-page control of a page

    What the browser answers when the selectors of [goToNextPage] are tried
    in their order on the page it shows in the state [w]: one of them finds a
    control and the click on it succeeds, the ones before it finding none; or
    none of them finds a control; or a query, or the click on the control
    found, throws. *)
Inductive NextControl :=
| ControlWorks
| NoControl
| ControlFails (error : jsstring).

Fixpoint nextControl {W} (B : Browser W) (selectors : list jsstring) (w : W)
  : NextControl :=
  match selectors with
  | [] => NoControl
  | selector :: rest =>
      match query B selector w with
      | (Ok true, w1) =>
          match handleClick B selector w1 with
          | (Ok _, _) => ControlWorks
          | (Throw e, _) => ControlFails e
          end
      | (Ok false, w1) => nextControl B rest w1
      | (Throw e, _) => ControlFails e
      end
  end.


Definition advances (c : NextControl) : bool :=
  match c with ControlWorks => true | _ => false end.

(** *** A walk over result pages

    [Walk B host n st pages st']: from the state [st], with the walker on page
    number [n], the browser shows the pages whose records are [pages]; on each
    but the last a next-page control is found and the click on it succeeds;
    on the last the step to the next page does not succeed: no control is
    found, or a query or the click throws; [st'] is the state the walker is
    left in. *)
Inductive Walk {W} (B : Browser W) (host : jsstring -> Date)
  : nat -> State W -> list (list Property) -> State W -> Prop :=
| Walk_last n st records st1 :
    extractProperties B host st = (Ok records, st1) ->
    nextControl B nextPageSelectors (world st1) <> ControlWorks ->
    Walk B host n st [records] (snd (goToNextPage B n st1))
| Walk_next n st records st1 pages st3 :
    extractProperties B host st = (Ok records, st1) ->
    nextControl B nextPageSelectors (world st1) = ControlWorks ->
    Walk B host (n + 1) (snd (goToNextPage B n st1)) pages st3 ->
    Walk B host n st (records :: pages) st3.

(** *** Browsers to run the scraper on *)

(** A browser in which every call succeeds and changes nothing, but for the
    ones given: the markup of the page, which selectors [page.$] finds, what a
    click on a found element and what typing do, the address shown, and
    closing the page. *)
Definition scriptedBrowser {W : Type}
    (onContent : W -> outcome Markup * W)
    (onQuery : jsstring -> W -> bool)
    (onHandleClick : jsstring -> W -> W)
    (onTypeText : W -> W)
    (onUrl : W -> jsstring)
    (onPageClose : W -> outcome unit * W) : Browser W :=
  {| launch := fun _ w => (Ok tt, w);
     browserClose := fun w => (Ok tt, w);
     newPage := fun w => (Ok tt, w);
     goto := fun _ _ w => (Ok tt, w);
     waitForSelector := fun _ _ w => (Ok tt, w);
     waitForNavigation := fun _ w => (Ok tt, w);
     content := onContent;
     query := fun sel w => (Ok (onQuery sel w), w);
     handleClick := fun sel w => (Ok tt, onHandleClick sel w);
     focus := fun _ w => (Ok tt, w);
     click := fun _ w => (Ok tt, w);
     typeText := fun _ _ w => (Ok tt, onTypeText w);
     keyPress := fun _ w => (Ok tt, w);
     url := onUrl;
     screenshot := fun _ _ w => (Ok tt, w);
     pageClose := onPageClose |}.

Definition firstNextSelector : jsstring := js "a[rel=" ++ quoted (js "next") ++ js "]".
Definition firstSearchSelector : jsstring :=
  js "input[id*=" ++ quoted (js "token-input-AutoCompleteItems") ++ js "]".

(** A site of result pages: the state is the index of the page shown; page
    [i] has the markup [nth i pages []] and a next link while there is a
    later page; the search box is there and the search lands on [landing]. *)
Definition siteBrowser (pages : list Markup) (landing : jsstring) : Browser nat :=
  scriptedBrowser
    (fun i => (Ok (nth i pages []), i))
    (fun sel i =>
       if JS.eqb sel firstNextSelector then (i + 1 <? length pages)%nat
       else JS.eqb sel firstSearchSelector)
    (fun sel i => if JS.eqb sel firstNextSelector then i + 1 else i)
    (fun i => i)
    (fun _ => landing)
    (fun i => (Ok tt, i)).

(** The same site with a renderer that fails to give the page's content. *)
Definition brokenContentBrowser (landing : jsstring) : Browser nat :=
  scriptedBrowser
    (fun i => (Throw (js "Target closed"), i))
    (fun sel i => JS.eqb sel firstSearchSelector)
    (fun sel i => i)
    (fun i => i)
    (fun _ => landing)
    (fun i => (Ok tt, i)).



(** A site whose search lands on a different address each time: the state
    counts the searches typed. *)
Definition movingBrowser : Browser nat :=
  scriptedBrowser
    (fun n => (Ok [], n))
    (fun sel n => JS.eqb sel firstSearchSelector)
    (fun sel n => n)
    (fun n => n + 1)
    (fun n => js "https://www.property24.com/for-sale/sandton/" ++ ofNat n)
    (fun n => (Ok tt, n)).

Definition sandton : ScraperOptions.t :=
  {| ScraperOptions.suburb := js "Sandton";
     ScraperOptions.headless := None;
     ScraperOptions.timeout := None |}.

(** A new scraper in front of a browser in the state [w]. *)
Definition fresh {W} (w : W) : State W :=
  {| self := newScraper sandton; world := w; calls := [] |}.

(** The same after [init()]. *)
Definition launched {W} (B : Browser W) (w : W) : State W :=
  snd (init B (fresh w)).

(** A host whose [Date] reads no string outside the standard format. *)
Definition strictHost : jsstring -> Date := fun _ => InvalidDate.

(** Containers for the examples. *)
Definition bareContainer : Container :=
  {| thrown := None;
     forSaleHrefs := []; titleInnerHrefs := []; titleClosestHrefs := [];
     addressText := []; priceText := []; typeTexts := []; featuresText := [];
     statusTexts := []; dateAttr := None; listedText := [] |}.

Definition linkedContainer (href : jsstring) (address : jsstring) : Container :=
  {| thrown := None;
     forSaleHrefs := [Some href]; titleInnerHrefs := [];
     titleClosestHrefs := [];
     addressText := address; priceText := js "R 1,250,000";
     typeTexts := [js "3 Bedroom House"];
     featuresText := js "3 Bedrooms 2 Bathrooms 180 m2";
     statusTexts := [js "Under Offer"]; dateAttr := None; listedText := [] |}.

(** A listing with the given status elements. *)
Definition statusContainer (texts : list jsstring) : Container :=
  {| thrown := None;
     forSaleHrefs := [Some (js "/for-sale/sandton/1")]; titleInnerHrefs := [];
     titleClosestHrefs := [];
     addressText := js "1 Elm Rd, , Sandton"; priceText := js "R 1,250,000";
     typeTexts := [js "3 Bedroom House"];
     featuresText := js "3 Bedrooms 2 Bathrooms 180 m2";
     statusTexts := texts; dateAttr := None; listedText := [] |}.

(** A listing on which the markup library throws. *)
Definition throwingContainer : Container :=
  {| thrown := Some (js "Cannot read properties of undefined");
     forSaleHrefs := [Some (js "/for-sale/sandton/3")]; titleInnerHrefs := [];
     titleClosestHrefs := [];
     addressText := []; priceText := []; typeTexts := []; featuresText := [];
     statusTexts := []; dateAttr := None; listedText := [] |}.

Definition landingUrl : jsstring :=
  js "https://www.property24.com/for-sale/sandton/gauteng/109".

(** A site of three result pages, the second of them without a listing. *)
Definition site3Markup : list Markup :=
  [ [linkedContainer (js "/for-sale/sandton/1") (js "1 Elm Rd, , Sandton")];
    [];
    [bareContainer;
     linkedContainer (js "https://www.property24.com/for-sale/sandton/2") []] ].

Definition site3 : Browser nat := siteBrowser site3Markup landingUrl.

(** A page of four containers: two listings, one container without a link
    between them, and one on which the callback throws. *)
Definition mixedPage : Markup :=
  [linkedContainer (js "/for-sale/sandton/1") [];
   bareContainer;
   linkedContainer (js "http://example.org/for-sale/2") [];
   throwingContainer].

(** A page whose one listing has a link that starts with "http" and is not
    a URL. *)
Definition oddLinkPage : Markup :=
  [linkedContainer (js "httpfoo/for-sale/9") []].

(** A site whose one result page has no listing. *)
Definition emptySite : Browser nat := siteBrowser [[]] landingUrl.

(** The calls made between two states of a run. *)
Definition callsSince {W} (before after : State W) : list Call :=
  skipn (length (calls before)) (calls after).

Definition isNavigation (c : Call) : bool :=
  match c with Goto _ _ => true | _ => false end.

Definition isTyping (c : Call) : bool :=
  match c with TypeText _ _ => true | _ => false end.

Definition isKeyStroke (c : Call) : bool :=
  match c with KeyPress _ => true | _ => false end.

(** A method only adds calls to the trace. *)
Definition grows {W A} (m : M W A) : Prop :=
  forall st, exists added, calls (snd (m st)) = calls st ++ added.

(* ===================================================================== *)
(** ** Vocabulary of the further properties *)
(* ===================================================================== *)

(** The strings a pattern matches, whatever it captures. *)
Inductive Matches : regex -> jsstring -> Prop :=
| Matches_Eps : Matches Eps []
| Matches_Chr p c : p c = true -> Matches (Chr p) [c]
| Matches_Cat r1 r2 a b :
    Matches r1 a -> Matches r2 b -> Matches (Cat r1 r2) (a ++ b)
| Matches_AltL r1 r2 a : Matches r1 a -> Matches (Alt r1 r2) a
| Matches_AltR r1 r2 a : Matches r2 a -> Matches (Alt r1 r2) a
| Matches_StarNil r : Matches (Star r) []
| Matches_StarCons r a b :
    Matches r a -> Matches (Star r) b -> Matches (Star r) (a ++ b)
| Matches_Group i r a : Matches r a -> Matches (Group i r) a.

(** A pattern without a capturing group. *)
Fixpoint groupFree (r : regex) : bool :=
  match r with
  | Eps | Chr _ => true
  | Cat r1 r2 | Alt r1 r2 => groupFree r1 && groupFree r2
  | Star r' => groupFree r'
  | Group _ _ => false
  end.


(** A number that is [NaN], positive infinity or a non-negative decimal: what
    a run of digits and dots reads as. *)
Definition isAmount (n : number) : Prop :=
  n = NaN \/ n = Infinity false
  \/ exists m e, n = Dec m e /\ (0 <= m)%Z.




Definition isDigitOrDot (c : N) : bool := isDigit c || N.eqb c cDot.

(** A code unit at which [parseFloat] stops reading without having read a
    sign, an exponent or the start of "Infinity". *)
Definition isStopper (c : N) : bool :=
  negb (isDigit c || N.eqb c cDot || isWhiteSpace c || N.eqb c cMinus
        || N.eqb c cPlus || N.eqb c 73 || N.eqb c 101 || N.eqb c 69).

(** Digits and dots, to the end or up to a stopper. *)
Fixpoint amountShape (s : jsstring) : bool :=
  match s with
  | [] => true
  | c :: r => if isDigitOrDot c then amountShape r else isStopper c
  end.

(** Segments joined by commas, as an address text is written. *)
Fixpoint joinComma (segments : list jsstring) : jsstring :=
  match segments with
  | [] => []
  | [s] => s
  | s :: rest => s ++ cComma :: joinComma rest
  end.

Definition commaFree (s : jsstring) : bool :=
  forallb (fun c => negb (N.eqb c cComma)) s.

(** A text with a code unit that is not white space. *)
Definition hasInk (s : jsstring) : bool :=
  existsb (fun c => negb (isWhiteSpace c)) s.

(** *** Observing a run, continued *)

(** A method that returns on every state. *)
Definition neverThrows {W A} (m : M W A) : Prop :=
  forall st, exists a st', m st = (Ok a, st').

(** The number of calls of a kind made so far. *)
Definition countCalls {W} (kind : Call -> bool) (st : State W) : nat :=
  length (filter kind (calls st)).

Definition isHandleClick (c : Call) : bool :=
  match c with HandleClick _ => true | _ => false end.

Definition isPageClose (c : Call) : bool :=
  match c with PageClose => true | _ => false end.

Definition isNewPage (c : Call) : bool :=
  match c with NewPage => true | _ => false end.

Definition isBrowserClose (c : Call) : bool :=
  match c with BrowserClose => true | _ => false end.

(** A relation between the state before and the state after that a method
    keeps. *)
Definition respects {W A} (R : State W -> State W -> Prop) (m : M W A) : Prop :=
  forall st, R st (snd (m st)).

(** The numbers of the screenshots in a trace, in order. *)
Definition shotNumbers (trace : list Call) : list nat :=
  flat_map (fun c => match c with Screenshot n _ => [n] | _ => [] end) trace.

(** The calls added are screenshots numbered on from the counter of the
    instance, and the counter has followed. *)
Definition numbered {W} (before after : State W) : Prop :=
  exists added k,
    calls after = calls before ++ added
    /\ screenshotCounter (self after) = screenshotCounter (self before) + k
    /\ shotNumbers added = seq (screenshotCounter (self before) + 1) k.

(** The test of [findListingUrlForSuburb] on the address the search led to. *)
Definition looksLikeListingUrl (resolved : jsstring) : bool :=
  test rePropertiesPath resolved || test reForSale resolved
  || test rePPath resolved.

(** A site without a search box. *)
Definition blankBrowser : Browser nat :=
  scriptedBrowser
    (fun n => (Ok [], n))
    (fun sel n => false)
    (fun sel n => n)
    (fun n => n)
    (fun n => js "https://www.property24.com/")
    (fun n => (Ok tt, n)).

(** A site that cannot be launched. *)
Definition deadBrowser : Browser nat :=
  {| launch := fun _ w => (Throw (js "Failed to launch the browser process"), w);
     browserClose := fun w => (Ok tt, w);
     newPage := fun w => (Ok tt, w);
     goto := fun _ _ w => (Ok tt, w);
     waitForSelector := fun _ _ w => (Ok tt, w);
     waitForNavigation := fun _ w => (Ok tt, w);
     content := fun w => (Ok [], w);
     query := fun _ w => (Ok false, w);
     handleClick := fun _ w => (Ok tt, w);
     focus := fun _ w => (Ok tt, w);
     click := fun _ w => (Ok tt, w);
     typeText := fun _ _ w => (Ok tt, w);
     keyPress := fun _ w => (Ok tt, w);
     url := fun _ => [];
     screenshot := fun _ _ w => (Ok tt, w);
     pageClose := fun w => (Ok tt, w) |}.

(** The calls that start or end a browser or a page. *)
Definition isLifecycle (c : Call) : bool :=
  match c with
  | Launch _ | BrowserClose | NewPage | PageClose => true
  | _ => false
  end.

(** A kind of calls made of such calls only. *)
Definition lifecycleKind (kind : Call -> bool) : Prop :=
  forall c, kind c = true -> isLifecycle c = true.

Definition isScreenshot (c : Call) : bool :=
  match c with Screenshot _ _ => true | _ => false end.

(** The instance without its screenshot counter. *)
Definition settings {W} (st : State W) : Scraper :=
  withScreenshotCounter (self st) 0.

Definition isOk {A} (r : outcome A) : bool :=
  match r with Ok _ => true | Throw _ => false end.

(** A store that takes the records a test accepts and refuses the others. *)
Definition choosyStore (accepts : Property -> bool) : Store nat :=
  {| connectDB := fun w => (Ok tt, w);
     insertProperty := fun p w =>
       if accepts p then (Ok tt, w)
       else (Throw (js "null value in column violates not-null constraint"), w);
     closeDB := fun w => (Ok tt, w) |}.

(** A store that cannot be reached. *)
Definition unreachableStore : Store nat :=
  {| connectDB := fun w => (Throw (js "connect ECONNREFUSED"), w);
     insertProperty := fun _ w => (Ok tt, w);
     closeDB := fun w => (Ok tt, w) |}.

(** A record with a street address. *)
Definition hasStreet (p : Property) : bool :=
  match street_address p with Some _ => true | None => false end.

(** The path separators and the code units that [dashed] replaces. *)
Definition isSeparator (c : N) : bool := N.eqb c cSlash || N.eqb c 92.

(** What a code unit of a folder name can be: no dot and no colon, and a
    path separator only when the clock text had it. *)
Definition folderSafe (iso : jsstring) (c : N) : bool :=
  negb (N.eqb c cDot) && negb (N.eqb c cColon)
  && (negb (isSeparator c) || existsb (N.eqb c) iso).

(** The days from 1 January 1970 to a day of the Gregorian calendar. *)
Definition daysFromCivil (y m d : Z) : Z :=
  let y' := if (m <=? 2)%Z then (y - 1)%Z else y in
  let era := (y' / 400)%Z in
  let yoe := (y' - era * 400)%Z in
  let doy := ((153 * (if (2 <? m)%Z then m - 3 else m + 9) + 2) / 5 + d - 1)%Z in
  let doe := (yoe * 365 + yoe / 4 - yoe / 100 + doy)%Z in
  (era * 146097 + doe - 719468)%Z.

(** A host that reads the date-only format, as midnight UTC of the day, and
    nothing else. *)
Definition calendarHost : jsstring -> Date :=
  fun s =>
    match isoDateOnly s with
    | Some (y, m, d) => DateAt (daysFromCivil y m d * 86400000)
    | None => InvalidDate
    end.

(** The bounds ECMAScript puts on the month and the day of a date. *)
Definition inCalendar (month day : jsstring) : bool :=
  ((1 <=? digitsVal month) && (digitsVal month <=? 12)
   && (1 <=? digitsVal day) && (digitsVal day <=? 31))%Z.

(** A listing with two status elements, the first of them the age of the
    listing. *)
Definition listedThenSold : Container :=
  {| thrown := None;
     forSaleHrefs := [Some (js "/for-sale/sandton/1")]; titleInnerHrefs := [];
     titleClosestHrefs := [];
     addressText := js "1 Elm Rd, , Sandton"; priceText := js "R 1,250,000";
     typeTexts := [js "3 Bedroom House"];
     featuresText := js "3 Bedrooms 2 Bathrooms 180 m2";
     statusTexts := [js "Listed 3 days ago"; js "Sold"];
     dateAttr := None; listedText := [] |}.
(* ===================================================================== *)
(** ** Facts about strings and patterns *)
(* ===================================================================== *)

Unset Implicit Arguments.

Lemma dropWhile_head p s c r :
  dropWhile p s = c :: r -> p c = false.
Proof.
  induction s as [|x s IH]; simpl; [discriminate|].
  destruct (p x) eqn:E; [exact IH|].
  intros H; injection H as -> _. exact E.
Qed.

Lemma dropWhile_suffix p s :
  exists pre, s = pre ++ dropWhile p s.
Proof.
  induction s as [|x s [pre IH]]; simpl.
  - exists []. reflexivity.
  - destruct (p x).
    + exists (x :: pre). simpl. f_equal. exact IH.
    + exists []. reflexivity.
Qed.

Lemma dropWhile_all p s :
  forallb p s = true -> dropWhile p s = [].
Proof.
  induction s as [|x s IH]; simpl; [reflexivity|].
  intros H. apply andb_prop in H as [Hx Hs]. rewrite Hx. auto.
Qed.

Lemma trim_isTrimmed s : isTrimmed (trim s) = true.
Proof.
  unfold trim, trimEnd, trimStart, isTrimmed.
  set (t := dropWhile isWhiteSpace s).
  destruct (dropWhile_suffix isWhiteSpace (rev t)) as [pre Hpre].
  set (u := dropWhile isWhiteSpace (rev t)) in *.
  apply andb_true_intro; split.
  - destruct (rev u) as [|c r] eqn:Hu; [reflexivity|].
    assert (Ht : t = c :: r ++ rev pre).
    { rewrite <- (rev_involutive t), Hpre, rev_app_distr, Hu. reflexivity. }
    unfold t in Ht. apply dropWhile_head in Ht. rewrite Ht. reflexivity.
  - rewrite rev_involutive. destruct u as [|c r] eqn:Hu; [reflexivity|].
    unfold u in Hu. apply dropWhile_head in Hu. rewrite Hu. reflexivity.
Qed.

Lemma trim_blank s : forallb isWhiteSpace s = true -> trim s = [].
Proof.
  intros H. unfold trim, trimStart, trimEnd.
  rewrite (dropWhile_all _ _ H). reflexivity.
Qed.

Lemma split_nonempty sep s : split sep s <> [].
Proof.
  destruct s as [|c s]; simpl; [discriminate|].
  destruct (N.eqb c sep); [discriminate|].
  destruct (split sep s); discriminate.
Qed.

Lemma orUndefined_some x s : orUndefined x = Some s -> x = Some s /\ s <> [].
Proof.
  unfold orUndefined, truthy. destruct x as [[|c r]|]; try discriminate.
  intros H; injection H as <-. split; [reflexivity|discriminate].
Qed.

Lemma truthy_some x : truthy x = true -> exists s, x = Some s /\ s <> [].
Proof.
  destruct x as [[|c r]|]; simpl; try discriminate.
  intros _. eexists; split; [reflexivity|discriminate].
Qed.

Lemma truthy_orElse x d : truthy x = true -> x = Some (orElse x d).
Proof. destruct x as [[|c r]|]; simpl; try discriminate; reflexivity. Qed.


Lemma fieldAt_parseAddress text i :
  i < 5 ->
  fieldAt (parseAddress text) i
  = orUndefined (nth_error (map trim (split cComma text)) i).
Proof.
  intros H. do 5 (destruct i as [|i]; [reflexivity|]). lia.
Qed.

Lemma fieldAt_beyond a i : 5 <= i -> fieldAt a i = None.
Proof.
  intros H. do 5 (destruct i as [|i]; [lia|]). reflexivity.
Qed.








Lemma parseDate_absent host :
  parseDate host None = None /\ parseDate host (Some []) = None.
Proof. split; reflexivity. Qed.

(** A text with the date-time separator that the host reads as a timestamp is
    that timestamp. *)
Lemma parseDate_timestamp_first host text t :
  text <> [] -> includes text (js "T") = true ->
  newDate host text = DateAt t ->
  parseDate host (Some text) = Some (DateAt t).
Proof.
  intros Hne HT Hd. unfold parseDate.
  destruct text as [|c r]; [contradiction|].
  cbn [truthy negb orElse]. rewrite HT, Hd. reflexivity.
Qed.

(** Otherwise the day/month/year pattern decides. *)
Lemma parseDate_pattern_second host text :
  text <> [] ->
  includes text (js "T") = false \/ newDate host text = InvalidDate ->
  parseDate host (Some text) = parseDateDMY host text.
Proof.
  intros Hne H. unfold parseDate.
  destruct text as [|c r]; [contradiction|].
  cbn [truthy negb orElse].
  destruct H as [H|H]; rewrite H; [reflexivity|].
  destruct (includes (c :: r) (js "T")); reflexivity.
Qed.

Lemma parseDate_no_pattern host text :
  exec reDate text = None ->
  includes text (js "T") = false \/ newDate host text = InvalidDate ->
  parseDate host (Some text) = None.
Proof.
  intros Hm H. destruct text as [|c r]; [reflexivity|].
  rewrite parseDate_pattern_second by (discriminate || exact H).
  unfold parseDateDMY. rewrite Hm. reflexivity.
Qed.

(** *** The listing link of a container *)

Lemma pick_keeps (l : list (option jsstring)) acc :
  truthy acc = true ->
  fold_left
    (fun propertyUrl href =>
       if truthy href && negb (truthy propertyUrl) then href else propertyUrl)
    l acc = acc.
Proof.
  revert acc. induction l as [|h l IH]; intros acc Hacc; simpl; [reflexivity|].
  rewrite Hacc, andb_false_r. apply IH. exact Hacc.
Qed.

Lemma pick_first (l : list (option jsstring)) :
  let r := fold_left
             (fun propertyUrl href =>
                if truthy href && negb (truthy propertyUrl) then href
                else propertyUrl) l None in
  (existsb truthy l = false -> r = None)
  /\ (existsb truthy l = true -> truthy r = true /\ In r l).
Proof.
  induction l as [|h l IH]; simpl.
  - split; [reflexivity|discriminate].
  - destruct (truthy h) eqn:Hh; simpl.
    + split; [discriminate|]. intros _.
      rewrite pick_keeps by exact Hh. split; [exact Hh|left; reflexivity].
    + destruct IH as [IH1 IH2]. split; [exact IH1|].
      intros H. destruct (IH2 H) as [Ht Hin]. split; [exact Ht|right; exact Hin].
Qed.

Lemma findPropertyUrl_truthy c : truthy (findPropertyUrl c) = hasLink c.
Proof.
  unfold findPropertyUrl, hasLink, titleLink.
  destruct (pick_first (forSaleHrefs c)) as [H0 H1].
  destruct (existsb truthy (forSaleHrefs c)).
  - destruct (H1 eq_refl) as [Ht _]. rewrite Ht. simpl. exact Ht.
  - rewrite (H0 eq_refl). reflexivity.
Qed.

Lemma findPropertyUrl_source c :
  truthy (findPropertyUrl c) = true ->
  In (findPropertyUrl c) (forSaleHrefs c)
  \/ findPropertyUrl c = attrOfFirst (titleLink c).
Proof.
  unfold findPropertyUrl, titleLink.
  destruct (pick_first (forSaleHrefs c)) as [H0 H1].
  destruct (existsb truthy (forSaleHrefs c)).
  - destruct (H1 eq_refl) as [Ht Hin]. rewrite Ht. simpl. intros _.
    left. exact Hin.
  - rewrite (H0 eq_refl). simpl. intros _. right. reflexivity.
Qed.

Lemma extractContainer_none host sub c :
  hasLink c = false -> extractContainer host sub c = None.
Proof.
  intros H. unfold extractContainer, containerBody.
  destruct (thrown c); [reflexivity|].
  rewrite findPropertyUrl_truthy, H. reflexivity.
Qed.

(** A container whose callback throws gives no record. *)
Lemma extractContainer_thrown host sub c :
  completes c = false -> extractContainer host sub c = None.
Proof.
  unfold completes, extractContainer, containerBody.
  destruct (thrown c); [reflexivity|discriminate].
Qed.

Lemma extractContainer_some host sub c :
  hasLink c = true -> completes c = true ->
  exists p, extractContainer host sub c = Some p
            /\ property_url p = fullUrlOf (orElse (findPropertyUrl c) []).
Proof.
  intros H K. unfold extractContainer, containerBody.
  unfold completes in K. destruct (thrown c); [discriminate|].
  rewrite findPropertyUrl_truthy, H. simpl.
  eexists. split; reflexivity.
Qed.

(** A record comes from a container that has a link and whose callback runs
    to its end. *)
Lemma extractContainer_record host sub c p :
  extractContainer host sub c = Some p ->
  hasLink c = true /\ completes c = true.
Proof.
  intros H. destruct (hasLink c) eqn:E1.
  - destruct (completes c) eqn:E2; [auto|].
    rewrite (extractContainer_thrown host sub c E2) in H. discriminate.
  - rewrite (extractContainer_none host sub c E1) in H. discriminate.
Qed.

(** The status of a record is the classification of the text of the status
    element. *)
Lemma extractContainer_status host sub c p :
  extractContainer host sub c = Some p ->
  status p = classifyStatus (statusElement c).
Proof.
  unfold extractContainer, containerBody.
  destruct (thrown c); [discriminate|].
  destruct (negb (truthy (findPropertyUrl c))); [discriminate|].
  intros H. injection H as <-. reflexivity.
Qed.

(** A text that mentions sold or offer passes the filter of the status
    elements. *)
Lemma isStatusText_keyword text :
  includes (toLowerCase text) (js "sold") = true
  \/ includes (toLowerCase text) (js "offer") = true ->
  isStatusText text = true.
Proof.
  unfold isStatusText. cbv zeta. intros [E|E]; rewrite E.
  - reflexivity.
  - rewrite orb_true_r. reflexivity.
Qed.

Lemma statusElement_head c text rest :
  statusTexts c = text :: rest ->
  isStatusText text = true -> statusElement c = text.
Proof.
  intros Hs Ht. unfold statusElement. rewrite Hs. cbn [filter].
  rewrite Ht. reflexivity.
Qed.


Lemma fullUrlOf_absolute href :
  href <> [] ->
  fullUrlOf href <> [] /\ startsWith (fullUrlOf href) (js "http") = true.
Proof.
  intros Hne. unfold fullUrlOf.
  destruct (startsWith href (js "http")) eqn:E.
  - split; [exact Hne|exact E].
  - split; [discriminate|reflexivity].
Qed.

Lemma fold_push host sub cs acc :
  fold_left
    (fun properties element =>
       match extractContainer host sub element with
       | Some property => properties ++ [property]
       | None => properties
       end) cs acc
  = acc ++ recordsOf host sub cs.
Proof.
  revert acc. induction cs as [|c cs IH]; intros acc; simpl.
  - rewrite app_nil_r. reflexivity.
  - rewrite IH. destruct (extractContainer host sub c); simpl.
    + rewrite <- app_assoc. reflexivity.
    + reflexivity.
Qed.

(** [extractProperties] gives the records of the containers that have a
    link, in the order of the containers. *)
Lemma extractFromMarkup_recordsOf host sub cs :
  extractFromMarkup host sub cs = recordsOf host sub cs.
Proof.
  unfold extractFromMarkup. destruct cs as [|c cs]; [reflexivity|].
  cbn [length Nat.eqb]. apply fold_push.
Qed.

Lemma recordsOf_app host sub cs1 cs2 :
  recordsOf host sub (cs1 ++ cs2)
  = recordsOf host sub cs1 ++ recordsOf host sub cs2.
Proof. unfold recordsOf. apply flat_map_app. Qed.

Lemma recordsOf_length host sub cs :
  length (recordsOf host sub cs)
  = length (filter (fun c => hasLink c && completes c) cs).
Proof.
  induction cs as [|c cs IH]; simpl; [reflexivity|].
  rewrite length_app, IH.
  destruct (hasLink c) eqn:E; destruct (completes c) eqn:K; cbn [andb].
  - destruct (extractContainer_some host sub c E K) as [p [-> _]].
    reflexivity.
  - rewrite (extractContainer_thrown host sub c K). reflexivity.
  - rewrite (extractContainer_none host sub c E). reflexivity.
  - rewrite (extractContainer_none host sub c E). reflexivity.
Qed.

(* ===================================================================== *)
(** ** Facts about the monad *)
(* ===================================================================== *)

Section MonadFacts.

Variable W : Type.
Variable X : Type.
Variable f : State W -> X.

Lemma preserves_ret A (a : A) : preserves f (ret a).
Proof. intros st. reflexivity. Qed.

Lemma preserves_throw A e : preserves f (@throw W A e).
Proof. intros st. reflexivity. Qed.

Lemma preserves_getSelf : preserves f getSelf.
Proof. intros st. reflexivity. Qed.

Lemma preserves_bind A C (m : M W A) (k : A -> M W C) :
  preserves f m -> (forall a, preserves f (k a)) -> preserves f (bind m k).
Proof.
  intros Hm Hk st. unfold bind. specialize (Hm st).
  destruct (m st) as [[a|e] st1]; simpl in *.
  - rewrite Hk. exact Hm.
  - exact Hm.
Qed.

Lemma preserves_tryCatch A (m : M W A) (h : jsstring -> M W A) :
  preserves f m -> (forall e, preserves f (h e)) -> preserves f (tryCatch m h).
Proof.
  intros Hm Hh st. unfold tryCatch. specialize (Hm st).
  destruct (m st) as [[a|e] st1]; simpl in *.
  - exact Hm.
  - rewrite Hh. exact Hm.
Qed.

Lemma preserves_tryFinally A (m : M W A) (fin : M W unit) :
  preserves f m -> preserves f fin -> preserves f (tryFinally m fin).
Proof.
  intros Hm Hfin st. unfold tryFinally. specialize (Hm st).
  destruct (m st) as [r st1]. specialize (Hfin st1).
  destruct (fin st1) as [[u|e] st2]; simpl in *; congruence.
Qed.

End MonadFacts.

(** A [try] whose handler returns does not throw. *)
Lemma tryCatch_returns {W A} (m : M W A) (h : jsstring -> A) st :
  exists a st', tryCatch m (fun e => ret (h e)) st = (Ok a, st').
Proof.
  unfold tryCatch. destruct (m st) as [[a|e] st1].
  - exists a, st1. reflexivity.
  - exists (h e), st1. reflexivity.
Qed.

Lemma extractionCalls_app t1 t2 :
  extractionCalls (t1 ++ t2) = extractionCalls t1 + extractionCalls t2.
Proof. unfold extractionCalls. rewrite filter_app, length_app. reflexivity. Qed.

Lemma perform_extractions {W A} (c : Call) (op : W -> outcome A * W) :
  isContent c = false -> preserves extractions (perform c op).
Proof.
  intros Hc st. unfold perform, extractions.
  destruct (op (world st)) as [r w']. simpl.
  rewrite extractionCalls_app. unfold extractionCalls at 2. simpl.
  rewrite Hc. simpl. lia.
Qed.

Lemma setSelf_extractions {W} s : preserves (@extractions W) (setSelf s).
Proof. intros st. reflexivity. Qed.

Lemma perform_cache {W A} (c : Call) (op : W -> outcome A * W) :
  preserves cacheOf (perform c op).
Proof.
  intros st. unfold perform. destruct (op (world st)) as [r w']. reflexivity.
Qed.

Section Grows.

Variable W : Type.

Lemma grows_ret A (a : A) : grows (@ret W A a).
Proof. intros st. exists []. simpl. rewrite app_nil_r. reflexivity. Qed.

Lemma grows_throw A e : grows (@throw W A e).
Proof. intros st. exists []. simpl. rewrite app_nil_r. reflexivity. Qed.

Lemma grows_getSelf : grows (@getSelf W).
Proof. intros st. exists []. simpl. rewrite app_nil_r. reflexivity. Qed.

Lemma grows_setSelf s : grows (@setSelf W s).
Proof. intros st. exists []. simpl. rewrite app_nil_r. reflexivity. Qed.

Lemma grows_perform A c (op : W -> outcome A * W) : grows (perform c op).
Proof.
  intros st. unfold perform. destruct (op (world st)) as [r w'].
  exists [c]. reflexivity.
Qed.

Lemma grows_bind A C (m : M W A) (k : A -> M W C) :
  grows m -> (forall a, grows (k a)) -> grows (bind m k).
Proof.
  intros Hm Hk st. unfold bind. destruct (Hm st) as [t1 H1].
  destruct (m st) as [[a|e] st1]; simpl in *.
  - destruct (Hk a st1) as [t2 H2]. exists (t1 ++ t2).
    rewrite H2, H1, app_assoc. reflexivity.
  - exists t1. exact H1.
Qed.

Lemma grows_tryCatch A (m : M W A) (h : jsstring -> M W A) :
  grows m -> (forall e, grows (h e)) -> grows (tryCatch m h).
Proof.
  intros Hm Hh st. unfold tryCatch. destruct (Hm st) as [t1 H1].
  destruct (m st) as [[a|e] st1]; simpl in *.
  - exists t1. exact H1.
  - destruct (Hh e st1) as [t2 H2]. exists (t1 ++ t2).
    rewrite H2, H1, app_assoc. reflexivity.
Qed.

End Grows.

(** Lemmas about the methods, for the proofs that a method leaves an
    observation alone. *)
Create HintDb keeps.

Ltac keeps_step :=
  match goal with
  | |- preserves _ _ => assumption
  | |- preserves _ _ => solve [auto 2 with keeps nocore]
  | |- preserves _ (ret _) => apply preserves_ret
  | |- preserves _ (throw _) => apply preserves_throw
  | |- preserves _ getSelf => apply preserves_getSelf
  | |- preserves extractions (setSelf _) => apply setSelf_extractions
  | |- preserves cacheOf (perform _ _) => apply perform_cache
  | |- preserves extractions (perform _ _) =>
      apply perform_extractions; reflexivity
  | |- preserves _ (bind _ _) => apply preserves_bind; [|intros ?]
  | |- preserves _ (tryCatch _ _) => apply preserves_tryCatch; [|intros ?]
  | |- preserves _ (tryFinally _ _) => apply preserves_tryFinally
  | |- preserves _ (if ?b then _ else _) => destruct b
  | |- preserves _ (match ?x with Some _ => _ | None => _ end) => destruct x
  | |- grows _ => assumption
  | |- grows _ => solve [auto 2 with keeps nocore]
  | |- grows (ret _) => apply grows_ret
  | |- grows (throw _) => apply grows_throw
  | |- grows getSelf => apply grows_getSelf
  | |- grows (setSelf _) => apply grows_setSelf
  | |- grows (perform _ _) => apply grows_perform
  | |- grows (bind _ _) => apply grows_bind; [|intros ?]
  | |- grows (tryCatch _ _) => apply grows_tryCatch; [|intros ?]
  | |- grows (if ?b then _ else _) => destruct b
  | |- grows (match ?x with Some _ => _ | None => _ end) => destruct x
  end.

Ltac keeps := repeat keeps_step.

Section MethodFacts.

Variable W : Type.
Variable B : Browser W.
Variable host : jsstring -> Date.

Lemma takeScreenshot_extractions label :
  preserves extractions (takeScreenshot B label).
Proof. unfold takeScreenshot. keeps. Qed.

Lemma takeScreenshot_cache label :
  preserves cacheOf (takeScreenshot B label).
Proof.
  intros st. unfold takeScreenshot, tryCatch, bind, getSelf, setSelf, perform.
  simpl. destruct (screenshot B _ label (world st)) as [[u|e] w']; reflexivity.
Qed.

Lemma takeScreenshot_grows label : grows (takeScreenshot B label).
Proof. unfold takeScreenshot. keeps. Qed.

Hint Resolve takeScreenshot_extractions takeScreenshot_cache
  takeScreenshot_grows : keeps.

Lemma takeScreenshot_returns label st :
  exists st', takeScreenshot B label st = (Ok tt, st').
Proof.
  destruct (tryCatch_returns
              (me <- getSelf ;;
               setSelf (withScreenshotCounter me (screenshotCounter me + 1)) ;;;
               me <- getSelf ;;
               perform (Screenshot (screenshotCounter me) label)
                       (screenshot B (screenshotCounter me) label))
              (fun _ => tt) st) as [[] [st' H]].
  exists st'. exact H.
Qed.

Lemma closeCookieBanner_extractions :
  preserves extractions (closeCookieBanner B).
Proof.
  unfold closeCookieBanner. keeps.
Qed.

Lemma closeCookieBanner_cache : preserves cacheOf (closeCookieBanner B).
Proof.
  unfold closeCookieBanner. keeps.
Qed.

Lemma closeCookieBanner_grows : grows (closeCookieBanner B).
Proof.
  unfold closeCookieBanner. keeps.
Qed.

(** *** The pagination walker *)

Lemma goToNextPageFrom_extractions sels n :
  preserves extractions (goToNextPageFrom B sels n).
Proof.
  induction sels as [|sel rest IH]; cbn [goToNextPageFrom]; keeps.
Qed.

Lemma goToNextPage_extractions n : preserves extractions (goToNextPage B n).
Proof.
  unfold goToNextPage. keeps. apply goToNextPageFrom_extractions.
Qed.

Lemma goToNextPage_returns n st :
  exists found st', goToNextPage B n st = (Ok found, st').
Proof.
  unfold goToNextPage.
  exact (tryCatch_returns (goToNextPageFrom B nextPageSelectors n)
           (fun _ => false) st).
Qed.

(** Once the control is clicked, [goToNextPageFrom] returns true: the waits
    are guarded and the screenshot never throws. *)
Lemma afterClick_returns n st :
  exists st',
    (tryCatch
       (perform (WaitForNavigation 10000) (waitForNavigation B 10000))
       (fun _ =>
          tryCatch
            (perform (WaitForSelector propertyCardSelector 5000)
                     (waitForSelector B propertyCardSelector 5000))
            (fun _ => ret tt)) ;;;
     takeScreenshot B (js "pagination-page-" ++ ofNat (n + 1)) ;;;
     ret true) st = (Ok true, st').
Proof.
  unfold bind at 1. unfold tryCatch at 1. unfold perform at 1.
  destruct (waitForNavigation B 10000 (world st)) as [[[]|e] w1].
  - unfold bind.
    match goal with
    | |- context [takeScreenshot B ?l ?s] =>
        destruct (takeScreenshot_returns l s) as [s' E]; rewrite E
    end.
    exists s'. reflexivity.
  - unfold tryCatch at 1. unfold perform at 1. cbn [world].
    destruct (waitForSelector B propertyCardSelector 5000 w1) as [[[]|e'] w2];
      unfold ret at 1; unfold bind;
      match goal with
      | |- context [takeScreenshot B ?l ?s] =>
          destruct (takeScreenshot_returns l s) as [s' E]; rewrite E
      end;
      exists s'; reflexivity.
Qed.

(** The loop over the selectors, by the answers of the browser. *)
Lemma goToNextPageFrom_control sels n : forall st,
  exists st',
    goToNextPageFrom B sels n st
    = (match nextControl B sels (world st) with
       | ControlWorks => Ok true
       | NoControl => Ok false
       | ControlFails e => Throw e
       end, st').
Proof.
  induction sels as [|sel rest IH]; intros st;
    cbn [nextControl goToNextPageFrom].
  - exists st. reflexivity.
  - unfold bind at 1. unfold perform at 1.
    destruct (query B sel (world st)) as [[[|]|e] w1].
    + unfold bind at 1. unfold perform at 1. cbn [world].
      destruct (handleClick B sel w1) as [[[]|e] w2].
      * apply afterClick_returns.
      * eexists. reflexivity.
    + exact (IH {| self := self st; world := w1;
                   calls := calls st ++ [Query sel] |}).
    + eexists. reflexivity.
Qed.

(** [goToNextPage] returns true exactly when a control is found and the click
    on it succeeds. *)
Lemma goToNextPage_control n st :
  goToNextPage B n st
  = (Ok (advances (nextControl B nextPageSelectors (world st))),
     snd (goToNextPage B n st)).
Proof.
  unfold goToNextPage, tryCatch.
  destruct (goToNextPageFrom_control nextPageSelectors n st) as [st' ->].
  destruct (nextControl B nextPageSelectors (world st)); reflexivity.
Qed.



Lemma extractProperties_run st :
  extractProperties B host st
  = match content B (world st) with
    | (Ok markup, w') =>
        (Ok (extractFromMarkup host (ScraperOptions.suburb (options (self st)))
               markup),
         afterContent st w')
    | (Throw e, w') => (Throw e, afterContent st w')
    end.
Proof.
  unfold extractProperties, bind, perform, getSelf, ret, afterContent.
  destruct (content B (world st)) as [[markup|e] w']; reflexivity.
Qed.

Lemma extractions_afterContent (st : State W) w' :
  extractions (afterContent st w') = S (extractions st).
Proof.
  unfold extractions, afterContent. simpl.
  rewrite extractionCalls_app. unfold extractionCalls at 2. simpl. lia.
Qed.

(** Each call of [extractProperties] is one extraction call, whatever it
    returns. *)
Lemma extractProperties_extractions st :
  extractions (snd (extractProperties B host st)) = S (extractions st).
Proof.
  rewrite extractProperties_run.
  destruct (content B (world st)) as [[markup|e] w']; simpl;
    apply extractions_afterContent.
Qed.

Lemma extractProperties_throws st e st' :
  extractProperties B host st = (Throw e, st') ->
  exists w', content B (world st) = (Throw e, w').
Proof.
  rewrite extractProperties_run.
  destruct (content B (world st)) as [[markup|e0] w']; [discriminate|].
  intros H. injection H as -> _. exists w'. reflexivity.
Qed.

(** The loop, one turn unfolded. *)
Lemma paginationLoop_turn n all :
  n <= maxPages ->
  paginationLoop B host n all
  = (pageProperties <- extractProperties B host ;;
     nextPageFound <- goToNextPage B n ;;
     if negb nextPageFound then ret (all ++ pageProperties)
     else paginationLoop B host (n + 1) (all ++ pageProperties)).
Proof.
  intros H. rewrite paginationLoop_equation_1.
  destruct (le_dec n maxPages) as [L|L]; [reflexivity|contradiction].
Qed.

Lemma paginationLoop_over n all :
  maxPages < n -> paginationLoop B host n all = ret all.
Proof.
  intros H. rewrite paginationLoop_equation_1.
  destruct (le_dec n maxPages) as [L|L]; [lia|reflexivity].
Qed.

(** One turn of the loop, by the outcomes of its two calls. *)
Lemma paginationLoop_cases n all st :
  n <= maxPages ->
  (exists e st1,
      extractProperties B host st = (Throw e, st1)
      /\ paginationLoop B host n all st = (Throw e, st1))
  \/ (exists records st1 st2,
        extractProperties B host st = (Ok records, st1)
        /\ goToNextPage B n st1 = (Ok false, st2)
        /\ paginationLoop B host n all st = (Ok (all ++ records), st2))
  \/ (exists records st1 st2,
        extractProperties B host st = (Ok records, st1)
        /\ goToNextPage B n st1 = (Ok true, st2)
        /\ paginationLoop B host n all st
           = paginationLoop B host (n + 1) (all ++ records) st2).
Proof.
  intros H. rewrite (paginationLoop_turn n all H).
  destruct (extractProperties B host st) as [[records|e] st1] eqn:E.
  - right.
    destruct (goToNextPage_returns n st1) as [found [st2 G]].
    unfold bind. rewrite E. cbn beta iota. rewrite G.
    destruct found; cbn [negb].
    + right. exists records, st1, st2. auto.
    + left. exists records, st1, st2. auto.
  - left. exists e, st1. unfold bind. rewrite E. auto.
Qed.

Lemma pagesLeft_next n : n <= maxPages -> pagesLeft n = S (pagesLeft (n + 1)).
Proof. unfold pagesLeft, maxPages. lia. Qed.



(** The loop along a walk. *)
Lemma paginationLoop_walk n st pages st' :
  Walk B host n st pages st' ->
  forall all,
    n + length pages <= maxPages + 1 ->
    paginationLoop B host n all st = (Ok (all ++ concat pages), st')
    /\ extractions st' = extractions st + length pages.
Proof.
  induction 1 as [n st rs st1 E C | n st rs st1 pages st3 E C Hw IH];
    intros all Hlen; simpl in Hlen;
    pose proof (extractProperties_extractions st) as X;
    rewrite E in X; simpl in X;
    pose proof (goToNextPage_extractions n st1) as Y;
    pose proof (goToNextPage_control n st1) as G;
    (assert (L : n <= maxPages) by (unfold maxPages in *; lia));
    rewrite (paginationLoop_turn n all L); unfold bind; rewrite E; cbn beta iota;
    rewrite G; cbn beta iota; cbn [snd length]; cbn [snd] in Y.
  - destruct (nextControl B nextPageSelectors (world st1));
      [contradiction| |]; cbn [advances negb];
      cbn [concat]; rewrite app_nil_r; (split; [reflexivity|]); lia.
  - rewrite C. cbn [advances negb].
    destruct (IH (all ++ rs)) as [P Q]; [unfold maxPages in *; lia|].
    rewrite P. cbn [concat]. rewrite <- app_assoc. split; [reflexivity|].
    lia.
Qed.


(** The loop throws only what reading the content of a page throws. *)
Lemma paginationLoop_throws k : forall n all st e st',
  pagesLeft n <= k ->
  paginationLoop B host n all st = (Throw e, st') ->
  exists w w', content B w = (Throw e, w').
Proof.
  induction k as [|k IH]; intros n all st e st' Hk.
  - rewrite paginationLoop_over by (unfold pagesLeft, maxPages in *; lia).
    discriminate.
  - destruct (le_dec n maxPages) as [L|L].
    + pose proof (pagesLeft_next n L) as Hn.
      destruct (paginationLoop_cases n all st L)
        as [[e1 [st1 [E R]]] | [[rs [st1 [st2 [E [G R]]]]] | [rs [st1 [st2 [E [G R]]]]]]];
        rewrite R.
      * intros H. injection H as -> _.
        destruct (extractProperties_throws _ _ _ E) as [w' Hw].
        exists (world st), w'. exact Hw.
      * discriminate.
      * apply IH. lia.
    + rewrite paginationLoop_over by lia. discriminate.
Qed.

(** The loop never takes an extraction call back. *)
Lemma paginationLoop_grows k : forall n all st,
  pagesLeft n <= k ->
  extractions st <= extractions (snd (paginationLoop B host n all st)).
Proof.
  induction k as [|k IH]; intros n all st Hk.
  - rewrite paginationLoop_over by (unfold pagesLeft, maxPages in *; lia).
    simpl. lia.
  - destruct (le_dec n maxPages) as [L|L].
    + pose proof (pagesLeft_next n L) as Hn.
      pose proof (extractProperties_extractions st) as X.
      destruct (paginationLoop_cases n all st L)
        as [[e1 [st1 [E R]]] | [[rs [st1 [st2 [E [G R]]]]] | [rs [st1 [st2 [E [G R]]]]]]];
        rewrite R; rewrite E in X; simpl in X;
        try (pose proof (goToNextPage_extractions n st1) as Y;
             rewrite G in Y; simpl in Y).
      * simpl. lia.
      * simpl. lia.
      * specialize (IH (n + 1) (all ++ rs) st2). lia.
    + rewrite paginationLoop_over by lia. simpl. lia.
Qed.

(** The walker makes at least one extraction call. *)
Lemma pagination_extracts st :
  extractions st
  < extractions (snd (extractPropertiesWithPagination B host st)).
Proof.
  unfold extractPropertiesWithPagination.
  assert (L : 1 <= maxPages) by (unfold maxPages; lia).
  pose proof (extractProperties_extractions st) as X.
  destruct (paginationLoop_cases 1 [] st L)
    as [[e1 [st1 [E R]]] | [[rs [st1 [st2 [E [G R]]]]] | [rs [st1 [st2 [E [G R]]]]]]];
    rewrite R; rewrite E in X; simpl in X;
    try (pose proof (goToNextPage_extractions 1 st1) as Y;
         rewrite G in Y; simpl in Y).
  - simpl. lia.
  - simpl. lia.
  - pose proof (paginationLoop_grows (pagesLeft 2) (1 + 1) ([] ++ rs) st2
                  (le_n _)).
    lia.
Qed.

(** *** The location resolver *)

Lemma searchWith_extractions suburb sel :
  preserves extractions (searchWith B suburb sel).
Proof. unfold searchWith. keeps. Qed.

Lemma searchWith_cache suburb sel :
  preserves cacheOf (searchWith B suburb sel).
Proof. unfold searchWith. keeps. Qed.

Lemma searchWith_grows suburb sel : grows (searchWith B suburb sel).
Proof. unfold searchWith. keeps. Qed.

Hint Resolve searchWith_extractions searchWith_cache searchWith_grows : keeps.

Lemma searchFrom_extractions suburb sels :
  preserves extractions (searchFrom B suburb sels).
Proof. induction sels as [|sel rest IH]; cbn [searchFrom]; keeps. Qed.

Lemma searchFrom_cache suburb sels :
  preserves cacheOf (searchFrom B suburb sels).
Proof. induction sels as [|sel rest IH]; cbn [searchFrom]; keeps. Qed.

Lemma searchFrom_grows suburb sels : grows (searchFrom B suburb sels).
Proof. induction sels as [|sel rest IH]; cbn [searchFrom]; keeps. Qed.

Hint Resolve searchFrom_extractions searchFrom_cache searchFrom_grows
  closeCookieBanner_extractions closeCookieBanner_cache
  closeCookieBanner_grows : keeps.

Lemma findListingUrlForSuburb_extractions suburb :
  preserves extractions (findListingUrlForSuburb B suburb).
Proof. unfold findListingUrlForSuburb. keeps. Qed.

(** No path through [findListingUrlForSuburb] writes the cache field. *)
Lemma findListingUrlForSuburb_cache suburb :
  preserves cacheOf (findListingUrlForSuburb B suburb).
Proof. unfold findListingUrlForSuburb. keeps. Qed.

(** With a filled cache the method returns it and calls nothing. *)
Lemma findListingUrlForSuburb_cached suburb st :
  truthy (cacheOf st) = true ->
  findListingUrlForSuburb B suburb st = (Ok (orElse (cacheOf st) []), st).
Proof.
  intros H. unfold findListingUrlForSuburb, bind, getSelf.
  unfold cacheOf in H. rewrite H. reflexivity.
Qed.

(** With an empty cache the method starts over from the homepage. *)
Lemma findListingUrlForSuburb_starts_over suburb st :
  truthy (cacheOf st) = false ->
  exists rest,
    calls (snd (findListingUrlForSuburb B suburb st))
    = calls st ++ Goto BASE_URL 15000 :: rest.
Proof.
  intros H. unfold findListingUrlForSuburb.
  unfold bind at 1. unfold getSelf at 1. unfold cacheOf in H. rewrite H.
  unfold bind at 1. unfold tryCatch at 1. unfold bind at 1.
  unfold perform at 1.
  destruct (goto B BASE_URL 15000 (world st)) as [[[]|e] w'].
  - set (s1 := {| self := self st; world := w';
                  calls := calls st ++ [Goto BASE_URL 15000] |}).
    destruct (takeScreenshot_returns (js "homepage-loaded") s1) as [s2 E2].
    destruct (takeScreenshot_grows (js "homepage-loaded") s1) as [t2 G2].
    rewrite E2 in *. simpl in G2.
    assert (G3 : grows (closeCookieBanner B ;;;
                        searchFrom B suburb searchInputSelectors)) by keeps.
    destruct (G3 s2) as [t3 H3]. rewrite H3, G2. unfold s1. simpl.
    exists (t2 ++ t3). rewrite <- !app_assoc. reflexivity.
  - simpl. exists []. reflexivity.
Qed.

(** A homepage that does not load is reported as such. *)
Lemma findListingUrlForSuburb_homepage_failure suburb st e w' :
  truthy (cacheOf st) = false ->
  goto B BASE_URL 15000 (world st) = (Throw e, w') ->
  fst (findListingUrlForSuburb B suburb st)
  = Throw (js "Failed to load Property24 homepage").
Proof.
  intros H Hg. unfold findListingUrlForSuburb.
  unfold bind at 1. unfold getSelf at 1. unfold cacheOf in H. rewrite H.
  unfold bind at 1. unfold tryCatch at 1. unfold bind at 1.
  unfold perform at 1. rewrite Hg. reflexivity.
Qed.

(** When no search input is found the location is not resolved. *)
Lemma searchFrom_exhausted suburb sels :
  (forall sel w, In sel sels -> exists w', query B sel w = (Ok false, w')) ->
  forall st,
    fst (searchFrom B suburb sels st)
    = Throw (js "Could not resolve listing URL for suburb: " ++ suburb).
Proof.
  induction sels as [|sel rest IH]; intros Hq st; cbn [searchFrom].
  - reflexivity.
  - unfold bind, perform.
    destruct (Hq sel (world st) (or_introl eq_refl)) as [w' E]. rewrite E.
    cbn [negb]. apply IH. intros s w Hs. apply Hq. right. exact Hs.
Qed.

(** *** The run *)

Lemma preserves_run {X} {f : State W -> X} {A} {m : M W A} {st r st'} :
  preserves f m -> m st = (r, st') -> f st' = f st.
Proof. intros H E. specialize (H st). rewrite E in H. exact H. Qed.

Lemma loadListing_extractions me searchUrl :
  preserves extractions (loadListing B me searchUrl).
Proof. unfold loadListing. keeps. Qed.

(** The inner block either fails while the listing page is opened, before any
    extraction call, or enters the pagination stage; from there it returns a
    successful result unless reading the content of a page throws. *)
Lemma scrapeListing_cases me errs searchUrl st r st' :
  scrapeListing B host me errs searchUrl st = (r, st') ->
  (exists e, r = Throw e /\ extractions st' = extractions st)
  \/ (extractions st < extractions st'
      /\ ((exists ps res,
              r = Ok res /\ success res = true
              /\ propertiesScraped res = length ps
              /\ properties res = Some ps /\ errors res = errs)
          \/ (exists e w w', r = Throw e /\ content B w = (Throw e, w')))).
Proof.
  unfold scrapeListing, bind.
  destruct (loadListing B me searchUrl st) as [[[]|e] s1] eqn:EL;
    pose proof (preserves_run (loadListing_extractions me searchUrl) EL) as X1.
  - pose proof (pagination_extracts s1) as X2.
    destruct (extractPropertiesWithPagination B host s1) as [[ps|e] s2] eqn:EP;
      simpl in X2.
    + destruct (takeScreenshot_returns (js "properties-extracted") s2)
        as [s3 ES].
      pose proof (preserves_run
                    (takeScreenshot_extractions (js "properties-extracted"))
                    ES) as X3.
      rewrite ES. unfold ret. intros H. injection H as <- <-.
      right. split; [lia|]. left. eexists ps, _.
      split; [reflexivity|]. simpl. auto.
    + intros H. injection H as <- <-.
      right. split; [lia|]. right.
      unfold extractPropertiesWithPagination in EP.
      destruct (paginationLoop_throws (pagesLeft 1) 1 [] s1 e s2 (le_n _) EP)
        as [w [w' Hw]].
      exists e, w, w'. auto.
  - intros H. injection H as <- <-. left. exists e. auto.
Qed.

Lemma scrapeBody_cases errs st r st' :
  scrapeBody B host errs st = (r, st') ->
  (exists e, r = Throw e /\ extractions st' = extractions st)
  \/ (extractions st < extractions st'
      /\ ((exists ps res,
              r = Ok res /\ success res = true
              /\ propertiesScraped res = length ps
              /\ properties res = Some ps /\ errors res = errs)
          \/ (exists e, r = Throw e
                /\ ((exists w w', content B w = (Throw e, w'))
                    \/ (exists w w', pageClose B w = (Throw e, w')))))).
Proof.
  unfold scrapeBody. unfold bind at 1. unfold getSelf at 1.
  unfold bind at 1.
  destruct (negb (browser (self st))).
  { unfold throw. intros H. injection H as <- <-. left. eexists. auto. }
  unfold ret at 1. unfold bind at 1.
  destruct (perform NewPage (newPage B) st) as [[[]|e] s1] eqn:EN;
    pose proof (preserves_run
                  (perform_extractions NewPage (newPage B) eq_refl) EN) as X1.
  2:{ intros H. injection H as <- <-. left. exists e. auto. }
  unfold bind.
  destruct (findListingUrlForSuburb B (ScraperOptions.suburb (options (self st))) s1)
    as [[searchUrl|e] s2] eqn:EF;
    pose proof (preserves_run (findListingUrlForSuburb_extractions _) EF) as X2.
  2:{ intros H. injection H as <- <-. left. exists e. split; [auto|lia]. }
  unfold tryFinally.
  destruct (scrapeListing B host (self st) errs searchUrl s2) as [rl s3] eqn:EL.
  destruct (perform PageClose (pageClose B) s3) as [[[]|e] s4] eqn:EC;
    pose proof (preserves_run
                  (perform_extractions PageClose (pageClose B) eq_refl) EC) as X4;
    intros H; injection H as <- <-;
    destruct (scrapeListing_cases _ _ _ _ _ _ EL)
      as [[e1 [-> X3]] | [X3 [[ps [res [-> S]]] | [e1 [w [w' [-> Hw]]]]]]].
  - left. exists e1. split; [auto|lia].
  - right. split; [lia|]. left. exists ps, res. auto.
  - right. split; [lia|]. right. exists e1. split; [auto|].
    left. exists w, w'. exact Hw.
  - left. exists e. split; [auto|lia].
  - right. split; [lia|]. right. exists e. split; [auto|]. right.
    unfold perform in EC.
    destruct (pageClose B (world s3)) as [rc wc] eqn:EW.
    injection EC as -> _. exists (world s3), wc. exact EW.
  - right. split; [lia|]. right. exists e. split; [auto|]. right.
    unfold perform in EC.
    destruct (pageClose B (world s3)) as [rc wc] eqn:EW.
    injection EC as -> _. exists (world s3), wc. exact EW.
Qed.

(** A result the body returns is the success made of the records of the walk
    the run entered. *)
Lemma scrapeBody_success errs st res st' :
  scrapeBody B host errs st = (Ok res, st') ->
  exists s ps s',
    entersWalk B st s
    /\ extractPropertiesWithPagination B host s = (Ok ps, s')
    /\ success res = true /\ propertiesScraped res = length ps
    /\ properties res = Some ps /\ errors res = errs.
Proof.
  unfold scrapeBody. unfold bind at 1. unfold getSelf at 1.
  unfold bind at 1.
  destruct (browser (self st)) eqn:Hb; cbn [negb];
    [|unfold throw; discriminate].
  unfold ret at 1. unfold bind at 1.
  destruct (perform NewPage (newPage B) st) as [[[]|e] s1] eqn:EN;
    [|discriminate].
  unfold bind.
  destruct (findListingUrlForSuburb B
              (ScraperOptions.suburb (options (self st))) s1)
    as [[searchUrl|e] s2] eqn:EF; [|discriminate].
  unfold tryFinally.
  destruct (scrapeListing B host (self st) errs searchUrl s2)
    as [rl s3] eqn:EL.
  destruct (perform PageClose (pageClose B) s3) as [[[]|e] s4];
    [|discriminate].
  intros H. injection H as -> _.
  unfold scrapeListing, bind in EL.
  destruct (loadListing B (self st) searchUrl s2) as [[[]|e] s5] eqn:ELd;
    [|discriminate].
  destruct (extractPropertiesWithPagination B host s5) as [[ps|e] s6] eqn:EP;
    [|discriminate].
  destruct (takeScreenshot_returns (js "properties-extracted") s6)
    as [s7 ES].
  rewrite ES in EL. unfold ret in EL. injection EL as <- _.
  exists s5, ps, s6. split.
  - split; [exact Hb|]. exists s1, searchUrl, s2. auto.
  - split; [exact EP|]. cbn. auto.
Qed.

End MethodFacts.

(** *** The site of result pages *)

Lemma skipn_nth {A} (l : list A) (d : A) i :
  i < length l -> skipn i l = nth i l d :: skipn (S i) l.
Proof.
  revert i. induction l as [|x l IH]; intros i H; simpl in H; [lia|].
  destruct i as [|i]; [reflexivity|].
  simpl. apply IH. lia.
Qed.

Lemma site_extractProperties pages landing host (st : State nat) :
  extractProperties (siteBrowser pages landing) host st
  = (Ok (extractFromMarkup host (ScraperOptions.suburb (options (self st)))
           (nth (world st) pages [])),
     afterContent st (world st)).
Proof. rewrite extractProperties_run. reflexivity. Qed.

Lemma site_goToNextPage pages landing n (st : State nat) :
  exists st',
    goToNextPage (siteBrowser pages landing) n st
    = (Ok (world st + 1 <? length pages), st')
    /\ world st'
       = (if world st + 1 <? length pages then world st + 1 else world st)
    /\ options (self st') = options (self st).
Proof.
  unfold goToNextPage, tryCatch, nextPageSelectors.
  cbn [goToNextPageFrom]. unfold bind at 1. unfold perform at 1.
  cbn [query siteBrowser scriptedBrowser].
  replace (JS.eqb (js "a[rel=" ++ quoted (js "next") ++ js "]")
             firstNextSelector) with true by reflexivity.
  destruct (world st + 1 <? length pages) eqn:E.
  - vm_compute. eexists. split; [reflexivity|]. split; reflexivity.
  - vm_compute. eexists. split; [reflexivity|]. split; reflexivity.
Qed.

Lemma site_nextControl pages landing (w : nat) :
  nextControl (siteBrowser pages landing) nextPageSelectors w
  = if w + 1 <? length pages then ControlWorks else NoControl.
Proof.
  unfold nextPageSelectors. cbn [nextControl].
  cbn [query handleClick siteBrowser scriptedBrowser].
  replace (JS.eqb (js "a[rel=" ++ quoted (js "next") ++ js "]")
             firstNextSelector) with true by reflexivity.
  destruct (w + 1 <? length pages); reflexivity.
Qed.

(** From any of its pages, the site shows the rest of them as a walk. *)
Lemma site_walk pages landing host :
  forall k n (st : State nat),
    length pages - world st = S k ->
    exists st',
      Walk (siteBrowser pages landing) host n st
        (map (extractFromMarkup host (ScraperOptions.suburb (options (self st))))
             (skipn (world st) pages))
        st'.
Proof.
  induction k as [|k IH]; intros n st Hk;
    rewrite (skipn_nth pages [] (world st)) by lia; cbn [map];
    pose proof (site_extractProperties pages landing host st) as E;
    destruct (site_goToNextPage pages landing n (afterContent st (world st)))
      as [st2 [G [Hw Ho]]];
    cbn [afterContent world self] in G, Hw, Ho;
    pose proof (site_nextControl pages landing (world st)) as C.
  - assert (F : (world st + 1 <? length pages) = false)
      by (apply Nat.ltb_ge; lia).
    rewrite F in G, C.
    rewrite skipn_all2 by lia. cbn [map].
    exists st2.
    replace st2
      with (snd (goToNextPage (siteBrowser pages landing) n
                   (afterContent st (world st))))
      by (cbn [afterContent world self]; rewrite G; reflexivity).
    apply Walk_last; [exact E|]. cbn [afterContent world]. rewrite C.
    discriminate.
  - assert (T : (world st + 1 <? length pages) = true)
      by (apply Nat.ltb_lt; lia).
    rewrite T in G, Hw, C.
    destruct (IH (n + 1) st2) as [st3 H3]; [lia|].
    rewrite Hw, Ho in H3. replace (world st + 1) with (S (world st)) in H3 by lia.
    exists st3.
    apply Walk_next with (st1 := afterContent st (world st));
      [exact E|cbn [afterContent world]; exact C|].
    cbn [afterContent world self]. rewrite G. exact H3.
Qed.

(* ===================================================================== *)
(** ** Field parsers: addresses *)
(* ===================================================================== *)


(** C10: every field [parseAddress] returns is absent or a non-empty string
    without white space at either end, the trimmed segment of its position;
    a segment that is empty or all white space gives an absent field. *)
Theorem C10_parseAddress_fields_trimmed_or_absent :
  forall (text : jsstring) (i : nat),
    match fieldAt (parseAddress text) i with
    | None => True
    | Some s =>
        s <> [] /\ isTrimmed s = true
        /\ exists seg, nth_error (split cComma text) i = Some seg /\ s = trim seg
    end
    /\ forall seg, nth_error (split cComma text) i = Some seg ->
                   forallb isWhiteSpace seg = true ->
                   fieldAt (parseAddress text) i = None.
Proof.
  intros text i.
  destruct (Nat.lt_ge_cases i 5) as [H|H].
  - rewrite fieldAt_parseAddress by exact H.
    rewrite nth_error_map. split.
    + destruct (orUndefined (option_map trim (nth_error (split cComma text) i)))
        as [s|] eqn:E; [|exact I].
      apply orUndefined_some in E as [E Hs].
      destruct (nth_error (split cComma text) i) as [seg|]; [|discriminate].
      simpl in E. injection E as <-.
      split; [exact Hs|]. split; [apply trim_isTrimmed|].
      exists seg. split; reflexivity.
    + intros seg -> Hblank. simpl. rewrite (trim_blank _ Hblank). reflexivity.
  - rewrite (fieldAt_beyond _ _ H). split; [exact I|reflexivity].
Qed.

Lemma C10_parseAddress_fields_witness :
  fieldAt (parseAddress (js "1 Elm Rd,  , Rosebank")) 1 = None.
Proof.
  apply (proj2 (C10_parseAddress_fields_trimmed_or_absent
                  (js "1 Elm Rd,  , Rosebank") 1) (js "  "));
    reflexivity.
Defined.

(** The whole text being empty gives five absent fields. *)
Lemma parseAddress_empty :
  parseAddress [] = {| Address.street := None; Address.estate := None;
                       Address.suburb := None; Address.city := None;
                       Address.postalCode := None |}.
Proof. reflexivity. Qed.

(* ===================================================================== *)
(** ** Field parsers: status *)
(* ===================================================================== *)

Lemma classifyStatus_cases text :
  classifyStatus text = Some sold \/ classifyStatus text = Some under_offer
  \/ classifyStatus text = None.
Proof.
  unfold classifyStatus.
  destruct (includes (toLowerCase text) (js "sold")); [auto|].
  destruct (includes (toLowerCase text) (js "offer")); auto.
Qed.

(** C6: the status of a record is read from its status element, the first
    element that mentions sold, offer or listed in any case.  A text that
    contains "sold" in any case gives the status sold, also when it contains
    "offer"; a text that contains "offer" and not "sold" gives under_offer; a
    text with neither, or no such element at all, leaves the status absent.
    A first status text that contains "sold" or "offer" is the text read.
    No record has the status no_offer. *)
Theorem C6_status_classification :
  forall (hostDateParse : jsstring -> Date) (optionsSuburb : jsstring)
         (c : Container) (p : Property),
    extractContainer hostDateParse optionsSuburb c = Some p ->
    (includes (toLowerCase (statusElement c)) (js "sold") = true ->
     status p = Some sold)
    /\ (includes (toLowerCase (statusElement c)) (js "sold") = false ->
        includes (toLowerCase (statusElement c)) (js "offer") = true ->
        status p = Some under_offer)
    /\ (includes (toLowerCase (statusElement c)) (js "sold") = false ->
        includes (toLowerCase (statusElement c)) (js "offer") = false ->
        status p = None)
    /\ (forall text rest,
          statusTexts c = text :: rest ->
          (includes (toLowerCase text) (js "sold") = true ->
           status p = Some sold)
          /\ (includes (toLowerCase text) (js "sold") = false ->
              includes (toLowerCase text) (js "offer") = true ->
              status p = Some under_offer))
    /\ status p <> Some no_offer.
Proof.
  intros host sub c p H.
  rewrite (extractContainer_status host sub c p H).
  unfold classifyStatus.
  split; [intros ->; reflexivity|].
  split; [intros -> ->; reflexivity|].
  split; [intros -> ->; reflexivity|].
  split.
  - intros text rest Hs. split.
    + intros E.
      rewrite (statusElement_head c text rest Hs
                 (isStatusText_keyword text (or_introl E))), E.
      reflexivity.
    + intros E1 E2.
      rewrite (statusElement_head c text rest Hs
                 (isStatusText_keyword text (or_intror E2))), E1, E2.
      reflexivity.
  - destruct (includes (toLowerCase (statusElement c)) (js "sold"));
      [discriminate|].
    destruct (includes (toLowerCase (statusElement c)) (js "offer"));
      discriminate.
Qed.

Lemma C6_status_classification_witness :
  (exists p,
      extractContainer strictHost (js "Sandton")
        (statusContainer [js "For sale"; js "SOLD - offer accepted"]) = Some p
      /\ status p = Some sold)
  /\ (exists p,
        extractContainer strictHost (js "Sandton")
          (statusContainer [js "Under Offer"; js "Sold"]) = Some p
        /\ status p = Some under_offer)
  /\ (exists p,
        extractContainer strictHost (js "Sandton")
          (statusContainer [js "New listing"]) = Some p
        /\ status p = None).
Proof.
  split; [|split].
  - eexists. split; [vm_compute; reflexivity|].
    refine (proj1 (C6_status_classification strictHost (js "Sandton")
                     (statusContainer [js "For sale"; js "SOLD - offer accepted"])
                     _ _) _).
    + vm_compute. reflexivity.
    + reflexivity.
  - eexists. split; [vm_compute; reflexivity|].
    refine (proj2 (proj1 (proj2 (proj2 (proj2
              (C6_status_classification strictHost (js "Sandton")
                 (statusContainer [js "Under Offer"; js "Sold"]) _ _))))
              (js "Under Offer") [js "Sold"] eq_refl) _ _).
    + vm_compute. reflexivity.
    + reflexivity.
    + reflexivity.
  - eexists. split; [vm_compute; reflexivity|].
    refine (proj1 (proj2 (proj2
              (C6_status_classification strictHost (js "Sandton")
                 (statusContainer [js "New listing"]) _ _))) _ _).
    + vm_compute. reflexivity.
    + reflexivity.
    + reflexivity.
Defined.

(* ===================================================================== *)
(** ** Field parsers: prices and dates *)
(* ===================================================================== *)




(** A match without a digit is read as [NaN], not as an absent price. *)
Lemma parsePrice_nan :
  parsePrice (js "R , per m" ++ [cSup2])
  = {| totalPrice := Some NaN; pricePerSqm := Some NaN |}.
Proof. reflexivity. Qed.

(** C8: [parseDate] on the text "31/13/2024".  The text has no date-time
    separator, the day/month/year pattern matches it, and the date built from
    "2024-13-31" is returned as it is: an Invalid Date, not an absent value,
    whatever the host's date parser does elsewhere. *)
Theorem C8_parseDate_returns_invalid_date :
  forall hostDateParse : jsstring -> Date,
    parseDate hostDateParse (Some (js "31/13/2024")) = Some InvalidDate.
Proof. intros hostDateParse. reflexivity. Qed.

(** The same for a date written month first. *)
Lemma parseDate_month_first :
  forall hostDateParse : jsstring -> Date,
    parseDate hostDateParse (Some (js "12/31/2024")) = Some InvalidDate.
Proof. intros hostDateParse. reflexivity. Qed.

(* ===================================================================== *)
(** ** Record extractor *)
(* ===================================================================== *)

(** The URL of a record made from a relative link is absolute. *)
Lemma fullUrlOf_relative href :
  startsWith href (js "http") = false ->
  fullUrlOf href = BASE_URL ++ href /\ isAbsoluteUrl (fullUrlOf href) = true.
Proof.
  intros H. unfold fullUrlOf. rewrite H. split; reflexivity.
Qed.

(** C5: when the content of the page can be read, [extractProperties] returns
    the records of the containers of the page, each container giving one
    record or none by itself, in the order of the containers.  A container
    without a resolvable listing link gives none, and the records of the other
    containers are what they are without it; the records are as many as the
    containers that have a link and on which the callback does not throw.
    The [property_url] of every record is non-empty and starts with "http":
    it is the [href] of a link of one of the containers, kept as it is when it
    starts with "http", and prefixed with the base URL of the site, which
    makes it absolute, when it does not. *)
Theorem C5_listing_url :
  forall (W : Type) (B : Browser W) (hostDateParse : jsstring -> Date)
         (st : State W) (markup : Markup) (w' : W),
    content B (world st) = (Ok markup, w') ->
    exists ps,
      extractProperties B hostDateParse st = (Ok ps, afterContent st w')
      /\ ps = recordsOf hostDateParse
                (ScraperOptions.suburb (options (self st))) markup
      /\ (forall pre c post,
            markup = pre ++ c :: post ->
            hasLink c = false ->
            ps = recordsOf hostDateParse
                   (ScraperOptions.suburb (options (self st))) pre
                 ++ recordsOf hostDateParse
                      (ScraperOptions.suburb (options (self st))) post)
      /\ length ps
         = length (filter (fun c => hasLink c && completes c) markup)
      /\ (forall p,
            In p ps ->
            property_url p <> []
            /\ startsWith (property_url p) (js "http") = true
            /\ exists c href,
                 In c markup /\ href <> []
                 /\ (In (Some href) (forSaleHrefs c)
                     \/ attrOfFirst (titleLink c) = Some href)
                 /\ property_url p
                    = (if startsWith href (js "http") then href
                       else BASE_URL ++ href)
                 /\ (startsWith href (js "http") = false ->
                     isAbsoluteUrl (property_url p) = true)).
Proof.
  intros W B host st markup w' Hc.
  set (sub := ScraperOptions.suburb (options (self st))).
  exists (recordsOf host sub markup).
  split.
  { rewrite extractProperties_run, Hc, extractFromMarkup_recordsOf.
    reflexivity. }
  split; [reflexivity|]. split; [|split].
  - intros pre c post -> H. rewrite recordsOf_app. f_equal.
    unfold recordsOf at 1. cbn [flat_map].
    rewrite (extractContainer_none host sub c H). reflexivity.
  - apply recordsOf_length.
  - intros p. unfold recordsOf. rewrite in_flat_map. intros [c [Hin Hp]].
    destruct (extractContainer host sub c) as [q|] eqn:Hq; [|destruct Hp].
    destruct Hp as [<-|[]].
    destruct (extractContainer_record host sub c q Hq) as [E K].
    destruct (extractContainer_some host sub c E K) as [q' [Hq' Hurl]].
    rewrite Hq in Hq'. injection Hq' as <-.
    rewrite <- findPropertyUrl_truthy in E.
    destruct (truthy_some _ E) as [href [Hhref Hne]].
    assert (Ho : orElse (Some href) [] = href).
    { destruct href; [contradiction|reflexivity]. }
    rewrite Hurl, Hhref, Ho.
    destruct (fullUrlOf_absolute href Hne) as [H1 H2].
    split; [exact H1|]. split; [exact H2|].
    exists c, href. split; [exact Hin|]. split; [exact Hne|].
    split; [|split; [reflexivity|]].
    + destruct (findPropertyUrl_source c E) as [S|S].
      * left. rewrite Hhref in S. exact S.
      * right. rewrite <- S. exact Hhref.
    + intros Hrel. exact (proj2 (fullUrlOf_relative href Hrel)).
Qed.

Lemma C5_listing_url_witness :
  exists p1 p2,
    extractProperties (siteBrowser [mixedPage] landingUrl) strictHost
      (launched (siteBrowser [mixedPage] landingUrl) 0)
    = (Ok [p1; p2],
       afterContent (launched (siteBrowser [mixedPage] landingUrl) 0) 0)
    /\ property_url p1 = js "https://www.property24.com/for-sale/sandton/1"
    /\ property_url p2 = js "http://example.org/for-sale/2"
    /\ length (filter (fun c => hasLink c && completes c) mixedPage) = 2.
Proof.
  destruct (C5_listing_url nat (siteBrowser [mixedPage] landingUrl) strictHost
              (launched (siteBrowser [mixedPage] landingUrl) 0) mixedPage 0
              eq_refl) as [ps [E [R [_ [L _]]]]].
  vm_compute in R. subst ps.
  eexists. eexists. split; [exact E|].
  split; [reflexivity|]. split; [reflexivity|]. symmetry. exact L.
Defined.

(** An [href] that starts with "http" is kept whatever comes after: the
    [property_url] of the record is then not an absolute URL. *)
Lemma C5_counterexample_not_absolute :
  exists p st',
    extractProperties (siteBrowser [oddLinkPage] landingUrl) strictHost
      (launched (siteBrowser [oddLinkPage] landingUrl) 0) = (Ok [p], st')
    /\ property_url p = js "httpfoo/for-sale/9"
    /\ isAbsoluteUrl (property_url p) = false.
Proof.
  eexists. eexists. split; [vm_compute; reflexivity|].
  split; reflexivity.
Qed.

(* ===================================================================== *)
(** ** Pagination walker *)
(* ===================================================================== *)







(** On a site of N result pages, N from 1 to the cap, the walker returns the
    records of all the pages in order after N extraction calls, whatever the
    markup of the pages is. *)
Lemma site_pagination :
  forall (pages : list Markup) (landing : jsstring) (host : jsstring -> Date)
         (st : State nat),
    world st = 0 ->
    1 <= length pages <= maxPages ->
    exists st',
      extractPropertiesWithPagination (siteBrowser pages landing) host st
      = (Ok (concat
               (map (extractFromMarkup host
                       (ScraperOptions.suburb (options (self st)))) pages)),
         st')
      /\ extractions st' = extractions st + length pages.
Proof.
  intros pages landing host st Hw [H1 H2].
  destruct (site_walk pages landing host (length pages - 1) 1 st) as [st' Hwalk];
    [lia|].
  rewrite Hw in Hwalk. cbn [skipn] in Hwalk.
  exists st'.
  unfold extractPropertiesWithPagination.
  destruct (paginationLoop_walk nat (siteBrowser pages landing) host 1 st _ st'
              Hwalk []) as [P Q].
  - rewrite length_map. lia.
  - rewrite length_map in Q. split; [exact P|exact Q].
Qed.

(* ===================================================================== *)
(** ** The run *)
(* ===================================================================== *)

(** A scraper whose browser was never launched reports it and calls
    nothing. *)
Lemma scrapeSuburb_not_initialized :
  forall (W : Type) (B : Browser W) (host : jsstring -> Date) (st : State W),
    browser (self st) = false ->
    exists r,
      scrapeSuburb B host st = (Ok r, st)
      /\ isFailure r /\ errors r = [js "Browser not initialized"].
Proof.
  intros W B host st H.
  unfold scrapeSuburb, tryCatch, scrapeBody, bind, getSelf. rewrite H. simpl.
  eexists. split; [reflexivity|]. split; [|reflexivity].
  repeat split. eexists. reflexivity.
Qed.

(** A failure to resolve the location, from the homepage on, is the one error
    of the failure result. *)
Lemma scrapeSuburb_unresolved :
  forall (W : Type) (B : Browser W) (host : jsstring -> Date)
         (st s1 s2 : State W) (e : jsstring),
    browser (self st) = true ->
    perform NewPage (newPage B) st = (Ok tt, s1) ->
    findListingUrlForSuburb B (ScraperOptions.suburb (options (self st))) s1
    = (Throw e, s2) ->
    exists r,
      scrapeSuburb B host st = (Ok r, s2) /\ isFailure r /\ errors r = [e].
Proof.
  intros W B host st s1 s2 e Hb Hn Hf.
  unfold scrapeSuburb, tryCatch, scrapeBody.
  unfold bind at 1. unfold getSelf at 1. rewrite Hb. cbn [negb].
  unfold bind at 1. unfold ret at 1. unfold bind at 1. rewrite Hn.
  unfold bind at 1. rewrite Hf.
  eexists. split; [reflexivity|]. split; [|reflexivity].
  repeat split. eexists. reflexivity.
Qed.

(** C1: [scrapeSuburb] returns a result and never throws.  The result is
    the failure result, with no record and one error message, or a success
    whose records are what the walk over the result pages returned, from the
    state in which the run entered the pagination stage.  A run that made no
    extraction call, that is, one that failed before the pagination stage,
    gives the failure result: so does a scraper without a browser, with the
    error "Browser not initialized", and a run whose listing URL could not be
    resolved, with the error of the resolver.  A run that reached the
    pagination stage gives a success, also when no record was found, provided
    that reading the content of a page and closing the page do not throw. *)
Theorem C1_scrapeSuburb_outcome :
  forall (W : Type) (B : Browser W) (host : jsstring -> Date) (st : State W),
    exists r st',
      scrapeSuburb B host st = (Ok r, st')
      /\ (isFailure r
          \/ exists s ps s',
               entersWalk B st s
               /\ extractPropertiesWithPagination B host s = (Ok ps, s')
               /\ isSuccessOf ps r)
      /\ (extractions st' = extractions st -> isFailure r)
      /\ (browser (self st) = false ->
          isFailure r /\ errors r = [js "Browser not initialized"])
      /\ (forall s1 e s2,
            browser (self st) = true ->
            perform NewPage (newPage B) st = (Ok tt, s1) ->
            findListingUrlForSuburb B
              (ScraperOptions.suburb (options (self st))) s1 = (Throw e, s2) ->
            isFailure r /\ errors r = [e])
      /\ ((forall w, exists markup w', content B w = (Ok markup, w')) ->
          (forall w, exists w', pageClose B w = (Ok tt, w')) ->
          extractions st < extractions st' ->
          exists s ps s',
            entersWalk B st s
            /\ extractPropertiesWithPagination B host s = (Ok ps, s')
            /\ isSuccessOf ps r).
Proof.
  intros W B host st.
  assert (Hinit : forall r st',
             scrapeSuburb B host st = (Ok r, st') ->
             browser (self st) = false ->
             isFailure r /\ errors r = [js "Browser not initialized"]).
  { intros r st' E Hb.
    destruct (scrapeSuburb_not_initialized W B host st Hb) as [r0 [E0 H0]].
    rewrite E0 in E. injection E as <- _. exact H0. }
  assert (Hres : forall r st' s1 e s2,
             scrapeSuburb B host st = (Ok r, st') ->
             browser (self st) = true ->
             perform NewPage (newPage B) st = (Ok tt, s1) ->
             findListingUrlForSuburb B
               (ScraperOptions.suburb (options (self st))) s1 = (Throw e, s2) ->
             isFailure r /\ errors r = [e]).
  { intros r st' s1 e s2 E Hb Hn Hf.
    destruct (scrapeSuburb_unresolved W B host st s1 s2 e Hb Hn Hf)
      as [r0 [E0 H0]].
    rewrite E0 in E. injection E as <- _. exact H0. }
  revert Hinit Hres. unfold scrapeSuburb, tryCatch.
  destruct (scrapeBody B host [] st) as [[res|e] st1] eqn:E; intros Hinit Hres.
  - destruct (scrapeBody_success W B host [] st res st1 E)
      as [s [ps [s' [Hs [Hp [S1 [S2 [S3 S4]]]]]]]].
    assert (Hok : exists s ps s',
               entersWalk B st s
               /\ extractPropertiesWithPagination B host s = (Ok ps, s')
               /\ isSuccessOf ps res).
    { exists s, ps, s'. split; [exact Hs|]. split; [exact Hp|].
      repeat split; assumption. }
    exists res, st1. split; [reflexivity|]. split; [right; exact Hok|].
    split.
    { intros Heq.
      destruct (scrapeBody_cases W B host [] st _ _ E)
        as [[e1 [R X]] | [X _]]; [discriminate|lia]. }
    split; [exact (Hinit res st1 eq_refl)|].
    split; [intros s1 e s2; exact (Hres res st1 s1 e s2 eq_refl)|].
    intros _ _ _. exact Hok.
  - unfold ret in *.
    eexists. exists st1. split; [reflexivity|].
    assert (Hf : isFailure
                   {| success := false; propertiesScraped := 0;
                      propertiesSaved := 0; errors := [] ++ [e];
                      message := js "Failed to scrape properties: " ++ e;
                      properties := Some [] |}).
    { repeat split. exists e. reflexivity. }
    split; [left; exact Hf|]. split; [intros _; exact Hf|].
    split; [exact (Hinit _ st1 eq_refl)|].
    split; [intros s1 e0 s2; exact (Hres _ st1 s1 e0 s2 eq_refl)|].
    intros Hcontent Hclose Hlt. exfalso.
    destruct (scrapeBody_cases W B host [] st _ _ E)
      as [[e1 [R X]] | [X [[ps [res1 [R S]]] | [e1 [R T]]]]];
      [lia|discriminate|].
    destruct T as [[w [w' Hw]] | [w [w' Hw]]].
    + destruct (Hcontent w) as [m [w2 Hm]]. congruence.
    + destruct (Hclose w) as [w2 Hm]. congruence.
Qed.

Lemma C1_scrapeSuburb_outcome_witness :
  (exists r st',
      scrapeSuburb site3 strictHost (launched site3 0) = (Ok r, st')
      /\ success r = true
      /\ properties r
         = Some (concat (map (recordsOf strictHost (js "Sandton")) site3Markup))
      /\ propertiesScraped r = 2)
  /\ (exists r st',
        scrapeSuburb emptySite strictHost (launched emptySite 0) = (Ok r, st')
        /\ success r = true /\ properties r = Some []
        /\ propertiesScraped r = 0)
  /\ (exists r st',
        scrapeSuburb emptySite strictHost (fresh 0) = (Ok r, st')
        /\ isFailure r /\ errors r = [js "Browser not initialized"]).
Proof.
  split; [|split].
  - destruct (C1_scrapeSuburb_outcome nat site3 strictHost
                (launched site3 0)) as [r [st' [E [_ [_ [_ [_ H]]]]]]].
    exists r, st'. split; [exact E|].
    pose proof E as E'. vm_compute in E'. injection E' as Hr Hst.
    destruct H as [s [ps [s' [_ [_ [S1 [S2 [S3 _]]]]]]]].
    + intros w. eexists. eexists. reflexivity.
    + intros w. eexists. reflexivity.
    + rewrite <- Hst. vm_compute. lia.
    + split; [exact S1|]. split; rewrite <- Hr; reflexivity.
  - destruct (C1_scrapeSuburb_outcome nat emptySite strictHost
                (launched emptySite 0)) as [r [st' [E [_ [_ [_ [_ H]]]]]]].
    exists r, st'. split; [exact E|].
    pose proof E as E'. vm_compute in E'. injection E' as Hr Hst.
    destruct H as [s [ps [s' [_ [_ [S1 [S2 [S3 _]]]]]]]].
    + intros w. eexists. eexists. reflexivity.
    + intros w. eexists. reflexivity.
    + rewrite <- Hst. vm_compute. lia.
    + split; [exact S1|]. split; rewrite <- Hr; reflexivity.
  - destruct (C1_scrapeSuburb_outcome nat emptySite strictHost (fresh 0))
      as [r [st' [E [_ [_ [H _]]]]]].
    exists r, st'. split; [exact E|]. apply H. reflexivity.
Defined.

(** Without the proviso the success is not guaranteed: on a browser that
    cannot give the content of the listing page, the run reaches the
    pagination stage (one extraction call is made) and the result is the
    failure result. *)
Lemma C1_counterexample_content_failure :
  exists r st',
    scrapeSuburb (brokenContentBrowser landingUrl) strictHost
      (launched (brokenContentBrowser landingUrl) 0) = (Ok r, st')
    /\ extractions (launched (brokenContentBrowser landingUrl) 0)
       < extractions st'
    /\ success r = false
    /\ errors r = [js "Target closed"].
Proof.
  eexists. eexists. split; [vm_compute; reflexivity|].
  split; [vm_compute; lia|]. split; reflexivity.
Qed.

(* ===================================================================== *)
(** ** Location resolver *)
(* ===================================================================== *)

(** No call of [findListingUrlForSuburb] changes the cache field: what it
    was before the call it is after it, on every browser. *)
Lemma cache_never_written :
  forall (W : Type) (B : Browser W) (suburb : jsstring) (st : State W),
    cacheOf (snd (findListingUrlForSuburb B suburb st)) = cacheOf st.
Proof.
  intros W B suburb st. apply findListingUrlForSuburb_cache.
Qed.

(** A new scraper has an empty cache. *)
Lemma cache_starts_empty :
  forall opts, listingUrlForSuburb (newScraper opts) = None.
Proof. reflexivity. Qed.

(** Had the cache been filled, the method would return it without a call. *)
Lemma cache_would_be_used :
  forall (W : Type) (B : Browser W) (suburb : jsstring) (st : State W),
    truthy (cacheOf st) = true ->
    findListingUrlForSuburb B suburb st = (Ok (orElse (cacheOf st) []), st).
Proof.
  intros W B suburb st H. apply findListingUrlForSuburb_cached. exact H.
Qed.

(** After a call that resolved a URL the next call on the same instance starts
    over from the homepage, on every browser. *)
Lemma second_call_starts_over :
  forall (W : Type) (B : Browser W) (suburb : jsstring) (st st1 : State W)
         (resolved : jsstring),
    truthy (cacheOf st) = false ->
    findListingUrlForSuburb B suburb st = (Ok resolved, st1) ->
    exists rest,
      calls (snd (findListingUrlForSuburb B suburb st1))
      = calls st1 ++ Goto BASE_URL 15000 :: rest.
Proof.
  intros W B suburb st st1 resolved Hc H.
  apply findListingUrlForSuburb_starts_over.
  pose proof (findListingUrlForSuburb_cache W B suburb st) as K.
  rewrite H in K. simpl in K. rewrite K. exact Hc.
Qed.

(** C2: on a site whose search lands on another address each time, a scraper
    resolves the URL, and a second call on the same instance does not return
    that URL: the cache is still empty after the first call, so the second
    call goes to the homepage, types the query and submits it again, with as
    many browser calls as the first, and returns the new address. *)
Theorem C2_second_call_runs_the_search_again :
  exists url1 st1 url2 st2,
    findListingUrlForSuburb movingBrowser (js "Sandton")
      (launched movingBrowser 0) = (Ok url1, st1)
    /\ findListingUrlForSuburb movingBrowser (js "Sandton") st1
       = (Ok url2, st2)
    /\ url1 = js "https://www.property24.com/for-sale/sandton/1"
    /\ url2 = js "https://www.property24.com/for-sale/sandton/2"
    /\ cacheOf st1 = None
    /\ existsb isNavigation (callsSince st1 st2) = true
    /\ existsb isTyping (callsSince st1 st2) = true
    /\ existsb isKeyStroke (callsSince st1 st2) = true
    /\ length (callsSince st1 st2)
       = length (callsSince (launched movingBrowser 0) st1).
Proof.
  eexists. eexists. eexists. eexists.
  split; [vm_compute; reflexivity|].
  split; [vm_compute; reflexivity|].
  repeat split; reflexivity.
Qed.

(* ===================================================================== *)
(** ** Facts about the matcher *)
(* ===================================================================== *)

Lemma consumed_app (pre rest : jsstring) : consumed (pre ++ rest) rest = pre.
Proof.
  unfold consumed. rewrite length_app.
  replace (length pre + length rest - length rest) with (length pre) by lia.
  rewrite firstn_app, Nat.sub_diag, firstn_all. simpl.
  apply app_nil_r.
Qed.

(** What the matcher accepts is matched by the pattern: the continuation is
    called on a suffix, after a prefix that the pattern matches, and with the
    same captures when the pattern has no group. *)
Lemma run_sound (X : Type) (r : regex) :
  forall (s : jsstring) (c : captures) (k : jsstring -> captures -> option X)
         (x : X),
    run r s c k = Some x ->
    exists pre rest c',
      s = pre ++ rest /\ Matches r pre /\ k rest c' = Some x
      /\ (groupFree r = true -> c' = c).
Proof.
  induction r as [|p|r1 IH1 r2 IH2|r1 IH1 r2 IH2|r IH|i r IH];
    intros s c k x H; cbn [run] in H.
  - exists [], s, c. repeat split; auto. constructor.
  - destruct s as [|a s]; [discriminate|].
    destruct (p a) eqn:E; [|discriminate].
    exists [a], s, c. repeat split; auto. constructor. exact E.
  - destruct (IH1 _ _ _ _ H) as [p1 [s1 [c1 [-> [M1 [H1 G1]]]]]].
    destruct (IH2 _ _ _ _ H1) as [p2 [s2 [c2 [-> [M2 [H2 G2]]]]]].
    exists (p1 ++ p2), s2, c2. rewrite app_assoc.
    repeat split; auto; [constructor; assumption|].
    cbn [groupFree]. intros G. apply andb_prop in G as [Ga Gb].
    rewrite (G2 Gb), (G1 Ga). reflexivity.
  - cbn [groupFree].
    destruct (run r1 s c k) eqn:E1.
    + injection H as <-.
      destruct (IH1 _ _ _ _ E1) as [p1 [s1 [c1 [-> [M1 [H1 G1]]]]]].
      exists p1, s1, c1. repeat split; auto; [apply Matches_AltL; exact M1|].
      intros G. apply andb_prop in G as [Ga _]. auto.
    + destruct (IH2 _ _ _ _ H) as [p2 [s2 [c2 [-> [M2 [H2 G2]]]]]].
      exists p2, s2, c2. repeat split; auto; [apply Matches_AltR; exact M2|].
      intros G. apply andb_prop in G as [_ Gb]. auto.
  - cbn [groupFree]. revert H. generalize (length s) at 1. intros n.
    revert s c. induction n as [|n IHn]; intros s c H.
    + exists [], s, c. repeat split; auto. constructor.
    + match type of H with
      | match ?e with _ => _ end = _ => destruct e eqn:E
      end.
      * injection H as <-.
        destruct (IH _ _ _ _ E) as [p1 [s1 [c1 [-> [M1 [H1 G1]]]]]].
        destruct (length s1 <? length (p1 ++ s1)); [|discriminate].
        destruct (IHn _ _ H1) as [p2 [s2 [c2 [-> [M2 [H2 G2]]]]]].
        exists (p1 ++ p2), s2, c2. rewrite app_assoc.
        repeat split; auto; [constructor; assumption|].
        intros G. rewrite (G2 G), (G1 G). reflexivity.
      * exists [], s, c. repeat split; auto. constructor.
  - destruct (IH _ _ _ _ H) as [p1 [s1 [c1 [-> [M1 [H1 G1]]]]]].
    exists p1, s1, ((i, consumed (p1 ++ s1) s1) :: c1).
    repeat split; auto; [constructor; exact M1|].
    cbn [groupFree]. discriminate.
Qed.

Lemma matchAt_sound r s t c :
  matchAt r s = Some (t, c) -> Matches r t /\ exists rest, s = t ++ rest.
Proof.
  unfold matchAt. intros H.
  destruct (run_sound _ _ _ _ _ _ H) as [pre [rest [c' [-> [M [K _]]]]]].
  rewrite consumed_app in K. injection K as <- _.
  split; [exact M|]. exists rest. reflexivity.
Qed.

(** The text [s.match(r)] returns is matched by the pattern and is a part of
    the string. *)
Lemma exec_sound r s t c :
  exec r s = Some (t, c) ->
  Matches r t /\ exists before after, s = before ++ t ++ after.
Proof.
  induction s as [|a s IH]; cbn [exec]; intros H.
  - destruct (matchAt r []) as [[t' c']|] eqn:E; [|discriminate].
    injection H as <- <-. destruct (matchAt_sound _ _ _ _ E) as [M [rest R]].
    split; [exact M|]. exists [], rest. exact R.
  - destruct (matchAt r (a :: s)) as [[t' c']|] eqn:E.
    + injection H as <- <-. destruct (matchAt_sound _ _ _ _ E) as [M [rest R]].
      split; [exact M|]. exists [], rest. exact R.
    + destruct (IH H) as [M [b [af R]]].
      split; [exact M|]. exists (a :: b), af. rewrite R. reflexivity.
Qed.

(** The first group of a pattern that starts with it, when neither the group
    nor what follows has another group. *)
Lemma exec_first_group g rest s t c :
  groupFree g = true -> groupFree rest = true ->
  exec (Cat (Group 1 g) rest) s = Some (t, c) ->
  exists d, group 1 c = Some d /\ Matches g d.
Proof.
  intros Gg Gr.
  assert (A : forall s, matchAt (Cat (Group 1 g) rest) s = Some (t, c) ->
                        exists d, group 1 c = Some d /\ Matches g d).
  { clear s. intros s H. unfold matchAt in H. cbn [run] in H.
    destruct (run_sound _ _ _ _ _ _ H) as [p1 [s1 [c1 [-> [M1 [H1 G1]]]]]].
    destruct (run_sound _ _ _ _ _ _ H1) as [p2 [s2 [c2 [-> [M2 [H2 G2]]]]]].
    rewrite (G2 Gr), (G1 Gg) in H2. injection H2 as _ <-.
    rewrite consumed_app. exists p1. split; [reflexivity|exact M1]. }
  induction s as [|a s IH]; cbn [exec]; intros H.
  - destruct (matchAt (Cat (Group 1 g) rest) []) as [[t' c']|] eqn:E;
      [|discriminate].
    injection H as -> ->. exact (A _ E).
  - destruct (matchAt (Cat (Group 1 g) rest) (a :: s)) as [[t' c']|] eqn:E.
    + injection H as -> ->. exact (A _ E).
    + exact (IH H).
Qed.

Lemma Matches_Chr_inv p t : Matches (Chr p) t -> exists c, t = [c] /\ p c = true.
Proof. intros H. inversion H; subst. eexists; split; eauto. Qed.

Lemma Matches_Cat_inv r1 r2 t :
  Matches (Cat r1 r2) t -> exists a b, t = a ++ b /\ Matches r1 a /\ Matches r2 b.
Proof. intros H. inversion H; subst. eexists; eexists; eauto. Qed.

Lemma Matches_Star_Chr p t : Matches (Star (Chr p)) t -> forallb p t = true.
Proof.
  intros H. remember (Star (Chr p)) as r eqn:R.
  induction H; try discriminate; injection R as ->.
  - reflexivity.
  - destruct (Matches_Chr_inv _ _ H) as [c [-> Hc]].
    simpl. rewrite Hc. auto.
Qed.

Lemma Matches_Plus_Chr p t :
  Matches (Plus (Chr p)) t -> t <> [] /\ forallb p t = true.
Proof.
  unfold Plus. intros H.
  destruct (Matches_Cat_inv _ _ _ H) as [a [b [-> [Ma Mb]]]].
  destruct (Matches_Chr_inv _ _ Ma) as [c [-> Hc]].
  split; [discriminate|]. simpl. rewrite Hc.
  exact (Matches_Star_Chr _ _ Mb).
Qed.

(* ===================================================================== *)
(** ** Facts about numbers *)
(* ===================================================================== *)

Lemma isDigit_range c : isDigit c = true <-> (48 <= c <= 57)%N.
Proof.
  unfold isDigit. rewrite andb_true_iff, !N.leb_le. reflexivity.
Qed.

Ltac not_in_range :=
  first [ apply N.eqb_neq; lia
        | left; apply N.leb_gt; lia
        | right; apply N.leb_gt; lia ].

Lemma low_not_whitespace c : (33 <= c <= 159)%N -> isWhiteSpace c = false.
Proof.
  intros H. unfold isWhiteSpace.
  rewrite !orb_false_iff, !andb_false_iff. repeat split; not_in_range.
Qed.

Lemma isDigit_not_whitespace c : isDigit c = true -> isWhiteSpace c = false.
Proof.
  rewrite isDigit_range. intros H. apply low_not_whitespace. lia.
Qed.

Lemma digitsVal_from acc ds :
  (0 <= acc)%Z ->
  (0 <= fold_left (fun a c => (10 * a + digitVal c)%Z) ds acc)%Z.
Proof.
  revert acc. induction ds as [|d ds IH]; intros acc H; cbn [fold_left];
    [exact H|].
  apply IH. unfold digitVal. pose proof (N2Z.is_nonneg (d - 48)). lia.
Qed.

Lemma digitsVal_nonneg ds : (0 <= digitsVal ds)%Z.
Proof. apply digitsVal_from. lia. Qed.



(** *** Reading a double *)

Section DoubleFacts.

Local Open Scope Z_scope.

Lemma nearestDouble_nonneg n d q e2 b :
  0 <= n -> 0 < d -> nearestDouble n d = Some (q, e2, b) -> 0 <= q.
Proof.
  intros Hn Hd. unfold nearestDouble. cbv zeta.
  set (x := Z.max (log2Ratio n d - 52) (-1074)).
  set (num := if x <? 0 then n * 2 ^ (- x) else n).
  set (den := if x <? 0 then d else d * 2 ^ x).
  assert (Hnum : 0 <= num).
  { unfold num. destruct (Z.ltb_spec x 0); [|exact Hn].
    apply Z.mul_nonneg_nonneg; [exact Hn|]. apply Z.pow_nonneg. lia. }
  assert (Hden : 0 < den).
  { unfold den. destruct (Z.ltb_spec x 0); [exact Hd|].
    apply Z.mul_pos_pos; [exact Hd|]. apply Z.pow_pos_nonneg; lia. }
  pose proof (Z.div_pos num den Hnum Hden) as Hq.
  match goal with
  | |- context [Some (?a, x, _)] => set (q' := a)
  end.
  assert (Hq' : 0 <= q').
  { unfold q'. destruct (2 * (num mod den) <? den); [exact Hq|].
    destruct (den <? 2 * (num mod den)); [lia|].
    destruct (Z.even (num / den)); lia. }
  destruct ((0 <=? x) && (2 ^ 1024 <=? _)); [discriminate|].
  intros H. injection H as <- _ _. exact Hq'.
Qed.




Lemma toDouble_shape neg m e :
  0 <= m ->
  toDouble neg m e = Infinity neg
  \/ exists k e', toDouble neg m e = Dec (signed neg k) e' /\ 0 <= k.
Proof.
  intros Hm. unfold toDouble.
  destruct (Z.eqb_spec m 0) as [Ez|Ez]; [right; exists m, e; auto|].
  cbv zeta.
  set (n := if e <? 0 then m else m * 10 ^ e).
  set (d := if e <? 0 then 10 ^ (- e) else 1).
  assert (Hn : 0 <= n).
  { unfold n. destruct (Z.ltb_spec e 0); [exact Hm|].
    apply Z.mul_nonneg_nonneg; [exact Hm|]. apply Z.pow_nonneg. lia. }
  assert (Hd : 0 < d).
  { unfold d. destruct (Z.ltb_spec e 0); [|lia].
    apply Z.pow_pos_nonneg; lia. }
  destruct (nearestDouble n d) as [[[q e2] [|]]|] eqn:E.
  - right. exists m, e. auto.
  - right. pose proof (nearestDouble_nonneg n d q e2 false Hn Hd E) as Hq.
    destruct (Z.ltb_spec e2 0).
    + eexists. eexists. split; [reflexivity|].
      apply Z.mul_nonneg_nonneg; [exact Hq|]. apply Z.pow_nonneg. lia.
    + eexists. eexists. split; [reflexivity|].
      apply Z.mul_nonneg_nonneg; [exact Hq|]. apply Z.pow_nonneg. lia.
  - left. reflexivity.
Qed.






Lemma toDouble_amount m e : 0 <= m -> isAmount (toDouble false m e).
Proof.
  intros Hm. destruct (toDouble_shape false m e Hm) as [->|[k [e' [-> Hk]]]].
  - right. left. reflexivity.
  - right. right. exists k, e'. auto.
Qed.

End DoubleFacts.


Lemma shape_head c r :
  amountShape (c :: r) = true ->
  isWhiteSpace c = false /\ N.eqb c cMinus = false /\ N.eqb c cPlus = false
  /\ N.eqb c 73 = false /\ N.eqb c 101 = false /\ N.eqb c 69 = false.
Proof.
  cbn [amountShape]. unfold isDigitOrDot.
  destruct (isDigit c) eqn:Hd; cbn [orb].
  - intros _. pose proof (isDigit_not_whitespace c Hd) as Hw.
    apply isDigit_range in Hd. unfold cMinus, cPlus.
    repeat split; try exact Hw; apply N.eqb_neq; lia.
  - destruct (N.eqb_spec c cDot) as [->|Hn].
    + intros _. repeat split; reflexivity.
    + unfold isStopper. rewrite Hd. apply N.eqb_neq in Hn. rewrite Hn.
      cbn [orb]. intros H. apply negb_true_iff in H.
      rewrite !orb_false_iff in H. tauto.
Qed.

Lemma shape_dropWhile s :
  amountShape s = true ->
  amountShape (dropWhile isDigit s) = true
  /\ match dropWhile isDigit s with
     | [] => True
     | c :: _ => isDigit c = false
     end.
Proof.
  induction s as [|c s IH]; [intros _; split; [reflexivity|exact I]|].
  intros H. cbn [dropWhile]. destruct (isDigit c) eqn:Hd.
  - apply IH. cbn [amountShape] in H. unfold isDigitOrDot in H.
    rewrite Hd in H. exact H.
  - split; [exact H|exact Hd].
Qed.

Lemma shape_no_exponent s :
  amountShape s = true -> readExponent s = 0%Z.
Proof.
  destruct s as [|c r]; [reflexivity|]. intros H.
  destruct (shape_head c r H) as [_ [_ [_ [_ [He1 He2]]]]].
  unfold readExponent. rewrite He1, He2. reflexivity.
Qed.

(** Digits and dots, up to a stopper, are read as [NaN], as positive infinity
    or as a non-negative decimal. *)
Lemma parseFloat_amount s : amountShape s = true -> isAmount (parseFloat s).
Proof.
  intros H. unfold parseFloat.
  assert (E1 : trimStart s = s).
  { destruct s as [|c r]; [reflexivity|].
    destruct (shape_head c r H) as [Hw _].
    unfold trimStart. cbn [dropWhile]. rewrite Hw. reflexivity. }
  assert (E2 : readSign s = (false, s)).
  { destruct s as [|c r]; [reflexivity|].
    destruct (shape_head c r H) as [_ [Hm [Hp _]]].
    unfold readSign. rewrite Hm, Hp. reflexivity. }
  assert (E3 : startsWith s (js "Infinity") = false).
  { destruct s as [|c r]; [reflexivity|].
    destruct (shape_head c r H) as [_ [_ [_ [Hi _]]]].
    cbn. cbn in Hi. rewrite Hi. reflexivity. }
  rewrite E1, E2, E3.
  destruct (shape_dropWhile s H) as [S1 N1].
  set (ip := takeWhile isDigit s).
  destruct (dropWhile isDigit s) as [|c r] eqn:R1.
  - cbn [app]. rewrite app_nil_r.
    destruct ip as [|a ip'] eqn:EI; [left; reflexivity|].
    apply toDouble_amount, digitsVal_nonneg.
  - destruct (N.eqb c cDot) eqn:Ec.
    + assert (S2 : amountShape r = true).
      { cbn [amountShape] in S1. unfold isDigitOrDot in S1.
        rewrite Ec, orb_true_r in S1. exact S1. }
      destruct (shape_dropWhile r S2) as [S3 _].
      rewrite (shape_no_exponent _ S3).
      destruct (ip ++ takeWhile isDigit r) as [|a ds] eqn:EI;
        [left; reflexivity|].
      apply toDouble_amount, digitsVal_nonneg.
    + rewrite (shape_no_exponent _ S1). rewrite app_nil_r.
      destruct ip as [|a ip'] eqn:EI; [left; reflexivity|].
      apply toDouble_amount, digitsVal_nonneg.
Qed.

Lemma digits_shape d : forallb isDigitOrDot d = true -> amountShape d = true.
Proof.
  induction d as [|c d IH]; [reflexivity|]. simpl.
  intros H. apply andb_prop in H as [Hc Hd]. rewrite Hc. auto.
Qed.

Lemma shape_app d tail :
  forallb isDigitOrDot d = true -> amountShape tail = true ->
  amountShape (d ++ tail) = true.
Proof.
  induction d as [|c d IH]; [auto|]. simpl.
  intros H T. apply andb_prop in H as [Hc Hd]. rewrite Hc. auto.
Qed.


(* ===================================================================== *)
(** ** Field parsers: the numbers they give *)
(* ===================================================================== *)

Lemma forallb_filter {A} (f g : A -> bool) l :
  (forall x, In x l -> f x = true -> g x = true) ->
  forallb g (filter f l) = true.
Proof.
  induction l as [|a l IH]; intros H; simpl; [reflexivity|].
  destruct (f a) eqn:E; simpl.
  - rewrite (H a (or_introl eq_refl) E). apply IH.
    intros x Hx. apply H. right. exact Hx.
  - apply IH. intros x Hx. apply H. right. exact Hx.
Qed.

Lemma filter_none {A} (f : A -> bool) l :
  (forall x, In x l -> f x = false) -> filter f l = [].
Proof.
  induction l as [|a l IH]; intros H; simpl; [reflexivity|].
  rewrite (H a (or_introl eq_refl)). apply IH.
  intros x Hx. apply H. right. exact Hx.
Qed.

Lemma forallb_In {A} (f : A -> bool) l x :
  forallb f l = true -> In x l -> f x = true.
Proof. intros H Hx. rewrite forallb_forall in H. auto. Qed.

(** The two cases of a letter under the [i] flag. *)
Lemma ci_letter x l :
  (97 <= l <= 122)%N -> N.eqb (lowerChar x) (lowerChar l) = true ->
  x = l \/ x = (l - 32)%N.
Proof.
  intros Hl H. apply N.eqb_eq in H. revert H.
  unfold lowerChar, isUpperAscii.
  destruct (N.leb_spec 65 l); destruct (N.leb_spec l 90); cbn [andb];
    destruct (N.leb_spec 65 x); destruct (N.leb_spec x 90); cbn [andb];
    lia.
Qed.

(** What is left of a price character after the currency letter, white space
    and commas are removed. *)
Lemma priceChar_kept_total c :
  priceChar c = true -> negb (stripTotal c) = true -> isDigitOrDot c = true.
Proof.
  unfold priceChar, stripTotal, isDigitOrDot. intros H K.
  apply negb_true_iff in K. rewrite !orb_false_iff in K.
  destruct K as [[_ Kw] Kc]. rewrite Kw, Kc in H. exact H.
Qed.

Lemma priceChar_kept_perSqm c :
  priceChar c = true -> negb (stripPerSqm c) = true -> isDigitOrDot c = true.
Proof.
  unfold priceChar, stripPerSqm, isDigitOrDot. intros H K.
  apply negb_true_iff in K. rewrite !orb_false_iff in K.
  destruct K as [[[[[_ Kw] Kc] _] _] _]. rewrite Kw, Kc in H. exact H.
Qed.

Lemma stripTotal_match t :
  Matches reTotalPrice t ->
  forallb isDigitOrDot (removeAll stripTotal t) = true.
Proof.
  unfold reTotalPrice, lit. intros H.
  destruct (Matches_Cat_inv _ _ _ H) as [a [b [-> [Ma Mb]]]].
  destruct (Matches_Chr_inv _ _ Ma) as [r0 [-> Hr]].
  destruct (Matches_Plus_Chr _ _ Mb) as [_ Hb].
  apply N.eqb_eq in Hr. subst r0.
  unfold removeAll. cbn [app filter stripTotal N.eqb orb negb Pos.eqb].
  apply forallb_filter. intros x Hx Hk.
  apply priceChar_kept_total; [exact (forallb_In _ _ _ Hb Hx)|exact Hk].
Qed.

Lemma stripPerSqm_match t :
  Matches rePricePerSqm t ->
  amountShape (removeAll stripPerSqm t) = true.
Proof.
  unfold rePricePerSqm, strCi, ci, lit, space. cbn [chain map js].
  intros H.
  destruct (Matches_Cat_inv _ _ _ H) as [t1 [u1 [-> [M1 H1]]]].
  destruct (Matches_Cat_inv _ _ _ H1) as [t2 [u2 [-> [M2 H2]]]].
  destruct (Matches_Cat_inv _ _ _ H2) as [t3 [u3 [-> [M3 H3]]]].
  destruct (Matches_Cat_inv _ _ _ H3) as [t4 [u4 [-> [M4 H4]]]].
  destruct (Matches_Cat_inv _ _ _ H4) as [t5 [u5 [-> [M5 H5]]]].
  destruct (Matches_Cat_inv _ _ _ H5) as [t6 [t7 [-> [M6 M7]]]].
  destruct (Matches_Chr_inv _ _ M1) as [r0 [-> Hr0]].
  destruct (Matches_Plus_Chr _ _ M2) as [_ Hprice].
  pose proof (Matches_Star_Chr _ _ M3) as Hs1.
  cbn [list_ascii_of_string map chain] in M4.
  destruct (Matches_Cat_inv _ _ _ M4) as [p1 [q1 [-> [Mp Mq]]]].
  destruct (Matches_Cat_inv _ _ _ Mq) as [p2 [p3 [-> [Me Mr]]]].
  destruct (Matches_Chr_inv _ _ Mp) as [cp [-> Hp]].
  destruct (Matches_Chr_inv _ _ Me) as [ce [-> He]].
  destruct (Matches_Chr_inv _ _ Mr) as [cr [-> Hr]].
  pose proof (Matches_Star_Chr _ _ M5) as Hs2.
  destruct (Matches_Chr_inv _ _ M6) as [cm [-> Hm]].
  destruct (Matches_Chr_inv _ _ M7) as [c2 [-> H2']].
  apply N.eqb_eq in H2'. subst c2.
  unfold removeAll. rewrite !filter_app.
  assert (Fr0 : filter (fun x => negb (stripPerSqm x)) [r0] = []).
  { cbn [filter]. unfold stripPerSqm at 1. rewrite Hr0. reflexivity. }
  assert (Fs : forall l, forallb isWhiteSpace l = true ->
                         filter (fun x => negb (stripPerSqm x)) l = []).
  { intros l Hl. apply filter_none. intros x Hx.
    unfold stripPerSqm. rewrite (forallb_In _ _ _ Hl Hx).
    rewrite orb_true_r. reflexivity. }
  assert (Fp : filter (fun x => negb (stripPerSqm x)) [cp] = [cp]
               /\ isStopper cp = true /\ isDigitOrDot cp = false).
  { destruct (ci_letter cp 112 ltac:(lia) Hp) as [->| ->].
    - repeat split; reflexivity.
    - repeat split; reflexivity. }
  assert (Fe : filter (fun x => negb (stripPerSqm x)) [ce] = [ce]).
  { destruct (ci_letter ce 101 ltac:(lia) He) as [->| ->]; reflexivity. }
  assert (Fr : filter (fun x => negb (stripPerSqm x)) [cr] = []).
  { cbn [filter]. unfold stripPerSqm at 1.
    change (N_of_ascii "r") with 114%N in Hr.
    change (lowerChar 82) with 114%N. change (lowerChar 114) with 114%N in Hr.
    rewrite Hr. reflexivity. }
  assert (Fm : filter (fun x => negb (stripPerSqm x)) [cm] = []).
  { cbn [filter]. unfold stripPerSqm at 1. rewrite Hm.
    rewrite !orb_true_r. reflexivity. }
  destruct Fp as [Fp [Sp Dp]].
  rewrite Fr0, (Fs _ Hs1), (Fs _ Hs2), Fp, Fe, Fr, Fm.
  cbn [app]. rewrite ?app_nil_r.
  apply shape_app.
  - apply forallb_filter. intros x Hx Hk.
    apply priceChar_kept_perSqm; [exact (forallb_In _ _ _ Hprice Hx)|exact Hk].
  - cbn [amountShape]. rewrite Dp. exact Sp.
Qed.

(** X1: a price of [parsePrice], total or per area,
    that is present is [NaN], positive infinity or a non-negative number:
    never negative.  It is infinite for a text with enough digits: 309
    nines are read as positive infinity. *)
Theorem parsePrice_amounts :
  forall (priceText : jsstring) (n : number),
    (totalPrice (parsePrice priceText) = Some n -> isAmount n)
    /\ (pricePerSqm (parsePrice priceText) = Some n -> isAmount n).
Proof.
  intros priceText n. unfold parsePrice. cbn [totalPrice pricePerSqm]. split.
  - destruct (exec reTotalPrice priceText) as [[t c]|] eqn:E; [|discriminate].
    intros H. injection H as <-. cbn [fst].
    destruct (exec_sound _ _ _ _ E) as [M _].
    apply parseFloat_amount, digits_shape, stripTotal_match. exact M.
  - destruct (exec rePricePerSqm priceText) as [[t c]|] eqn:E; [|discriminate].
    intros H. injection H as <-. cbn [fst].
    destruct (exec_sound _ _ _ _ E) as [M _].
    apply parseFloat_amount, stripPerSqm_match. exact M.
Qed.

Lemma parsePrice_amounts_witness :
  isAmount (Dec 1250000 0) /\ isAmount (Dec 15000 0)
  /\ isAmount (Infinity false).
Proof.
  split; [|split].
  - apply (proj1 (parsePrice_amounts
                    (js "R 1,250,000 R 15,000 per m" ++ [cSup2])
                    (Dec 1250000 0))).
    reflexivity.
  - apply (proj2 (parsePrice_amounts
                    (js "R 1,250,000 R 15,000 per m" ++ [cSup2])
                    (Dec 15000 0))).
    reflexivity.
  - apply (proj1 (parsePrice_amounts (js "R " ++ repeat 57%N 309)
                    (Infinity false))).
    vm_compute. reflexivity.
Defined.

(** The doubles end: 309 nines are read as positive infinity, and the integer
    after [2^53] as [2^53]. *)
Lemma parsePrice_rounds :
  totalPrice (parsePrice (js "R " ++ repeat 57%N 309)) = Some (Infinity false)
  /\ totalPrice (parsePrice (js "R 9007199254740993"))
     = Some (Dec 9007199254740992 0)
  /\ parseInt10 (repeat 57%N 309) = Infinity false.
Proof. split; [|split]; vm_compute; reflexivity. Qed.






(* ===================================================================== *)
(** ** Field parsers: addresses of any number of segments *)
(* ===================================================================== *)

Lemma split_commaFree s : commaFree s = true -> split cComma s = [s].
Proof.
  induction s as [|c s IH]; [reflexivity|]. cbn [commaFree forallb].
  intros H. apply andb_prop in H as [Hc Hs]. cbn [split].
  apply negb_true_iff in Hc. rewrite Hc, (IH Hs). reflexivity.
Qed.

Lemma split_app s rest :
  commaFree s = true ->
  split cComma (s ++ cComma :: rest) = s :: split cComma rest.
Proof.
  induction s as [|c s IH]; intros H.
  - cbn [app split]. rewrite N.eqb_refl. reflexivity.
  - cbn [commaFree forallb] in H. apply andb_prop in H as [Hc Hs].
    cbn [app split]. apply negb_true_iff in Hc. rewrite Hc, (IH Hs).
    reflexivity.
Qed.

(** Splitting at the commas gives back the segments that were joined. *)
Lemma split_joinComma segments :
  segments <> [] -> forallb commaFree segments = true ->
  split cComma (joinComma segments) = segments.
Proof.
  induction segments as [|s rest IH]; [contradiction|]. intros _ H.
  cbn [forallb] in H. apply andb_prop in H as [Hs Hrest].
  destruct rest as [|s2 rest'].
  - cbn [joinComma]. apply split_commaFree. exact Hs.
  - change (joinComma (s :: s2 :: rest'))
      with (s ++ cComma :: joinComma (s2 :: rest')).
    rewrite (split_app _ _ Hs), IH; [reflexivity|discriminate|exact Hrest].
Qed.

(** X3: for segments without a comma, joined by
    commas, [parseAddress] gives at each of the five positions the trimmed
    segment of that position, absent when the segment is missing or blank;
    the segments from the sixth on are dropped. *)
Theorem parseAddress_of_segments :
  forall (segments : list jsstring) (i : nat),
    segments <> [] -> forallb commaFree segments = true ->
    fieldAt (parseAddress (joinComma segments)) i
    = if i <? 5 then orUndefined (option_map trim (nth_error segments i))
      else None.
Proof.
  intros segments i Hne Hfree.
  destruct (Nat.ltb_spec i 5) as [H|H].
  - rewrite (fieldAt_parseAddress _ _ H), nth_error_map,
      (split_joinComma _ Hne Hfree).
    reflexivity.
  - apply fieldAt_beyond. exact H.
Qed.

Lemma parseAddress_of_segments_witness :
  fieldAt (parseAddress
             (joinComma [js "Unit 4"; js " 12 Oak St"; js " Oakwood Estate";
                         js " Sandton"; js " Johannesburg"; js " 2196"])) 4
  = Some (js "Johannesburg").
Proof.
  refine (parseAddress_of_segments
            [js "Unit 4"; js " 12 Oak St"; js " Oakwood Estate";
             js " Sandton"; js " Johannesburg"; js " 2196"] 4 _ _).
  - discriminate.
  - reflexivity.
Defined.

(* ===================================================================== *)
(** ** Record extractor: the other fields *)
(* ===================================================================== *)

Lemma orElse_cases x d :
  (exists s, x = Some s /\ s <> [] /\ orElse x d = s)
  \/ (truthy x = false /\ orElse x d = d).
Proof.
  destruct x as [[|c r]|]; simpl; auto.
  left. eexists. repeat split. discriminate.
Qed.

Lemma hasInk_false s : hasInk s = false -> forallb isWhiteSpace s = true.
Proof.
  induction s as [|c s IH]; [reflexivity|]. cbn [hasInk existsb forallb].
  intros H. apply orb_false_elim in H as [Hc Hs].
  apply negb_false_iff in Hc. rewrite Hc. exact (IH Hs).
Qed.

Lemma dropWhile_keeps p s x :
  In x s -> p x = false -> In x (dropWhile p s).
Proof.
  induction s as [|c s IH]; [contradiction|]. intros Hx Hp. cbn [dropWhile].
  destruct (p c) eqn:E.
  - destruct Hx as [->|Hx]; [congruence|]. auto.
  - exact Hx.
Qed.

Lemma hasInk_In s : hasInk s = true <-> exists x, In x s /\ isWhiteSpace x = false.
Proof.
  unfold hasInk. rewrite existsb_exists. split; intros [x [Hx H]]; exists x.
  - split; [exact Hx|]. apply negb_true_iff. exact H.
  - split; [exact Hx|]. apply negb_true_iff. exact H.
Qed.

(** Trimming a text with ink leaves ink. *)
Lemma trim_hasInk s : hasInk s = true -> trim s <> [].
Proof.
  rewrite hasInk_In. intros [x [Hx Hw]].
  unfold trim, trimEnd, trimStart.
  pose proof (dropWhile_keeps isWhiteSpace s x Hx Hw) as H1.
  apply in_rev in H1.
  pose proof (dropWhile_keeps isWhiteSpace _ x H1 Hw) as H2.
  apply in_rev in H2. intros E. rewrite E in H2. exact H2.
Qed.

Lemma extractContainer_suburb host sub c p :
  extractContainer host sub c = Some p ->
  suburb p = orElse (fieldAt (parseAddress (addressText c)) 2) sub.
Proof.
  unfold extractContainer, containerBody.
  destruct (thrown c); [discriminate|].
  destruct (negb (truthy (findPropertyUrl c))); [discriminate|].
  intros H. injection H as <-. reflexivity.
Qed.

(** X4: the suburb of a record is the third segment of the
    address text, trimmed, when that segment is not blank, and the queried
    suburb otherwise; it is not empty unless the queried suburb is. *)
Theorem record_suburb :
  forall (hostDateParse : jsstring -> Date) (optionsSuburb : jsstring)
         (c : Container) (p : Property),
    extractContainer hostDateParse optionsSuburb c = Some p ->
    (match nth_error (split cComma (addressText c)) 2 with
     | Some seg => if hasInk seg then suburb p = trim seg
                   else suburb p = optionsSuburb
     | None => suburb p = optionsSuburb
     end)
    /\ (optionsSuburb <> [] -> suburb p <> []).
Proof.
  intros host sub c p H.
  rewrite (extractContainer_suburb _ _ _ _ H).
  rewrite (fieldAt_parseAddress _ 2) by lia. rewrite nth_error_map.
  split.
  - destruct (nth_error (split cComma (addressText c)) 2) as [seg|];
      [|reflexivity].
    cbn [option_map]. destruct (hasInk seg) eqn:E.
    + pose proof (trim_hasInk seg E) as Hne.
      destruct (trim seg) as [|a r]; [contradiction|reflexivity].
    + rewrite (trim_blank _ (hasInk_false _ E)). reflexivity.
  - intros Hsub.
    destruct (orElse_cases
                (orUndefined
                   (option_map trim
                      (nth_error (split cComma (addressText c)) 2))) sub)
      as [[s [_ [Hs ->]]] | [_ ->]]; assumption.
Qed.

Lemma record_suburb_witness :
  exists p,
    extractContainer strictHost (js "Sandton")
      (linkedContainer (js "/for-sale/rosebank/1")
         (js "1 Elm Rd, , Rosebank")) = Some p
    /\ suburb p = js "Rosebank".
Proof.
  eexists. split; [vm_compute; reflexivity|].
  refine (proj1 (record_suburb strictHost (js "Sandton")
                   (linkedContainer (js "/for-sale/rosebank/1")
                      (js "1 Elm Rd, , Rosebank")) _ _)).
  vm_compute. reflexivity.
Defined.

Lemma includes_head s a p : includes s (a :: p) = true -> In a s.
Proof.
  induction s as [|b s IH]; cbn [includes startsWith]; [discriminate|].
  intros H. apply orb_prop in H as [H|H].
  - apply andb_prop in H as [H _]. apply N.eqb_eq in H. left. exact H.
  - right. exact (IH H).
Qed.

Lemma letter_has_ink t l :
  (97 <= l <= 122)%N -> In l (toLowerCase t) -> hasInk t = true.
Proof.
  intros Hl H. unfold toLowerCase in H. apply in_map_iff in H as [x [Hx Hin]].
  apply hasInk_In. exists x. split; [exact Hin|].
  assert (E : N.eqb (lowerChar x) (lowerChar l) = true).
  { apply N.eqb_eq. rewrite Hx. unfold lowerChar, isUpperAscii.
    destruct (N.leb_spec 65 l); destruct (N.leb_spec l 90); cbn [andb];
      try reflexivity; lia. }
  apply low_not_whitespace.
  destruct (ci_letter x l Hl E) as [->| ->]; lia.
Qed.

Lemma isTypeText_hasInk t : isTypeText t = true -> hasInk t = true.
Proof.
  unfold isTypeText. intros H.
  repeat (apply orb_prop in H as [H|H]);
    apply includes_head in H;
    (eapply letter_has_ink; [|exact H]); cbn; lia.
Qed.

(** X5: the property type of a record is there exactly
    when one of the candidate texts mentions house, apartment, townhouse or
    land in any case; it is then the whole text of the first such candidate,
    trimmed, and not empty. *)
Theorem record_property_type :
  forall (hostDateParse : jsstring -> Date) (optionsSuburb : jsstring)
         (c : Container) (p : Property),
    extractContainer hostDateParse optionsSuburb c = Some p ->
    match filter isTypeText (typeTexts c) with
    | [] => property_type p = None
    | t :: _ => property_type p = Some (trim t) /\ trim t <> []
    end.
Proof.
  intros host sub c p H. unfold extractContainer, containerBody in H.
  destruct (thrown c); [discriminate|].
  destruct (negb (truthy (findPropertyUrl c))); [discriminate|].
  injection H as <-. cbn [property_type].
  destruct (filter isTypeText (typeTexts c)) as [|t rest] eqn:E;
    [reflexivity|].
  cbn [firstText].
  assert (Ht : isTypeText t = true).
  { assert (I : In t (filter isTypeText (typeTexts c)))
      by (rewrite E; left; reflexivity).
    apply filter_In in I. tauto. }
  pose proof (trim_hasInk t (isTypeText_hasInk t Ht)) as Hne.
  split; [|exact Hne].
  destruct (trim t) as [|a r]; [contradiction|reflexivity].
Qed.

Lemma record_property_type_witness :
  exists p,
    extractContainer strictHost (js "Sandton")
      (linkedContainer (js "/for-sale/sandton/1") []) = Some p
    /\ property_type p = Some (js "3 Bedroom House").
Proof.
  eexists. split; [vm_compute; reflexivity|].
  refine (proj1 (record_property_type strictHost (js "Sandton")
                   (linkedContainer (js "/for-sale/sandton/1") []) _ _)).
  vm_compute. reflexivity.
Defined.

(* ===================================================================== *)
(** ** Facts about runs *)
(* ===================================================================== *)

Section RunFacts.

Variable W : Type.

Lemma neverThrows_ret A (a : A) : neverThrows (@ret W A a).
Proof. intros st. exists a, st. reflexivity. Qed.

Lemma neverThrows_bind A C (m : M W A) (k : A -> M W C) :
  neverThrows m -> (forall a, neverThrows (k a)) -> neverThrows (bind m k).
Proof.
  intros Hm Hk st. unfold bind. destruct (Hm st) as [a [s1 E]]. rewrite E.
  apply Hk.
Qed.

Lemma neverThrows_tryCatch A (m : M W A) (h : jsstring -> M W A) :
  (forall e, neverThrows (h e)) -> neverThrows (tryCatch m h).
Proof.
  intros Hh st. unfold tryCatch. destruct (m st) as [[a|e] s1].
  - exists a, s1. reflexivity.
  - apply Hh.
Qed.

Lemma bind_ok A C (m : M W A) (k : A -> M W C) st a s1 :
  m st = (Ok a, s1) -> bind m k st = k a s1.
Proof. intros E. unfold bind. rewrite E. reflexivity. Qed.

Lemma bind_throw A C (m : M W A) (k : A -> M W C) st e s1 :
  m st = (Throw e, s1) -> bind m k st = (Throw e, s1).
Proof. intros E. unfold bind. rewrite E. reflexivity. Qed.

(** What a [bind] that returned went through. *)
Lemma bind_ok_inv A C (m : M W A) (k : A -> M W C) st c st' :
  bind m k st = (Ok c, st') ->
  exists a s1, m st = (Ok a, s1) /\ k a s1 = (Ok c, st').
Proof.
  unfold bind. destruct (m st) as [[a|e] s1]; [|discriminate].
  intros H. exists a, s1. auto.
Qed.

Lemma perform_count A kind (c : Call) (op : W -> outcome A * W) :
  kind c = false -> preserves (countCalls kind) (perform c op).
Proof.
  intros Hc st. unfold perform, countCalls.
  destruct (op (world st)) as [r w']. cbn [snd calls].
  rewrite filter_app, length_app. cbn [filter]. rewrite Hc. simpl. lia.
Qed.

Lemma perform_counted A kind (c : Call) (op : W -> outcome A * W) st :
  kind c = true ->
  countCalls kind (snd (perform c op st)) = countCalls kind st + 1.
Proof.
  intros Hc. unfold perform, countCalls.
  destruct (op (world st)) as [r w']. cbn [snd calls].
  rewrite filter_app, length_app. cbn [filter]. rewrite Hc. reflexivity.
Qed.

Lemma setSelf_count kind s : preserves (@countCalls W kind) (setSelf s).
Proof. intros st. reflexivity. Qed.

Section Respects.

Variable R : State W -> State W -> Prop.
Hypothesis R_refl : forall st, R st st.
Hypothesis R_trans : forall a b c, R a b -> R b c -> R a c.

Lemma respects_ret A (a : A) : respects R (ret a).
Proof. intros st. apply R_refl. Qed.

Lemma respects_throw A e : respects R (@throw W A e).
Proof. intros st. apply R_refl. Qed.

Lemma respects_getSelf : respects R getSelf.
Proof. intros st. apply R_refl. Qed.

Lemma respects_bind A C (m : M W A) (k : A -> M W C) :
  respects R m -> (forall a, respects R (k a)) -> respects R (bind m k).
Proof.
  intros Hm Hk st. unfold bind. specialize (Hm st).
  destruct (m st) as [[a|e] s1]; cbn [snd] in *.
  - exact (R_trans _ _ _ Hm (Hk a s1)).
  - exact Hm.
Qed.

Lemma respects_tryCatch A (m : M W A) (h : jsstring -> M W A) :
  respects R m -> (forall e, respects R (h e)) -> respects R (tryCatch m h).
Proof.
  intros Hm Hh st. unfold tryCatch. specialize (Hm st).
  destruct (m st) as [[a|e] s1]; cbn [snd] in *.
  - exact Hm.
  - exact (R_trans _ _ _ Hm (Hh e s1)).
Qed.

Lemma respects_tryFinally A (m : M W A) (fin : M W unit) :
  respects R m -> respects R fin -> respects R (tryFinally m fin).
Proof.
  intros Hm Hf st. unfold tryFinally. specialize (Hm st).
  destruct (m st) as [r s1]. specialize (Hf s1).
  destruct (fin s1) as [[u|e] s2]; cbn [snd] in *;
    exact (R_trans _ _ _ Hm Hf).
Qed.

End Respects.

End RunFacts.

Arguments perform_count {W A} kind c op _ _.
Arguments perform_counted {W A} kind c op st _.
Arguments setSelf_count {W} kind s _.
Arguments bind_ok {W A C} m k st a s1 _.
Arguments bind_throw {W A C} m k st e s1 _.
Arguments bind_ok_inv {W A C} m k st c st' _.

Ltac respects_step :=
  match goal with
  | |- respects _ _ => assumption
  | |- respects _ _ => solve [auto 2 with keeps nocore]
  | |- respects _ (ret _) => apply respects_ret; assumption
  | |- respects _ (throw _) => apply respects_throw; assumption
  | |- respects _ getSelf => apply respects_getSelf; assumption
  | |- respects _ (bind _ _) => apply respects_bind; [assumption| |intros ?]
  | |- respects _ (tryCatch _ _) =>
      apply respects_tryCatch; [assumption| |intros ?]
  | |- respects _ (tryFinally _ _) => apply respects_tryFinally; [assumption| |]
  | |- respects _ (if ?b then _ else _) => destruct b
  | |- respects _ (match ?x with Some _ => _ | None => _ end) => destruct x
  end.

Ltac count_step :=
  match goal with
  | |- preserves (countCalls _) (perform _ _) =>
      apply perform_count; reflexivity
  | |- preserves (countCalls _) (setSelf _) => apply setSelf_count
  | _ => keeps_step
  end.

(* ===================================================================== *)
(** ** Screenshots *)
(* ===================================================================== *)

Lemma takeScreenshot_run (W : Type) (B : Browser W) label (st : State W) :
  exists w',
    takeScreenshot B label st
    = (Ok tt,
       {| self := withScreenshotCounter (self st)
                    (screenshotCounter (self st) + 1);
          world := w';
          calls := calls st
                   ++ [Screenshot (screenshotCounter (self st) + 1) label] |}).
Proof.
  unfold takeScreenshot, tryCatch, bind, getSelf, setSelf, perform, ret.
  cbn [self world calls withScreenshotCounter screenshotCounter].
  destruct (screenshot B (screenshotCounter (self st) + 1) label (world st))
    as [[[]|e] w']; exists w'; reflexivity.
Qed.

(** X6: [takeScreenshot] never throws, whether
    the screenshot is written or not; it makes one screenshot call, numbered
    with the counter of the instance plus one, and leaves the counter at that
    number and the other fields of the instance as they were. *)
Theorem takeScreenshot_best_effort :
  forall (W : Type) (B : Browser W) (label : jsstring) (st : State W),
    exists w',
      takeScreenshot B label st
      = (Ok tt,
         {| self := {| browser := browser (self st);
                       options := options (self st);
                       screenshotCounter := screenshotCounter (self st) + 1;
                       listingUrlForSuburb := listingUrlForSuburb (self st) |};
            world := w';
            calls := calls st
                     ++ [Screenshot (screenshotCounter (self st) + 1) label] |}).
Proof. intros W B label st. exact (takeScreenshot_run W B label st). Qed.

Lemma takeScreenshot_count (W : Type) (B : Browser W) kind label :
  (forall n l, kind (Screenshot n l) = false) ->
  preserves (countCalls kind) (takeScreenshot B label).
Proof.
  intros Hk st. destruct (takeScreenshot_run W B label st) as [w' ->].
  unfold countCalls. cbn [snd calls].
  rewrite filter_app, length_app. cbn [filter]. rewrite Hk. simpl. lia.
Qed.

(* ===================================================================== *)
(** ** Pagination walker: one step, and what the walk throws *)
(* ===================================================================== *)

Section WalkerFacts.

Variable W : Type.
Variable B : Browser W.
Variable host : jsstring -> Date.

Local Abbreviation clicks := (countCalls isHandleClick).

(** What [goToNextPageFrom] does once the control is clicked. *)
Lemma afterClick_run n (st : State W) :
  exists st',
    (tryCatch
       (perform (WaitForNavigation 10000) (waitForNavigation B 10000))
       (fun _ =>
          tryCatch
            (perform (WaitForSelector propertyCardSelector 5000)
                     (waitForSelector B propertyCardSelector 5000))
            (fun _ => ret tt)) ;;;
     takeScreenshot B (js "pagination-page-" ++ ofNat (n + 1)) ;;;
     ret true) st = (Ok true, st')
    /\ clicks st' = clicks st.
Proof.
  set (waits :=
         tryCatch
           (perform (WaitForNavigation 10000) (waitForNavigation B 10000))
           (fun _ =>
              tryCatch
                (perform (WaitForSelector propertyCardSelector 5000)
                         (waitForSelector B propertyCardSelector 5000))
                (fun _ => ret tt))).
  assert (N1 : neverThrows waits).
  { apply neverThrows_tryCatch. intros e. apply neverThrows_tryCatch.
    intros e'. apply neverThrows_ret. }
  assert (P1 : preserves clicks waits) by (unfold waits; repeat count_step).
  destruct (N1 st) as [[] [s1 E1]].
  pose proof (preserves_run W P1 E1) as C1.
  destruct (takeScreenshot_run W B (js "pagination-page-" ++ ofNat (n + 1)) s1)
    as [w2 E2].
  pose proof (takeScreenshot_count W B isHandleClick
                (js "pagination-page-" ++ ofNat (n + 1))
                (fun _ _ => eq_refl) s1) as C2.
  rewrite E2 in C2. cbn [snd] in C2.
  eexists. rewrite (bind_ok _ _ _ _ _ E1), (bind_ok _ _ _ _ _ E2).
  split; [reflexivity|]. lia.
Qed.

Lemma goToNextPageFrom_clicks sels n : forall st : State W,
  (exists st', goToNextPageFrom B sels n st = (Ok true, st')
               /\ clicks st' = clicks st + 1)
  \/ (exists st', goToNextPageFrom B sels n st = (Ok false, st')
                  /\ clicks st' = clicks st)
  \/ (exists e st', goToNextPageFrom B sels n st = (Throw e, st')
                    /\ clicks st' <= clicks st + 1).
Proof.
  induction sels as [|sel rest IH]; intros st; cbn [goToNextPageFrom].
  - right. left. exists st. auto.
  - pose proof (perform_count isHandleClick (Query sel) (query B sel)
                  eq_refl st) as Cq.
    destruct (perform (Query sel) (query B sel) st) as [[found|e] s1] eqn:Eq;
      cbn [snd] in Cq.
    + rewrite (bind_ok _ _ _ _ _ Eq). destruct found.
      * pose proof (perform_counted isHandleClick (HandleClick sel)
                      (handleClick B sel) s1 eq_refl) as Cc.
        destruct (perform (HandleClick sel) (handleClick B sel) s1)
          as [[[]|e] s2] eqn:Ec; cbn [snd] in Cc.
        -- rewrite (bind_ok _ _ _ _ _ Ec).
           destruct (afterClick_run n s2) as [s3 [E3 C3]].
           left. exists s3. split; [exact E3|]. lia.
        -- rewrite (bind_throw _ _ _ _ _ Ec).
           right. right. exists e, s2. split; [reflexivity|]. lia.
      * destruct (IH s1) as [[s' [E C]] | [[s' [E C]] | [e [s' [E C]]]]].
        -- left. exists s'. split; [exact E|]. lia.
        -- right. left. exists s'. split; [exact E|]. lia.
        -- right. right. exists e, s'. split; [exact E|]. lia.
    + rewrite (bind_throw _ _ _ _ _ Eq).
      right. right. exists e, s1. split; [reflexivity|]. lia.
Qed.

Lemma goToNextPage_clicks n (st : State W) :
  exists found st',
    goToNextPage B n st = (Ok found, st')
    /\ clicks st' <= clicks st + 1
    /\ (found = true -> clicks st' = clicks st + 1).
Proof.
  unfold goToNextPage, tryCatch.
  destruct (goToNextPageFrom_clicks nextPageSelectors n st)
    as [[s' [E C]] | [[s' [E C]] | [e [s' [E C]]]]]; rewrite E.
  - exists true, s'. split; [reflexivity|]. split; [lia|]. intros _. exact C.
  - exists false, s'. split; [reflexivity|]. split; [lia|]. discriminate.
  - exists false, s'. split; [reflexivity|]. split; [exact C|]. discriminate.
Qed.

Lemma goToNextPageFrom_none sels n : forall st : State W,
  (forall sel w, In sel sels -> exists w', query B sel w = (Ok false, w')) ->
  exists w',
    goToNextPageFrom B sels n st
    = (Ok false,
       {| self := self st; world := w';
          calls := calls st ++ map Query sels |}).
Proof.
  induction sels as [|sel rest IH]; intros st Hq; cbn [goToNextPageFrom map].
  - exists (world st). rewrite app_nil_r. destruct st; reflexivity.
  - destruct (Hq sel (world st) (or_introl eq_refl)) as [w1 E1].
    unfold bind at 1. unfold perform at 1. rewrite E1.
    destruct (IH {| self := self st; world := w1;
                    calls := calls st ++ [Query sel] |})
      as [w' E]; [intros s w Hs; apply Hq; right; exact Hs|].
    exists w'. rewrite E. cbn [self calls]. rewrite <- app_assoc.
    reflexivity.
Qed.

(** The loop returns when reading the content of the pages does. *)
Lemma paginationLoop_returns
  (Hcontent : forall w, exists markup w', content B w = (Ok markup, w')) k :
  forall n all (st : State W),
    pagesLeft n <= k ->
    exists ps st', paginationLoop B host n all st = (Ok ps, st').
Proof.
  induction k as [|k IH]; intros n all st Hk.
  - rewrite paginationLoop_over by (unfold pagesLeft, maxPages in *; lia).
    exists all, st. reflexivity.
  - destruct (le_dec n maxPages) as [L|L].
    + pose proof (pagesLeft_next n L) as Hn.
      destruct (paginationLoop_cases W B host n all st L)
        as [[e [st1 [E R]]] | [[rs [st1 [st2 [E [G R]]]]] | [rs [st1 [st2 [E [G R]]]]]]];
        rewrite R.
      * destruct (extractProperties_throws W B host _ _ _ E) as [w' Hw].
        destruct (Hcontent (world st)) as [m [w2 Hm]]. congruence.
      * eexists. eexists. reflexivity.
      * apply IH. lia.
    + rewrite paginationLoop_over by lia. exists all, st. reflexivity.
Qed.

End WalkerFacts.

(** X7: [goToNextPage] never throws, whatever the
    browser does: it returns a boolean.  It clicks at most one control, and it
    returns true only after having clicked one. *)
Theorem goToNextPage_one_click :
  forall (W : Type) (B : Browser W) (currentPageNum : nat) (st : State W),
    exists found st',
      goToNextPage B currentPageNum st = (Ok found, st')
      /\ countCalls isHandleClick st' <= countCalls isHandleClick st + 1
      /\ (found = true ->
          countCalls isHandleClick st' = countCalls isHandleClick st + 1).
Proof. intros W B n st. exact (goToNextPage_clicks W B n st). Qed.

Lemma goToNextPage_one_click_witness :
  exists found st',
    goToNextPage site3 1 (launched site3 0) = (Ok found, st')
    /\ countCalls isHandleClick st' = 1.
Proof.
  destruct (goToNextPage_one_click nat site3 1 (launched site3 0))
    as [found [st' [E [_ H]]]].
  exists found, st'. split; [exact E|].
  pose proof E as E'. vm_compute in E'. injection E' as Hf _.
  rewrite (H (eq_sym Hf)). reflexivity.
Defined.

(** X8: when the page has none of the five
    next-page controls, [goToNextPage] returns false after looking for each of
    them once, in the order of the list, and does nothing else: no click, no
    wait, no screenshot. *)
Theorem goToNextPage_without_control :
  forall (W : Type) (B : Browser W) (currentPageNum : nat) (st : State W),
    (forall sel w, In sel nextPageSelectors ->
                   exists w', query B sel w = (Ok false, w')) ->
    exists w',
      goToNextPage B currentPageNum st
      = (Ok false,
         {| self := self st; world := w';
            calls := calls st ++ map Query nextPageSelectors |}).
Proof.
  intros W B n st Hq. unfold goToNextPage, tryCatch.
  destruct (goToNextPageFrom_none W B nextPageSelectors n st Hq) as [w' E].
  exists w'. rewrite E. reflexivity.
Qed.

Lemma goToNextPage_without_control_witness :
  exists w',
    goToNextPage emptySite 1 (launched emptySite 0)
    = (Ok false,
       {| self := self (launched emptySite 0); world := w';
          calls := calls (launched emptySite 0) ++ map Query nextPageSelectors |}).
Proof.
  apply (goToNextPage_without_control nat emptySite 1 (launched emptySite 0)).
  intros sel w Hs. exists w.
  repeat (destruct Hs as [<-|Hs]; [destruct w; reflexivity|]). destruct Hs.
Defined.

(** X9: the walk over the result pages throws
    only what reading the content of a page threw; when the content of every
    page can be read the walk returns, whatever happens to the next-page
    steps. *)
Theorem walker_error_is_content_error :
  forall (W : Type) (B : Browser W) (host : jsstring -> Date) (st : State W),
    (forall e st',
        extractPropertiesWithPagination B host st = (Throw e, st') ->
        exists w w', content B w = (Throw e, w'))
    /\ ((forall w, exists markup w', content B w = (Ok markup, w')) ->
        exists ps st',
          extractPropertiesWithPagination B host st = (Ok ps, st')).
Proof.
  intros W B host st. unfold extractPropertiesWithPagination. split.
  - intros e st' H.
    exact (paginationLoop_throws W B host (pagesLeft 1) 1 [] st e st'
             (le_n _) H).
  - intros Hc.
    exact (paginationLoop_returns W B host Hc (pagesLeft 1) 1 [] st (le_n _)).
Qed.

Lemma walker_error_is_content_error_witness :
  (exists w w',
      content (brokenContentBrowser landingUrl) w
      = (Throw (js "Target closed"), w'))
  /\ exists ps st',
       extractPropertiesWithPagination site3 strictHost (launched site3 0)
       = (Ok ps, st').
Proof.
  split.
  - refine (proj1 (walker_error_is_content_error nat
                     (brokenContentBrowser landingUrl) strictHost
                     (launched (brokenContentBrowser landingUrl) 0)) _ _ _).
    vm_compute. reflexivity.
  - apply (proj2 (walker_error_is_content_error nat site3 strictHost
                    (launched site3 0))).
    intros w. eexists. eexists. reflexivity.
Defined.

(* ===================================================================== *)
(** ** Location resolver: what it returns and what it throws *)
(* ===================================================================== *)

Lemma bind_throw_inv (W : Type) A C (m : M W A) (k : A -> M W C) st e st' :
  bind m k st = (Throw e, st') ->
  m st = (Throw e, st')
  \/ exists a s1, m st = (Ok a, s1) /\ k a s1 = (Throw e, st').
Proof.
  unfold bind. destruct (m st) as [[a|e0] s1].
  - intros H. right. exists a, s1. auto.
  - intros H. left. injection H as -> ->. reflexivity.
Qed.

Arguments bind_throw_inv {W A C} m k st e st' _.

Section ResolverFacts.

Variable W : Type.
Variable B : Browser W.

Lemma searchWith_some suburb sel (st : State W) u st' :
  searchWith B suburb sel st = (Ok (Some u), st') ->
  looksLikeListingUrl u = true /\ u = url B (world st').
Proof.
  unfold searchWith. intros H.
  do 10 (apply bind_ok_inv in H as [? [? [_ H]]]).
  apply bind_ok_inv in H as [r [s [Hu H]]].
  unfold perform in Hu. injection Hu as <- <-.
  match type of H with
  | (if ?h then _ else _) _ = _ => destruct h eqn:E
  end; unfold ret in H; [|discriminate].
  injection H as <- <-. split; [exact E|reflexivity].
Qed.

Lemma searchFrom_ok suburb sels : forall (st : State W) u st',
  searchFrom B suburb sels st = (Ok u, st') ->
  looksLikeListingUrl u = true /\ u = url B (world st').
Proof.
  induction sels as [|sel rest IH]; intros st u st' H; cbn [searchFrom] in H.
  - discriminate.
  - apply bind_ok_inv in H as [found [s1 [_ H]]].
    destruct (negb found); [exact (IH _ _ _ H)|].
    apply bind_ok_inv in H as [returned [s2 [Ht H]]].
    destruct returned as [resolved|]; [|exact (IH _ _ _ H)].
    unfold ret in H. injection H as <- <-.
    unfold tryCatch in Ht.
    destruct (searchWith B suburb sel s1) as [[r|e] s3] eqn:Es.
    + injection Ht as -> ->. exact (searchWith_some _ _ _ _ _ Es).
    + discriminate.
Qed.

Lemma findListingUrlForSuburb_ok suburb (st : State W) u st' :
  truthy (cacheOf st) = false ->
  findListingUrlForSuburb B suburb st = (Ok u, st') ->
  looksLikeListingUrl u = true /\ u = url B (world st').
Proof.
  intros Hc H. unfold findListingUrlForSuburb in H.
  apply bind_ok_inv in H as [me [s0 [Hme H]]].
  unfold getSelf in Hme. injection Hme as <- <-.
  unfold cacheOf in Hc. rewrite Hc in H.
  apply bind_ok_inv in H as [? [? [_ H]]].
  apply bind_ok_inv in H as [? [? [_ H]]].
  exact (searchFrom_ok _ _ _ _ _ H).
Qed.

Hypothesis queries_answer :
  forall sel w, exists found w', query B sel w = (Ok found, w').
Hypothesis clicks_land :
  forall sel w, exists w', handleClick B sel w = (Ok tt, w').

Lemma searchFrom_throws suburb sels : forall (st : State W) e st',
  searchFrom B suburb sels st = (Throw e, st') ->
  e = js "Could not resolve listing URL for suburb: " ++ suburb.
Proof.
  induction sels as [|sel rest IH]; intros st e st' H; cbn [searchFrom] in H.
  - unfold throw in H. injection H as <- _. reflexivity.
  - apply bind_throw_inv in H as [H | [found [s1 [_ H]]]].
    + unfold perform in H.
      destruct (queries_answer sel (world st)) as [f [w' E]]. rewrite E in H.
      discriminate.
    + destruct (negb found); [exact (IH _ _ _ H)|].
      apply bind_throw_inv in H as [H | [returned [s2 [_ H]]]].
      * unfold tryCatch in H.
        destruct (searchWith B suburb sel s1) as [[r|e0] s3]; discriminate.
      * destruct returned; [discriminate|exact (IH _ _ _ H)].
Qed.

Lemma closeCookieBanner_returns : neverThrows (closeCookieBanner B).
Proof.
  intros st. unfold closeCookieBanner, bind at 1, perform at 1.
  destruct (queries_answer cookieButtonSelector (world st)) as [f [w' E]].
  rewrite E. destruct f.
  - unfold bind at 1, perform at 1.
    match goal with
    | |- context [handleClick B cookieButtonSelector ?w] =>
        destruct (clicks_land cookieButtonSelector w) as [w2 E2]; rewrite E2
    end.
    destruct (takeScreenshot_run W B (js "cookie-consent-closed")
                {| self := self st; world := w2;
                   calls := (calls st ++ [Query cookieButtonSelector])
                            ++ [HandleClick cookieButtonSelector] |})
      as [w3 E3].
    eexists. eexists. exact E3.
  - eexists. eexists. reflexivity.
Qed.

Lemma findListingUrlForSuburb_throws suburb (st : State W) e st' :
  findListingUrlForSuburb B suburb st = (Throw e, st') ->
  e = js "Failed to load Property24 homepage"
  \/ e = js "Could not resolve listing URL for suburb: " ++ suburb.
Proof.
  unfold findListingUrlForSuburb. intros H.
  apply bind_throw_inv in H as [H | [me [s0 [_ H]]]]; [discriminate|].
  destruct (truthy (listingUrlForSuburb me)); [discriminate|].
  apply bind_throw_inv in H as [H | [? [s1 [_ H]]]].
  - left. unfold tryCatch in H.
    match type of H with
    | match ?m with _ => _ end = _ => destruct m as [[a|e0] s1]
    end; [discriminate|].
    unfold throw in H. injection H as <- _. reflexivity.
  - apply bind_throw_inv in H as [H | [? [s2 [_ H]]]].
    + destruct (closeCookieBanner_returns s1) as [a [s' E]]. congruence.
    + right. exact (searchFrom_throws _ _ _ _ _ H).
Qed.

End ResolverFacts.

(** X10: a URL that [findListingUrlForSuburb]
    returns after a search is the address the page shows when the method
    returns, and it contains "/properties/", "for-sale" or "/p/" in some
    case. *)
Theorem resolved_url_passes_the_test :
  forall (W : Type) (B : Browser W) (suburb : jsstring) (st st' : State W)
         (resolved : jsstring),
    truthy (cacheOf st) = false ->
    findListingUrlForSuburb B suburb st = (Ok resolved, st') ->
    looksLikeListingUrl resolved = true /\ resolved = url B (world st').
Proof.
  intros W B suburb st st' resolved Hc H.
  exact (findListingUrlForSuburb_ok W B suburb st resolved st' Hc H).
Qed.

Lemma resolved_url_passes_the_test_witness :
  looksLikeListingUrl landingUrl = true
  /\ landingUrl
     = url site3
         (world (snd (findListingUrlForSuburb site3 (js "Sandton")
                        (launched site3 0)))).
Proof.
  refine (resolved_url_passes_the_test nat site3 (js "Sandton")
            (launched site3 0) _ landingUrl _ _).
  - reflexivity.
  - vm_compute. reflexivity.
Defined.

(** X11: on a browser whose element queries answer and on
    which a click on the cookie button lands, [findListingUrlForSuburb] throws
    one of two errors only: that the homepage failed to load, or that the
    listing URL of the suburb could not be resolved.  A failure inside a
    search attempt (focus, typing, the enter key, the search button) is not
    thrown: the next input is tried. *)
Theorem resolver_errors :
  forall (W : Type) (B : Browser W) (suburb : jsstring) (st st' : State W)
         (e : jsstring),
    (forall sel w, exists found w', query B sel w = (Ok found, w')) ->
    (forall sel w, exists w', handleClick B sel w = (Ok tt, w')) ->
    findListingUrlForSuburb B suburb st = (Throw e, st') ->
    e = js "Failed to load Property24 homepage"
    \/ e = js "Could not resolve listing URL for suburb: " ++ suburb.
Proof.
  intros W B suburb st st' e Hq Hc H.
  exact (findListingUrlForSuburb_throws W B Hq Hc suburb st e st' H).
Qed.

Lemma resolver_errors_witness :
  js "Could not resolve listing URL for suburb: Sandton"
  = js "Failed to load Property24 homepage"
  \/ js "Could not resolve listing URL for suburb: Sandton"
     = js "Could not resolve listing URL for suburb: " ++ js "Sandton".
Proof.
  refine (resolver_errors nat blankBrowser (js "Sandton")
            (launched blankBrowser 0) _ _ _ _ _).
  - intros sel w. eexists. eexists. reflexivity.
  - intros sel w. eexists. reflexivity.
  - vm_compute. reflexivity.
Defined.

(* ===================================================================== *)
(** ** What the inner methods leave alone *)
(* ===================================================================== *)

Lemma perform_inner (W : Type) A kind (c : Call) (op : W -> outcome A * W) :
  lifecycleKind kind -> isLifecycle c = false ->
  preserves (countCalls kind) (perform c op).
Proof.
  intros Hk Hc. apply perform_count.
  destruct (kind c) eqn:E; [|reflexivity].
  apply Hk in E. congruence.
Qed.

Lemma numbered_refl (W : Type) (st : State W) : numbered st st.
Proof.
  exists [], 0. rewrite app_nil_r, Nat.add_0_r. auto.
Qed.

Lemma shotNumbers_app t1 t2 :
  shotNumbers (t1 ++ t2) = shotNumbers t1 ++ shotNumbers t2.
Proof. unfold shotNumbers. apply flat_map_app. Qed.

Lemma numbered_trans (W : Type) (a b c : State W) :
  numbered a b -> numbered b c -> numbered a c.
Proof.
  intros [t1 [k1 [C1 [N1 S1]]]] [t2 [k2 [C2 [N2 S2]]]].
  exists (t1 ++ t2), (k1 + k2).
  rewrite C2, C1, N2, N1, shotNumbers_app, S1, S2, N1, seq_app.
  repeat split; [symmetry; apply app_assoc|lia|].
  f_equal. f_equal. lia.
Qed.

Lemma perform_numbered (W : Type) A (c : Call) (op : W -> outcome A * W) :
  isScreenshot c = false -> respects numbered (perform c op).
Proof.
  intros Hc st. unfold perform. destruct (op (world st)) as [r w'].
  exists [c], 0. cbn [snd calls self]. rewrite Nat.add_0_r.
  repeat split. destruct c; try reflexivity. discriminate.
Qed.

Lemma takeScreenshot_numbered (W : Type) (B : Browser W) label :
  respects numbered (takeScreenshot B label).
Proof.
  intros st. destruct (takeScreenshot_run W B label st) as [w' ->].
  exists [Screenshot (screenshotCounter (self st) + 1) label], 1.
  repeat split.
Qed.

Ltac inner_step :=
  match goal with
  | H : lifecycleKind ?k |- preserves (countCalls ?k) (perform _ _) =>
      apply (perform_inner _ _ _ _ _ H); reflexivity
  | |- preserves (countCalls _) (setSelf _) => apply setSelf_count
  | |- respects numbered (perform _ _) => apply perform_numbered; reflexivity
  | |- respects _ _ => respects_step
  | _ => keeps_step
  end.

Section InnerFacts.

Variable W : Type.
Variable B : Browser W.
Variable host : jsstring -> Date.

(** The loop keeps every relation that its two steps keep. *)
Lemma respects_paginationLoop (R : State W -> State W -> Prop)
  (R_refl : forall st, R st st)
  (R_trans : forall a b c, R a b -> R b c -> R a c)
  (HE : respects R (extractProperties B host))
  (HG : forall n, respects R (goToNextPage B n)) k :
  forall n all, pagesLeft n <= k -> respects R (paginationLoop B host n all).
Proof.
  induction k as [|k IH]; intros n all Hk st.
  - rewrite paginationLoop_over by (unfold pagesLeft, maxPages in *; lia).
    apply R_refl.
  - destruct (le_dec n maxPages) as [L|L].
    + pose proof (pagesLeft_next n L) as Hn.
      pose proof (HE st) as X.
      destruct (paginationLoop_cases W B host n all st L)
        as [[e [st1 [E R1]]] | [[rs [st1 [st2 [E [G R1]]]]] | [rs [st1 [st2 [E [G R1]]]]]]];
        rewrite R1; rewrite E in X; cbn [snd] in X;
        try (pose proof (HG n st1) as Y; rewrite G in Y; cbn [snd] in Y).
      * exact X.
      * exact (R_trans _ _ _ X Y).
      * refine (R_trans _ _ _ (R_trans _ _ _ X Y) _).
        apply IH. lia.
    + rewrite paginationLoop_over by lia. apply R_refl.
Qed.

Section Lifecycle.

Variable kind : Call -> bool.
Hypothesis kind_lifecycle : lifecycleKind kind.

Lemma takeScreenshot_inner label :
  preserves (countCalls kind) (takeScreenshot B label).
Proof.
  apply takeScreenshot_count. intros n l.
  destruct (kind (Screenshot n l)) eqn:E; [|reflexivity].
  apply kind_lifecycle in E. discriminate.
Qed.

Hint Resolve takeScreenshot_inner : keeps.

Lemma closeCookieBanner_inner : preserves (countCalls kind) (closeCookieBanner B).
Proof. unfold closeCookieBanner. repeat inner_step. Qed.

Lemma searchWith_inner suburb sel :
  preserves (countCalls kind) (searchWith B suburb sel).
Proof. unfold searchWith. repeat inner_step. Qed.

Hint Resolve closeCookieBanner_inner searchWith_inner : keeps.

Lemma searchFrom_inner suburb sels :
  preserves (countCalls kind) (searchFrom B suburb sels).
Proof.
  induction sels as [|sel rest IH]; cbn [searchFrom]; repeat inner_step.
Qed.

Hint Resolve searchFrom_inner : keeps.

Lemma findListingUrlForSuburb_inner suburb :
  preserves (countCalls kind) (findListingUrlForSuburb B suburb).
Proof. unfold findListingUrlForSuburb. repeat inner_step. Qed.

Lemma goToNextPageFrom_inner sels n :
  preserves (countCalls kind) (goToNextPageFrom B sels n).
Proof.
  induction sels as [|sel rest IH]; cbn [goToNextPageFrom]; repeat inner_step.
Qed.

Lemma goToNextPage_inner n : preserves (countCalls kind) (goToNextPage B n).
Proof.
  unfold goToNextPage. repeat inner_step. apply goToNextPageFrom_inner.
Qed.

Lemma extractProperties_inner :
  preserves (countCalls kind) (extractProperties B host).
Proof. unfold extractProperties. repeat inner_step. Qed.

Lemma pagination_inner :
  preserves (countCalls kind) (extractPropertiesWithPagination B host).
Proof.
  unfold extractPropertiesWithPagination.
  apply (respects_paginationLoop
           (fun a b => countCalls kind b = countCalls kind a)
           (fun st => eq_refl)
           (fun a b c H1 H2 => eq_trans H2 H1)
           extractProperties_inner goToNextPage_inner (pagesLeft 1) 1 []
           (le_n _)).
Qed.

Hint Resolve findListingUrlForSuburb_inner pagination_inner : keeps.

Lemma loadListing_inner me searchUrl :
  preserves (countCalls kind) (loadListing B me searchUrl).
Proof. unfold loadListing. repeat inner_step. Qed.

Hint Resolve loadListing_inner : keeps.

Lemma scrapeListing_inner me errs searchUrl :
  preserves (countCalls kind) (scrapeListing B host me errs searchUrl).
Proof. unfold scrapeListing. repeat inner_step. Qed.

End Lifecycle.

(** *** Screenshot numbers *)

Hint Resolve takeScreenshot_numbered : keeps.

Ltac numbered_auto :=
  pose proof (@numbered_refl W) as R_refl;
  pose proof (@numbered_trans W) as R_trans;
  repeat inner_step.

Lemma closeCookieBanner_numbered : respects numbered (closeCookieBanner B).
Proof. unfold closeCookieBanner. numbered_auto. Qed.

Lemma searchWith_numbered suburb sel :
  respects numbered (searchWith B suburb sel).
Proof. unfold searchWith. numbered_auto. Qed.

Hint Resolve closeCookieBanner_numbered searchWith_numbered : keeps.

Lemma searchFrom_numbered suburb sels :
  respects numbered (searchFrom B suburb sels).
Proof.
  induction sels as [|sel rest IH]; cbn [searchFrom]; numbered_auto.
Qed.

Hint Resolve searchFrom_numbered : keeps.

Lemma findListingUrlForSuburb_numbered suburb :
  respects numbered (findListingUrlForSuburb B suburb).
Proof. unfold findListingUrlForSuburb. numbered_auto. Qed.

Lemma goToNextPageFrom_numbered sels n :
  respects numbered (goToNextPageFrom B sels n).
Proof.
  induction sels as [|sel rest IH]; cbn [goToNextPageFrom]; numbered_auto.
Qed.

Hint Resolve goToNextPageFrom_numbered : keeps.

Lemma goToNextPage_numbered n : respects numbered (goToNextPage B n).
Proof. unfold goToNextPage. numbered_auto. Qed.

Lemma extractProperties_numbered :
  respects numbered (extractProperties B host).
Proof. unfold extractProperties. numbered_auto. Qed.

Lemma pagination_numbered :
  respects numbered (extractPropertiesWithPagination B host).
Proof.
  unfold extractPropertiesWithPagination.
  apply (respects_paginationLoop numbered (@numbered_refl W)
           (@numbered_trans W) extractProperties_numbered
           goToNextPage_numbered (pagesLeft 1) 1 [] (le_n _)).
Qed.

Hint Resolve findListingUrlForSuburb_numbered pagination_numbered : keeps.

Lemma scrapeSuburb_numbered : respects numbered (scrapeSuburb B host).
Proof.
  unfold scrapeSuburb, scrapeBody, scrapeListing, loadListing.
  numbered_auto.
Qed.

End InnerFacts.

(** X12: the screenshots of a run of [scrapeSuburb] are
    numbered one after the other from the counter of the instance: no number
    is used twice, none is skipped, whether the screenshots could be written
    or not, and the counter ends on the last number. *)
Theorem screenshots_numbered :
  forall (W : Type) (B : Browser W) (host : jsstring -> Date) (st : State W),
    exists added k,
      calls (snd (scrapeSuburb B host st)) = calls st ++ added
      /\ screenshotCounter (self (snd (scrapeSuburb B host st)))
         = screenshotCounter (self st) + k
      /\ shotNumbers added = seq (screenshotCounter (self st) + 1) k.
Proof. intros W B host st. exact (scrapeSuburb_numbered W B host st). Qed.

(* ===================================================================== *)
(** ** The run: the page and the browser *)
(* ===================================================================== *)

Lemma isPageClose_lifecycle : lifecycleKind isPageClose.
Proof. intros c. destruct c; simpl; congruence. Qed.

Lemma isNewPage_lifecycle : lifecycleKind isNewPage.
Proof. intros c. destruct c; simpl; congruence. Qed.

Lemma isBrowserClose_lifecycle : lifecycleKind isBrowserClose.
Proof. intros c. destruct c; simpl; congruence. Qed.

Section PageFacts.

Variable W : Type.
Variable B : Browser W.
Variable host : jsstring -> Date.

Local Abbreviation closes := (countCalls isPageClose).
Local Abbreviation opens := (countCalls isNewPage).

(** The pages [scrapeBody] opens and closes, from the outcome of the
    resolver. *)
Lemma scrapeBody_pages errs (st : State W) r st' :
  scrapeBody B host errs st = (r, st') ->
  (browser (self st) = false /\ st' = st)
  \/ (browser (self st) = true /\
      exists r1 s1, perform NewPage (newPage B) st = (r1, s1) /\
        ((exists e, r1 = Throw e
                    /\ closes st' = closes st /\ opens st' = opens st + 1)
         \/ (r1 = Ok tt /\
             exists r2 s2,
               findListingUrlForSuburb B
                 (ScraperOptions.suburb (options (self st))) s1 = (r2, s2)
               /\ opens st' = opens st + 1
               /\ ((exists e, r2 = Throw e) /\ closes st' = closes st
                   \/ (exists u, r2 = Ok u) /\ closes st' = closes st + 1)))).
Proof.
  intros H. unfold scrapeBody in H. unfold bind at 1 in H.
  unfold getSelf at 1 in H. unfold bind at 1 in H.
  destruct (browser (self st)) eqn:Hb; cbn [negb] in H.
  2:{ unfold throw in H. injection H as _ <-. left. auto. }
  right. split; [reflexivity|].
  unfold ret at 1 in H. unfold bind at 1 in H.
  pose proof (perform_counted isNewPage NewPage (newPage B) st eq_refl) as O1.
  pose proof (perform_count isPageClose NewPage (newPage B) eq_refl st) as C1.
  destruct (perform NewPage (newPage B) st) as [[[]|e] s1] eqn:EN;
    cbn [snd] in O1, C1; eexists; eexists; (split; [reflexivity|]).
  2:{ injection H as _ <-. left. exists e. auto. }
  right. split; [reflexivity|]. unfold bind in H.
  pose proof (findListingUrlForSuburb_inner W B isPageClose
                isPageClose_lifecycle
                (ScraperOptions.suburb (options (self st))) s1) as C2.
  pose proof (findListingUrlForSuburb_inner W B isNewPage
                isNewPage_lifecycle
                (ScraperOptions.suburb (options (self st))) s1) as O2.
  destruct (findListingUrlForSuburb B
              (ScraperOptions.suburb (options (self st))) s1)
    as [[u|e] s2] eqn:EF; cbn [snd] in C2, O2;
    eexists; eexists; (split; [reflexivity|]).
  2:{ injection H as _ <-. split; [lia|]. left. split; [eauto|lia]. }
  unfold tryFinally in H.
  pose proof (scrapeListing_inner W B host isPageClose isPageClose_lifecycle
                (self st) errs u s2) as C3.
  pose proof (scrapeListing_inner W B host isNewPage isNewPage_lifecycle
                (self st) errs u s2) as O3.
  destruct (scrapeListing B host (self st) errs u s2) as [rl s3].
  cbn [snd] in C3, O3.
  pose proof (perform_counted isPageClose PageClose (pageClose B) s3 eq_refl)
    as C4.
  pose proof (perform_count isNewPage PageClose (pageClose B) eq_refl s3)
    as O4.
  destruct (perform PageClose (pageClose B) s3) as [[[]|e] s4];
    cbn [snd] in C4, O4; injection H as _ <-;
    (split; [lia|]); right; (split; [eauto|lia]).
Qed.

End PageFacts.

(** X13: in a run of [scrapeSuburb] that opened its
    page, the page is closed exactly once when the location was resolved,
    however the run goes on from there, and it is not closed at all when
    resolving the location threw: that page stays open. *)
Theorem page_closed_once_resolved :
  forall (W : Type) (B : Browser W) (host : jsstring -> Date)
         (st s1 s2 : State W) (resolution : outcome jsstring),
    browser (self st) = true ->
    perform NewPage (newPage B) st = (Ok tt, s1) ->
    findListingUrlForSuburb B (ScraperOptions.suburb (options (self st))) s1
    = (resolution, s2) ->
    countCalls isNewPage (snd (scrapeSuburb B host st))
    = countCalls isNewPage st + 1
    /\ countCalls isPageClose (snd (scrapeSuburb B host st))
       = countCalls isPageClose st
         + match resolution with Ok _ => 1 | Throw _ => 0 end.
Proof.
  intros W B host st s1 s2 resolution Hb Hn Hf.
  destruct (scrapeBody B host [] st) as [rb sb] eqn:Eb.
  assert (E : snd (scrapeSuburb B host st) = sb).
  { unfold scrapeSuburb, tryCatch. rewrite Eb. destruct rb; reflexivity. }
  rewrite E.
  destruct (scrapeBody_pages W B host [] st rb sb Eb)
    as [[Hb' _] | [_ [r1 [s1' [Hn' H]]]]]; [congruence|].
  rewrite Hn in Hn'. injection Hn' as <- <-.
  destruct H as [[e [He _]] | [_ [r2 [s2' [Hf' [O H]]]]]]; [discriminate|].
  rewrite Hf in Hf'. injection Hf' as <- <-.
  split; [exact O|].
  destruct H as [[[e ->] C] | [[u ->] C]]; rewrite C; lia.
Qed.

Lemma page_closed_once_resolved_witness :
  countCalls isPageClose
    (snd (scrapeSuburb site3 strictHost (launched site3 0))) = 1
  /\ countCalls isPageClose
       (snd (scrapeSuburb blankBrowser strictHost (launched blankBrowser 0)))
     = 0.
Proof.
  split.
  - refine (eq_trans
              (proj2 (page_closed_once_resolved nat site3 strictHost
                        (launched site3 0) _ _ _ eq_refl eq_refl
                        (surjective_pairing _)))
              _).
    vm_compute. reflexivity.
  - refine (eq_trans
              (proj2 (page_closed_once_resolved nat blankBrowser strictHost
                        (launched blankBrowser 0) _ _ _ eq_refl eq_refl
                        (surjective_pairing _)))
              _).
    vm_compute. reflexivity.
Defined.

(** *** [init] and [close] *)

Lemma init_run (W : Type) (B : Browser W) (st : State W) :
  let h := match ScraperOptions.headless (options (self st)) with
           | Some h => h
           | None => true
           end in
  init B st
  = match launch B h (world st) with
    | (Ok _, w') =>
        (Ok tt, {| self := withBrowser (self st) true; world := w';
                   calls := calls st ++ [Launch h] |})
    | (Throw e, w') =>
        (Throw e, {| self := self st; world := w';
                     calls := calls st ++ [Launch h] |})
    end.
Proof.
  cbv zeta. unfold init, tryCatch, bind, getSelf, setSelf, perform, throw.
  cbn [self world calls].
  destruct (launch B _ (world st)) as [[[]|e] w']; reflexivity.
Qed.

(** X14: when the browser cannot be launched,
    [init] throws the error of the launch unchanged and leaves the instance as
    it was; a [scrapeSuburb] after that calls nothing and returns the failure
    result, with no record and the one error "Browser not initialized", and
    [close] calls nothing. *)
Theorem failed_launch_is_reported :
  forall (W : Type) (B : Browser W) (host : jsstring -> Date)
         (st st1 : State W) (e : jsstring),
    browser (self st) = false ->
    init B st = (Throw e, st1) ->
    (exists headless w', launch B headless (world st) = (Throw e, w'))
    /\ self st1 = self st
    /\ (exists r,
          scrapeSuburb B host st1 = (Ok r, st1)
          /\ success r = false /\ propertiesScraped r = 0
          /\ properties r = Some []
          /\ errors r = [js "Browser not initialized"])
    /\ close B st1 = (Ok tt, st1).
Proof.
  intros W B host st st1 e Hb H.
  rewrite init_run in H. cbv zeta in H.
  destruct (launch B _ (world st)) as [[[]|e0] w'] eqn:El; [discriminate|].
  injection H as He Hst. subst e0.
  assert (Hself : self st1 = self st) by (rewrite <- Hst; reflexivity).
  assert (Hb1 : browser (self st1) = false) by (rewrite Hself; exact Hb).
  split; [eexists; eexists; exact El|]. split; [exact Hself|].
  split.
  - destruct (scrapeSuburb_not_initialized W B host st1 Hb1)
      as [r [E [[S [N [P _]]] Er]]].
    exists r. auto.
  - unfold close, bind, getSelf. rewrite Hb1. reflexivity.
Qed.

Lemma failed_launch_is_reported_witness :
  exists r,
    scrapeSuburb deadBrowser strictHost (snd (init deadBrowser (fresh 0)))
    = (Ok r, snd (init deadBrowser (fresh 0)))
    /\ success r = false /\ propertiesScraped r = 0
    /\ properties r = Some []
    /\ errors r = [js "Browser not initialized"].
Proof.
  refine (proj1 (proj2 (proj2
            (failed_launch_is_reported nat deadBrowser strictHost (fresh 0)
               (snd (init deadBrowser (fresh 0)))
               (js "Failed to launch the browser process") _ _)))).
  - reflexivity.
  - vm_compute. reflexivity.
Defined.

(* ===================================================================== *)
(** ** The instance over a run *)
(* ===================================================================== *)

Lemma perform_settings (W : Type) A (c : Call) (op : W -> outcome A * W) :
  preserves settings (perform c op).
Proof.
  intros st. unfold perform. destruct (op (world st)) as [r w']. reflexivity.
Qed.

Lemma takeScreenshot_settings (W : Type) (B : Browser W) label :
  preserves settings (takeScreenshot B label).
Proof.
  intros st. destruct (takeScreenshot_run W B label st) as [w' ->].
  reflexivity.
Qed.

Ltac settings_step :=
  match goal with
  | |- preserves settings (perform _ _) => apply perform_settings
  | _ => keeps_step
  end.

Section SettingsFacts.

Variable W : Type.
Variable B : Browser W.
Variable host : jsstring -> Date.

Hint Resolve takeScreenshot_settings : keeps.

Lemma closeCookieBanner_settings : preserves settings (closeCookieBanner B).
Proof. unfold closeCookieBanner. repeat settings_step. Qed.

Lemma searchWith_settings suburb sel :
  preserves settings (searchWith B suburb sel).
Proof. unfold searchWith. repeat settings_step. Qed.

Hint Resolve closeCookieBanner_settings searchWith_settings : keeps.

Lemma searchFrom_settings suburb sels :
  preserves settings (searchFrom B suburb sels).
Proof.
  induction sels as [|sel rest IH]; cbn [searchFrom]; repeat settings_step.
Qed.

Hint Resolve searchFrom_settings : keeps.

Lemma findListingUrlForSuburb_settings suburb :
  preserves settings (findListingUrlForSuburb B suburb).
Proof. unfold findListingUrlForSuburb. repeat settings_step. Qed.

Lemma goToNextPageFrom_settings sels n :
  preserves settings (goToNextPageFrom B sels n).
Proof.
  induction sels as [|sel rest IH]; cbn [goToNextPageFrom];
    repeat settings_step.
Qed.

Hint Resolve goToNextPageFrom_settings : keeps.

Lemma goToNextPage_settings n : preserves settings (goToNextPage B n).
Proof. unfold goToNextPage. repeat settings_step. Qed.

Lemma extractProperties_settings :
  preserves settings (extractProperties B host).
Proof. unfold extractProperties. repeat settings_step. Qed.

Lemma pagination_settings :
  preserves settings (extractPropertiesWithPagination B host).
Proof.
  unfold extractPropertiesWithPagination.
  apply (respects_paginationLoop W B host
           (fun a b => settings b = settings a)
           (fun st => eq_refl)
           (fun a b c H1 H2 => eq_trans H2 H1)
           extractProperties_settings goToNextPage_settings (pagesLeft 1) 1 []
           (le_n _)).
Qed.

Hint Resolve findListingUrlForSuburb_settings pagination_settings : keeps.

Lemma scrapeSuburb_settings : preserves settings (scrapeSuburb B host).
Proof.
  unfold scrapeSuburb, scrapeBody, scrapeListing, loadListing.
  repeat settings_step.
Qed.

End SettingsFacts.

(** X15: a run of [scrapeSuburb] changes nothing of the
    instance but the screenshot counter, which never goes down: the browser
    it holds, its options and its cached listing URL are the same after the
    run as before, whatever the browser answered. *)
Theorem run_keeps_instance :
  forall (W : Type) (B : Browser W) (host : jsstring -> Date) (st : State W),
    browser (self (snd (scrapeSuburb B host st))) = browser (self st)
    /\ options (self (snd (scrapeSuburb B host st))) = options (self st)
    /\ listingUrlForSuburb (self (snd (scrapeSuburb B host st)))
       = listingUrlForSuburb (self st)
    /\ screenshotCounter (self st)
       <= screenshotCounter (self (snd (scrapeSuburb B host st))).
Proof.
  intros W B host st.
  pose proof (scrapeSuburb_settings W B host st) as H.
  destruct (scrapeSuburb_numbered W B host st) as [added [k [_ [N _]]]].
  unfold settings, withScreenshotCounter in H.
  injection H as Hb Ho Hc.
  repeat split; [exact Hb|exact Ho|exact Hc|lia].
Qed.

(* ===================================================================== *)
(** ** The command *)
(* ===================================================================== *)

Lemma scrapeSuburb_closes_no_browser (W : Type) (B : Browser W)
    (host : jsstring -> Date) :
  preserves (countCalls isBrowserClose) (scrapeSuburb B host).
Proof.
  pose proof (findListingUrlForSuburb_inner W B isBrowserClose
                isBrowserClose_lifecycle) as HF.
  pose proof (scrapeListing_inner W B host isBrowserClose
                isBrowserClose_lifecycle) as HL.
  unfold scrapeSuburb, scrapeBody. repeat count_step.
Qed.

(** The two shapes of a result, as far as the command reads it. *)
Lemma scrapeSuburb_shape (W : Type) (B : Browser W) (host : jsstring -> Date)
    (st : State W) :
  exists r st' ps,
    scrapeSuburb B host st = (Ok r, st')
    /\ properties r = Some ps /\ propertiesScraped r = length ps
    /\ (success r = false -> ps = []).
Proof.
  unfold scrapeSuburb, tryCatch.
  destruct (scrapeBody B host [] st) as [[r|e] st'] eqn:E.
  - destruct (scrapeBody_cases W B host [] st (Ok r) st' E)
      as [[e [X _]] | [_ [[ps [res [X [S [N [P _]]]]]] | [e [X _]]]]];
      try discriminate.
    injection X as <-. exists r, st', ps. rewrite S.
    repeat split; auto. discriminate.
  - eexists; eexists; exists []. repeat split.
Qed.

Section CommandFacts.

Variable W : Type.
Variable B : Browser W.
Variable D : Store W.
Variable host : jsstring -> Date.

Lemma onStore_run A (op : W -> outcome A * W) (st : State W) :
  Index.onStore op st
  = (fst (op (world st)),
     {| self := self st; world := snd (op (world st)); calls := calls st |}).
Proof. unfold Index.onStore. destruct (op (world st)); reflexivity. Qed.

Lemma saveProperties_step p ps n (st : State W) :
  Index.saveProperties D (p :: ps) n st
  = Index.saveProperties D ps
      (if isOk (fst (insertProperty D p (world st))) then n + 1 else n)
      {| self := self st; world := snd (insertProperty D p (world st));
         calls := calls st |}.
Proof.
  cbn [Index.saveProperties]. unfold bind at 1. unfold tryCatch, bind, ret.
  rewrite onStore_run.
  destruct (insertProperty D p (world st)) as [[[]|e] w']; reflexivity.
Qed.

(** The loop never throws, counts no more than the records it was given, and
    leaves the instance and the trace alone. *)
Lemma saveProperties_run ps : forall n (st : State W),
  exists k st',
    Index.saveProperties D ps n st = (Ok (n + k), st')
    /\ k <= length ps /\ calls st' = calls st /\ self st' = self st.
Proof.
  induction ps as [|p ps IH]; intros n st.
  - exists 0, st. cbn. unfold ret. rewrite Nat.add_0_r. auto.
  - rewrite saveProperties_step.
    destruct (isOk (fst (insertProperty D p (world st))));
      match goal with
      | |- context [Index.saveProperties D ps ?m ?s] =>
          destruct (IH m s) as [k [st' [E [L [C S]]]]]
      end; rewrite E; cbn [calls self length] in *.
    + exists (k + 1), st'. repeat split; auto; [f_equal; f_equal; lia|lia].
    + exists k, st'. repeat split; auto.
Qed.

(** What it counts are the records the store took. *)
Lemma saveProperties_accepted (accepts : Property -> bool) ps :
  (forall p w, In p ps -> isOk (fst (insertProperty D p w)) = accepts p) ->
  forall n (st : State W),
    exists st',
      Index.saveProperties D ps n st
      = (Ok (n + length (filter accepts ps)), st').
Proof.
  induction ps as [|p ps IH]; intros H n st.
  - exists st. cbn. unfold ret. rewrite Nat.add_0_r. reflexivity.
  - rewrite saveProperties_step. rewrite (H p _ (or_introl eq_refl)).
    cbn [filter].
    destruct (accepts p);
      match goal with
      | |- context [Index.saveProperties D ps ?m ?s] =>
          destruct (IH (fun q w I => H q w (or_intror I)) m s) as [st' E]
      end; rewrite E; exists st'; cbn [length]; f_equal; f_equal; lia.
Qed.

End CommandFacts.

Section CommandRun.

Variable W : Type.
Variable B : Browser W.
Variable D : Store W.
Variable host : jsstring -> Date.

Lemma launch_closes_nothing (st : State W) me (w : W) h :
  countCalls isBrowserClose
    {| self := me; world := w; calls := calls st ++ [Launch h] |}
  = countCalls isBrowserClose st.
Proof.
  unfold countCalls. cbn [calls]. rewrite filter_app, length_app.
  cbn. lia.
Qed.

(** The three ways through the command. *)
Lemma command_cases suburb headless timeout (st : State W) :
  let h := match headless with Some b => b | None => true end in
  let me := newScraper {| ScraperOptions.suburb := suburb;
                          ScraperOptions.headless := headless;
                          ScraperOptions.timeout := timeout |} in
  exists ending st',
    Index.scrapeSuburb B D host suburb headless timeout st = (Ok ending, st')
    /\ ((exists e w',
           connectDB D (world st) = (Throw e, w')
           /\ ending = Exit1 None /\ calls st' = calls st /\ world st' = w')
        \/ (exists w1 e w2,
              connectDB D (world st) = (Ok tt, w1)
              /\ launch B h w1 = (Throw e, w2)
              /\ ending = Exit1 None
              /\ calls st' = calls st ++ [Launch h] /\ world st' = w2)
        \/ (exists w1 w2 r s3 report,
              connectDB D (world st) = (Ok tt, w1)
              /\ launch B h w1 = (Ok tt, w2)
              /\ scrapeSuburb B host
                   {| self := withBrowser me true; world := w2;
                      calls := calls st ++ [Launch h] |} = (Ok r, s3)
              /\ found report = propertiesScraped r
              /\ shownErrors report = errors r
              /\ saved report <= found report
              /\ (success r = false -> saved report = 0 /\ found report = 0)
              /\ countCalls isBrowserClose st'
                 = countCalls isBrowserClose st + 1
              /\ (ending = Returned report \/ ending = Exit1 (Some report))
              /\ ((forall w, isOk (fst (browserClose B w)) = true) ->
                  (forall w, isOk (fst (closeDB D w)) = true) ->
                  ending = Returned report))).
Proof.
  cbv zeta. unfold Index.scrapeSuburb.
  unfold tryCatch at 1. unfold bind at 1. rewrite onStore_run.
  destruct (connectDB D (world st)) as [[[]|e] w1] eqn:EC; cbn [fst snd].
  2:{ eexists; eexists; split; [reflexivity|]. left. exists e, w1. auto. }
  unfold bind at 1. unfold setSelf at 1. unfold bind at 1.
  rewrite init_run. cbv zeta. cbn [self world calls].
  set (h := match headless with Some b => b | None => true end).
  assert (Hh : match ScraperOptions.headless
                       (options
                          (newScraper
                             {| ScraperOptions.suburb := suburb;
                                ScraperOptions.headless := headless;
                                ScraperOptions.timeout := timeout |})) with
               | Some b => b
               | None => true
               end = h) by (destruct headless; reflexivity).
  rewrite Hh. clear Hh.
  destruct (launch B h w1) as [[[]|e] w2] eqn:EL.
  2:{ eexists; eexists; split; [reflexivity|]. right. left.
      exists w1, e, w2. auto. }
  set (s2 := {| self := withBrowser _ true; world := w2;
                calls := calls st ++ [Launch h] |}).
  destruct (scrapeSuburb_shape W B host s2) as [r [s3 [ps [ER [P [N F]]]]]].
  pose proof (scrapeSuburb_settings W B host s2) as HS.
  pose proof (scrapeSuburb_closes_no_browser W B host s2) as HC.
  rewrite ER in HS, HC. cbn [snd] in HS, HC.
  assert (Hb : browser (self s3) = true).
  { change (browser (settings s3) = true). rewrite HS. reflexivity. }
  unfold s2 in HC. rewrite launch_closes_nothing in HC.
  unfold bind at 1. rewrite ER. unfold bind at 1.
  assert (HSave : exists k s4,
             match properties r with
             | Some ((_ :: _) as ps) => Index.saveProperties D ps 0
             | _ => ret 0
             end s3 = (Ok k, s4)
             /\ k <= length ps /\ (ps = [] -> k = 0)
             /\ calls s4 = calls s3 /\ self s4 = self s3).
  { rewrite P. destruct ps as [|p ps].
    - exists 0, s3. repeat split; auto.
    - destruct (saveProperties_run W D (p :: ps) 0 s3)
        as [k [s4 [E [L [C S]]]]].
      exists k, s4. cbn [Nat.add] in E. repeat split; auto. discriminate. }
  destruct HSave as [k [s4 [ES [Lk [Z0 [C4 S4]]]]]].
  rewrite ES. cbv zeta.
  set (report := {| found := propertiesScraped r; saved := k;
                    shownErrors := errors r |}).
  assert (Facts : found report = propertiesScraped r
                  /\ shownErrors report = errors r
                  /\ saved report <= found report
                  /\ (success r = false -> saved report = 0 /\ found report = 0)).
  { unfold report. cbn [found saved shownErrors]. rewrite N.
    split; [reflexivity|]. split; [reflexivity|]. split; [exact Lk|].
    intros Hf. pose proof (F Hf) as E0. subst ps.
    split; [apply Z0; reflexivity|reflexivity]. }
  unfold tryCatch at 1. unfold bind at 1. unfold close, bind at 1.
  unfold getSelf at 1. rewrite S4, Hb.
  pose proof (perform_counted isBrowserClose BrowserClose (browserClose B) s4
                eq_refl) as HP.
  unfold perform in HP |- *.
  destruct (browserClose B (world s4)) as [[[]|e] w5] eqn:EB; cbn [snd] in HP.
  - unfold bind at 1. rewrite onStore_run. cbn [self world calls fst snd].
    destruct (closeDB D w5) as [[[]|e] w6] eqn:ED; cbn [fst snd];
      eexists; eexists; (split; [reflexivity|]); right; right;
      exists w1, w2, r, s3, report;
      (split; [reflexivity|]); (split; [exact EL|]); (split; [exact ER|]);
      destruct Facts as [F1 [F2 [F3 F4]]];
      (split; [exact F1|]); (split; [exact F2|]); (split; [exact F3|]);
      (split; [exact F4|]);
      (split; [unfold countCalls in *; cbn [calls] in *; rewrite HP, C4; lia|]).
    + split; [left; reflexivity|]. reflexivity.
    + split; [right; reflexivity|]. intros _ H. specialize (H w5).
      rewrite ED in H. discriminate.
  - eexists; eexists; (split; [reflexivity|]); right; right.
    exists w1, w2, r, s3, report.
    split; [reflexivity|]. split; [exact EL|]. split; [exact ER|].
    destruct Facts as [F1 [F2 [F3 F4]]].
    split; [exact F1|]. split; [exact F2|]. split; [exact F3|].
    split; [exact F4|].
    split; [unfold countCalls in *; cbn [calls] in *; rewrite HP, C4; lia|].
    split; [right; reflexivity|]. intros H _. specialize (H (world s4)).
    rewrite EB in H. discriminate.
Qed.

End CommandRun.

(** X16: the command [scrape] never lets an error
    escape: it returns after its report or leaves with exit status 1.  When a
    report was printed, the records saved are no more than the records found
    and the browser was asked to close exactly once; when the command left
    without a report, the browser was never asked to close. *)
Theorem command_never_throws :
  forall (W : Type) (B : Browser W) (D : Store W) (host : jsstring -> Date)
         (suburb : jsstring) (headless : option bool) (timeout : option N)
         (st : State W),
    exists ending st',
      Index.scrapeSuburb B D host suburb headless timeout st = (Ok ending, st')
      /\ match ending with
         | Returned report | Exit1 (Some report) =>
             saved report <= found report
             /\ countCalls isBrowserClose st'
                = countCalls isBrowserClose st + 1
         | Exit1 None =>
             countCalls isBrowserClose st' = countCalls isBrowserClose st
         end.
Proof.
  intros W B D host suburb headless timeout st.
  destruct (command_cases W B D host suburb headless timeout st)
    as [ending [st' [E H]]].
  exists ending, st'. split; [exact E|].
  destruct H as [[e [w' [_ [-> [C _]]]]]
                | [[w1 [e [w2 [_ [_ [-> [C _]]]]]]]
                  | [w1 [w2 [r [s3 [report
                       [_ [_ [_ [_ [_ [L [_ [C [[-> | ->] _]]]]]]]]]]]]]]]].
  - unfold countCalls. rewrite C. reflexivity.
  - unfold countCalls. rewrite C, filter_app, length_app. cbn. lia.
  - auto.
  - auto.
Qed.

(** X17: when the store cannot be reached the
    command leaves with exit status 1 and without a report, and the browser
    is not even launched; when the store is reached and the browser cannot
    be launched it leaves the same way, the launch being its one call on the
    browser. *)
Theorem command_exits_before_scraping :
  forall (W : Type) (B : Browser W) (D : Store W) (host : jsstring -> Date)
         (suburb : jsstring) (headless : option bool) (timeout : option N)
         (st : State W) (e : jsstring) (w1 w2 : W),
    connectDB D (world st) = (Throw e, w2)
    \/ (connectDB D (world st) = (Ok tt, w1)
        /\ launch B match headless with Some b => b | None => true end w1
           = (Throw e, w2)) ->
    exists st',
      Index.scrapeSuburb B D host suburb headless timeout st
      = (Ok (Exit1 None), st')
      /\ world st' = w2
      /\ (isOk (fst (connectDB D (world st))) = false /\ calls st' = calls st
          \/ isOk (fst (connectDB D (world st))) = true
             /\ calls st'
                = calls st
                  ++ [Launch match headless with Some b => b | None => true end]).
Proof.
  intros W B D host suburb headless timeout st e w1 w2 H.
  destruct (command_cases W B D host suburb headless timeout st)
    as [ending [st' [E X]]].
  exists st'.
  destruct X as [[e' [w' [EC [-> [C Hw]]]]]
                | [[w1' [e' [w2' [EC [EL [-> [C Hw]]]]]]]
                  | [w1' [w2' [r [s3 [report [EC [EL _]]]]]]]]].
  - destruct H as [H | [H _]]; rewrite H in EC; [|discriminate].
    injection EC as _ <-. split; [exact E|]. split; [exact Hw|].
    left. rewrite H. auto.
  - destruct H as [H | [H1 H2]]; rewrite ?H, ?H1 in EC; [discriminate|].
    injection EC as <-. rewrite H2 in EL. injection EL as _ <-.
    split; [exact E|]. split; [exact Hw|]. right. rewrite H1. auto.
  - destruct H as [H | [H1 H2]]; rewrite ?H, ?H1 in EC; [discriminate|].
    injection EC as <-. rewrite H2 in EL. discriminate.
Qed.

Lemma command_exits_before_scraping_witness :
  (exists st',
     Index.scrapeSuburb site3 unreachableStore strictHost (js "Sandton")
       None None (fresh 0) = (Ok (Exit1 None), st')
     /\ world st' = 0
     /\ (isOk (fst (connectDB unreachableStore 0)) = false /\ calls st' = []
         \/ isOk (fst (connectDB unreachableStore 0)) = true
            /\ calls st' = [] ++ [Launch true]))
  /\ (exists st',
        Index.scrapeSuburb deadBrowser (choosyStore hasStreet) strictHost
          (js "Sandton") None None (fresh 0) = (Ok (Exit1 None), st')
        /\ world st' = 0
        /\ (isOk (fst (connectDB (choosyStore hasStreet) 0)) = false
            /\ calls st' = []
            \/ isOk (fst (connectDB (choosyStore hasStreet) 0)) = true
               /\ calls st' = [] ++ [Launch true])).
Proof.
  split.
  - apply (command_exits_before_scraping nat site3 unreachableStore strictHost
             (js "Sandton") None None (fresh 0) (js "connect ECONNREFUSED")
             0 0).
    left. reflexivity.
  - apply (command_exits_before_scraping nat deadBrowser
             (choosyStore hasStreet) strictHost (js "Sandton") None None
             (fresh 0) (js "Failed to launch the browser process") 0 0).
    right. split; reflexivity.
Defined.

(** X18: a scrape that failed is not a failed
    command.  Once the store is reached and the browser launched, a failure
    result of [scrapeSuburb] is reported as 0 found, 0 saved and the errors
    of the result, nothing is saved, and the command returns without
    [process.exit(1)], provided the browser and the store close. *)
Theorem failed_scrape_still_returns :
  forall (W : Type) (B : Browser W) (D : Store W) (host : jsstring -> Date)
         (suburb : jsstring) (headless : option bool) (timeout : option N)
         (st : State W) (w1 w2 : W) (r : ScraperResult) (s3 : State W),
    connectDB D (world st) = (Ok tt, w1) ->
    launch B match headless with Some b => b | None => true end w1
    = (Ok tt, w2) ->
    scrapeSuburb B host
      {| self := withBrowser
                   (newScraper {| ScraperOptions.suburb := suburb;
                                  ScraperOptions.headless := headless;
                                  ScraperOptions.timeout := timeout |}) true;
         world := w2;
         calls := calls st
                  ++ [Launch match headless with Some b => b | None => true end]
      |} = (Ok r, s3) ->
    success r = false ->
    (forall w, isOk (fst (browserClose B w)) = true) ->
    (forall w, isOk (fst (closeDB D w)) = true) ->
    exists st',
      Index.scrapeSuburb B D host suburb headless timeout st
      = (Ok (Returned {| found := 0; saved := 0; shownErrors := errors r |}),
         st').
Proof.
  intros W B D host suburb headless timeout st w1 w2 r s3 HC HL HR HF HB HD.
  destruct (command_cases W B D host suburb headless timeout st)
    as [ending [st' [E X]]].
  exists st'. rewrite E.
  destruct X as [[e' [w' [EC _]]]
                | [[w1' [e' [w2' [EC [EL _]]]]]
                  | [w1' [w2' [r' [s3' [report
                       [EC [EL [ER [F1 [F2 [_ [F4 [_ [_ Fin]]]]]]]]]]]]]]]].
  - rewrite HC in EC. discriminate.
  - rewrite HC in EC. injection EC as <-. rewrite HL in EL. discriminate.
  - rewrite HC in EC. injection EC as <-. rewrite HL in EL.
    injection EL as <-. rewrite HR in ER. injection ER as <- <-.
    rewrite (Fin HB HD). destruct (F4 HF) as [S0 N0].
    destruct report as [f s errs]. cbn [found saved shownErrors] in *.
    subst. rewrite N0. reflexivity.
Qed.

Lemma failed_scrape_still_returns_witness :
  exists st',
    Index.scrapeSuburb blankBrowser (choosyStore hasStreet) strictHost
      (js "Sandton") None None (fresh 0)
    = (Ok (Returned
             {| found := 0; saved := 0;
                shownErrors :=
                  [js "Could not resolve listing URL for suburb: Sandton"] |}),
       st').
Proof.
  refine (failed_scrape_still_returns nat blankBrowser (choosyStore hasStreet)
            strictHost (js "Sandton") None None (fresh 0) 0 0
            {| success := false; propertiesScraped := 0; propertiesSaved := 0;
               errors :=
                 [js "Could not resolve listing URL for suburb: Sandton"];
               message :=
                 js "Failed to scrape properties: Could not resolve listing URL for suburb: Sandton";
               properties := Some [] |}
            (snd (scrapeSuburb blankBrowser strictHost
                    (launched blankBrowser 0)))
            eq_refl eq_refl _ eq_refl (fun w => eq_refl) (fun w => eq_refl)).
  vm_compute. reflexivity.
Defined.

(** X19: the saving loop of the command never
    throws and touches neither the browser nor the instance; when the store
    takes a record or refuses it by what the record is, the count it adds is
    the number of the records the store takes: a refused record costs that
    record only. *)
Theorem saved_counts_the_accepted :
  forall (W : Type) (D : Store W) (accepts : Property -> bool)
         (ps : list Property) (n : nat) (st : State W),
    (forall p w, In p ps -> isOk (fst (insertProperty D p w)) = accepts p) ->
    exists st',
      Index.saveProperties D ps n st
      = (Ok (n + length (filter accepts ps)), st')
      /\ calls st' = calls st /\ self st' = self st.
Proof.
  intros W D accepts ps n st H.
  destruct (saveProperties_accepted W D accepts ps H n st) as [st' E].
  destruct (saveProperties_run W D ps n st) as [k [st'' [E' [_ [C S]]]]].
  exists st'. split; [exact E|].
  rewrite E in E'. injection E' as _ <-. auto.
Qed.

Lemma saved_counts_the_accepted_witness :
  exists st',
    Index.saveProperties (choosyStore hasStreet)
      (concat (map (recordsOf strictHost (js "Sandton")) site3Markup)) 0
      (fresh 0)
    = (Ok 1, st')
    /\ calls st' = [] /\ self st' = newScraper sandton.
Proof.
  refine (saved_counts_the_accepted nat (choosyStore hasStreet) hasStreet
            (concat (map (recordsOf strictHost (js "Sandton")) site3Markup))
            0 (fresh 0) _).
  intros p w _. cbn. destruct (hasStreet p); reflexivity.
Defined.

(* ===================================================================== *)
(** ** The names of the screenshots *)
(* ===================================================================== *)

Lemma js_cons c s : js (String c s) = N_of_ascii c :: js s.
Proof. reflexivity. Qed.

Lemma uint_digits d :
  forallb isDigit (js (DecimalString.NilEmpty.string_of_uint d)) = true.
Proof. induction d; cbn; auto. Qed.

Lemma ofNat_digits n : forallb isDigit (ofNat n) = true.
Proof.
  unfold ofNat, DecimalString.NilZero.string_of_uint.
  destruct (Nat.to_uint n); try apply uint_digits. reflexivity.
Qed.

Lemma uint_value d : forall acc,
  fold_left (fun a c => (10 * a + digitVal c)%Z)
    (js (DecimalString.NilEmpty.string_of_uint d)) (Z.of_nat acc)
  = Z.of_nat (Nat.of_uint_acc d acc).
Proof.
  induction d; intros acc; [reflexivity|..];
    cbn [DecimalString.NilEmpty.string_of_uint Nat.of_uint_acc];
    rewrite js_cons; cbn [fold_left]; rewrite <- IHd; f_equal;
    rewrite Nat.tail_mul_spec; unfold digitVal;
    match goal with
    | |- context [Z.of_N ?x] =>
        let v := eval vm_compute in (Z.of_N x) in change (Z.of_N x) with v
    end; lia.
Qed.

Lemma ofNat_value n : digitsVal (ofNat n) = Z.of_nat n.
Proof.
  unfold ofNat, digitsVal, DecimalString.NilZero.string_of_uint.
  rewrite <- (DecimalNat.Unsigned.of_to n) at 2. unfold Nat.of_uint.
  destruct (Nat.to_uint n) eqn:E;
    rewrite <- (uint_value _ 0); reflexivity.
Qed.

Lemma zeros_value k s : digitsVal (repeat cZero k ++ s) = digitsVal s.
Proof.
  unfold digitsVal. rewrite fold_left_app.
  replace (fold_left (fun a c => (10 * a + digitVal c)%Z) (repeat cZero k) 0%Z)
    with 0%Z; [reflexivity|].
  induction k as [|k IH]; [reflexivity|]. cbn [repeat fold_left].
  exact IH.
Qed.

Lemma takeWhile_stop p (a : jsstring) c rest :
  forallb p a = true -> p c = false -> takeWhile p (a ++ c :: rest) = a.
Proof.
  intros Ha Hc. induction a as [|x a IH]; cbn.
  - rewrite Hc. reflexivity.
  - cbn in Ha. apply andb_prop in Ha as [Hx Ha]. rewrite Hx, IH by exact Ha.
    reflexivity.
Qed.

Lemma padStart3_digits n : forallb isDigit (padStart3 (ofNat n)) = true.
Proof.
  unfold padStart3. rewrite forallb_app, ofNat_digits, andb_true_r.
  induction (3 - length (ofNat n)) as [|k IH]; [reflexivity|exact IH].
Qed.

Lemma filename_number n label iso :
  digitsVal (takeWhile isDigit (filename n label iso)) = Z.of_nat n.
Proof.
  unfold filename. cbn [app].
  rewrite takeWhile_stop by (apply padStart3_digits || reflexivity).
  unfold padStart3. rewrite zeros_value. apply ofNat_value.
Qed.

(** X20: the counter of a screenshot can be read
    back from the head of its file name, whatever the label and the time
    stamp are; so two screenshots with different counters never go to the
    same file. *)
Theorem screenshot_files_differ :
  forall (n1 n2 : nat) (label1 label2 iso1 iso2 : jsstring),
    n1 <> n2 ->
    digitsVal (takeWhile isDigit (filename n1 label1 iso1)) = Z.of_nat n1
    /\ filename n1 label1 iso1 <> filename n2 label2 iso2.
Proof.
  intros n1 n2 label1 label2 iso1 iso2 H.
  split; [apply filename_number|].
  intros E. apply H, Nat2Z.inj.
  rewrite <- (filename_number n1 label1 iso1),
          <- (filename_number n2 label2 iso2), E.
  reflexivity.
Qed.

Lemma screenshot_files_differ_witness :
  digitsVal
    (takeWhile isDigit
       (filename 7 (js "homepage-loaded") (js "2026-11-03T10:20:30.123Z")))
  = 7%Z
  /\ filename 7 (js "homepage-loaded") (js "2026-11-03T10:20:30.123Z")
     <> filename 8 (js "homepage-loaded") (js "2026-11-03T10:20:30.123Z").
Proof.
  apply (screenshot_files_differ 7 8 (js "homepage-loaded")
           (js "homepage-loaded") (js "2026-11-03T10:20:30.123Z")
           (js "2026-11-03T10:20:30.123Z")).
  lia.
Defined.

(** *** The folder *)

Lemma isFolderChar_safe iso c : isFolderChar c = true -> folderSafe iso c = true.
Proof.
  unfold isFolderChar, folderSafe, isSeparator, isLowerAscii, isUpperAscii,
    isDigit, cDot, cColon, cSlash, cMinus.
  intros H.
  destruct (N.eqb_spec c 46) as [->|_]; [discriminate|].
  destruct (N.eqb_spec c 58) as [->|_]; [discriminate|].
  destruct (N.eqb_spec c 47) as [->|_]; [discriminate|].
  destruct (N.eqb_spec c 92) as [->|_]; [discriminate|].
  reflexivity.
Qed.

Lemma sanitized_char c :
  isFolderChar (if isFolderChar c then c else cMinus) = true.
Proof. destruct (isFolderChar c) eqn:E; [exact E|reflexivity]. Qed.

Lemma sanitizedSuburb_chars suburb :
  forallb isFolderChar (sanitizedSuburb suburb) = true.
Proof.
  unfold sanitizedSuburb. induction suburb as [|c s IH]; [reflexivity|].
  cbn [map forallb]. rewrite sanitized_char, IH. reflexivity.
Qed.

Lemma forallb_weaken (f g : N -> bool) (l : jsstring) :
  (forall c, f c = true -> g c = true) ->
  forallb f l = true -> forallb g l = true.
Proof.
  intros H. induction l as [|c l IH]; [reflexivity|]. cbn [forallb].
  intros E. apply andb_prop in E as [Ec El].
  rewrite (H c Ec), (IH El). reflexivity.
Qed.

Lemma dashed_safe (l : jsstring) : forall known,
  (forall c, In c l -> existsb (N.eqb c) known = true) ->
  forallb (folderSafe known) (dashed l) = true.
Proof.
  intros known H. unfold dashed.
  induction l as [|c l IH]; [reflexivity|]. cbn [map forallb].
  rewrite IH by (intros x Hx; apply H; right; exact Hx).
  rewrite andb_true_r. unfold folderSafe.
  destruct (N.eqb c cColon) eqn:E1; [reflexivity|].
  destruct (N.eqb c cDot) eqn:E2; [reflexivity|].
  cbn [orb]. rewrite E1, E2, (H c (or_introl eq_refl)), orb_true_r.
  reflexivity.
Qed.

Lemma folderName_chars iso suburb :
  forallb (folderSafe (firstn 19 iso)) (folderName iso suburb) = true.
Proof.
  unfold folderName. rewrite !forallb_app.
  replace (dateTime iso) with (dashed (firstn 19 iso))
    by (unfold dateTime, dashed; symmetry; apply firstn_map).
  rewrite dashed_safe.
  - cbn [forallb andb].
    rewrite (forallb_weaken isFolderChar _ _
               (isFolderChar_safe (firstn 19 iso))
               (sanitizedSuburb_chars suburb)).
    reflexivity.
  - intros c Hc. apply existsb_exists. exists c. split; [exact Hc|].
    apply N.eqb_refl.
Qed.

(** X21: the suburb cannot steer the screenshot folder:
    its part of the folder name has as many code units as the suburb, all of
    them ASCII letters, digits or "-", and cleaning it again changes
    nothing; the whole folder name has no dot and no colon, and no path
    separator that was not among the first 19 code units of the clock
    text. *)
Theorem folder_name_is_safe :
  forall iso suburb : jsstring,
    length (sanitizedSuburb suburb) = length suburb
    /\ forallb isFolderChar (sanitizedSuburb suburb) = true
    /\ sanitizedSuburb (sanitizedSuburb suburb) = sanitizedSuburb suburb
    /\ forallb (folderSafe (firstn 19 iso)) (folderName iso suburb) = true.
Proof.
  intros iso suburb.
  split; [apply length_map|].
  split; [apply sanitizedSuburb_chars|].
  split; [|apply folderName_chars].
  unfold sanitizedSuburb. rewrite map_map. apply map_ext. intros c.
  destruct (isFolderChar c) eqn:E; [rewrite E; reflexivity|reflexivity].
Qed.

(* ===================================================================== *)
(** ** Dates *)
(* ===================================================================== *)

Lemma consumed_2 a b (r : jsstring) : consumed (a :: b :: r) r = [a; b].
Proof. exact (consumed_app [a; b] r). Qed.

Lemma consumed_4 a b c d (r : jsstring) :
  consumed (a :: b :: c :: d :: r) r = [a; b; c; d].
Proof. exact (consumed_app [a; b; c; d] r). Qed.

Lemma consumed_10 a b c d e f g h i j (r : jsstring) :
  consumed (a :: b :: c :: d :: e :: f :: g :: h :: i :: j :: r) r
  = [a; b; c; d; e; f; g; h; i; j].
Proof. exact (consumed_app [a; b; c; d; e; f; g; h; i; j] r). Qed.

(** The pattern on a day/month/year text of two, two and four digits. *)
Lemma reDate_at d1 d2 s1 m1 m2 s2 y1 y2 y3 y4 post :
  forallb isDigit [d1; d2; m1; m2; y1; y2; y3; y4] = true ->
  dateSep s1 = true -> dateSep s2 = true ->
  matchAt reDate ([d1; d2; s1; m1; m2; s2; y1; y2; y3; y4] ++ post)
  = Some ([d1; d2; s1; m1; m2; s2; y1; y2; y3; y4],
          [(3, [y1; y2; y3; y4]); (2, [m1; m2]); (1, [d1; d2])]).
Proof.
  intros H S1 S2. cbn [forallb] in H.
  repeat (apply andb_prop in H; destruct H as [?D H]).
  unfold matchAt, reDate, chain, digit, Opt. cbn [run app].
  repeat match goal with
         | E : isDigit _ = true |- _ => rewrite E; clear E
         end.
  rewrite S1, S2, consumed_10, consumed_4, !consumed_2. reflexivity.
Qed.

(** The pattern starts on a digit. *)
Lemma reDate_skip c rest :
  isDigit c = false -> exec reDate (c :: rest) = exec reDate rest.
Proof.
  intros H. cbn [exec].
  replace (matchAt reDate (c :: rest)) with (@None matched); [reflexivity|].
  unfold matchAt, reDate, chain, digit, Opt. cbn [run]. rewrite H.
  reflexivity.
Qed.

Lemma reDate_exec pre d1 d2 s1 m1 m2 s2 y1 y2 y3 y4 post :
  forallb (fun c => negb (isDigit c)) pre = true ->
  forallb isDigit [d1; d2; m1; m2; y1; y2; y3; y4] = true ->
  dateSep s1 = true -> dateSep s2 = true ->
  exec reDate (pre ++ [d1; d2; s1; m1; m2; s2; y1; y2; y3; y4] ++ post)
  = Some ([d1; d2; s1; m1; m2; s2; y1; y2; y3; y4],
          [(3, [y1; y2; y3; y4]); (2, [m1; m2]); (1, [d1; d2])]).
Proof.
  intros Hp H S1 S2. induction pre as [|c pre IH].
  - cbn [app]. pose proof (reDate_at d1 d2 s1 m1 m2 s2 y1 y2 y3 y4 post
                             H S1 S2) as E.
    cbn [app] in E. cbn [exec]. rewrite E. reflexivity.
  - cbn [forallb] in Hp. apply andb_prop in Hp as [Hc Hp].
    change ((c :: pre) ++ ?x) with (c :: pre ++ x).
    rewrite reDate_skip by (destruct (isDigit c); [discriminate|reflexivity]).
    exact (IH Hp).
Qed.

Lemma newDate_iso host y1 y2 y3 y4 m1 m2 d1 d2 :
  forallb isDigit [d1; d2; m1; m2; y1; y2; y3; y4] = true ->
  newDate host [y1; y2; y3; y4; cMinus; m1; m2; cMinus; d1; d2]
  = if inCalendar [m1; m2] [d1; d2]
    then host [y1; y2; y3; y4; cMinus; m1; m2; cMinus; d1; d2]
    else InvalidDate.
Proof.
  intros H. cbn [forallb] in H.
  repeat (apply andb_prop in H; destruct H as [?D H]).
  unfold newDate, isoDateOnly. cbn [forallb].
  repeat match goal with
         | E : isDigit _ = true |- _ => rewrite E; clear E
         end.
  cbn [andb]. rewrite N.eqb_refl. cbn [andb]. reflexivity.
Qed.

Lemma parseDate_dmy host pre d1 d2 s1 m1 m2 s2 y1 y2 y3 y4 post :
  forallb (fun c => negb (isDigit c)) pre = true ->
  forallb isDigit [d1; d2; m1; m2; y1; y2; y3; y4] = true ->
  dateSep s1 = true -> dateSep s2 = true ->
  includes (pre ++ [d1; d2; s1; m1; m2; s2; y1; y2; y3; y4] ++ post) (js "T")
  = false ->
  parseDate host
    (Some (pre ++ [d1; d2; s1; m1; m2; s2; y1; y2; y3; y4] ++ post))
  = Some (if inCalendar [m1; m2] [d1; d2]
          then host [y1; y2; y3; y4; cMinus; m1; m2; cMinus; d1; d2]
          else InvalidDate).
Proof.
  intros Hp H S1 S2 HT.
  rewrite parseDate_pattern_second; [|destruct pre; discriminate|left; exact HT].
  unfold parseDateDMY. rewrite reDate_exec by assumption.
  unfold groupText. cbn [group snd Nat.eqb app].
  rewrite newDate_iso by exact H. reflexivity.
Qed.

(** X22: a text without the letter "T" whose first
    digits are a date of two, two and four digits separated by "/" or "-" is
    read day first: the date returned is what the host makes of
    year-month-day in the ISO date format when the month is 01 to 12 and the
    day 01 to 31, and an Invalid Date otherwise; the text before and after
    the date makes no difference. *)
Theorem parseDate_reads_day_first :
  forall (host : jsstring -> Date) (pre post : jsstring)
         (d1 d2 s1 m1 m2 s2 y1 y2 y3 y4 : N),
    forallb (fun c => negb (isDigit c)) pre = true ->
    forallb isDigit [d1; d2; m1; m2; y1; y2; y3; y4] = true ->
    dateSep s1 = true -> dateSep s2 = true ->
    includes (pre ++ [d1; d2; s1; m1; m2; s2; y1; y2; y3; y4] ++ post)
      (js "T") = false ->
    parseDate host
      (Some (pre ++ [d1; d2; s1; m1; m2; s2; y1; y2; y3; y4] ++ post))
    = Some (if inCalendar [m1; m2] [d1; d2]
            then host [y1; y2; y3; y4; cMinus; m1; m2; cMinus; d1; d2]
            else InvalidDate).
Proof. intros. apply parseDate_dmy; assumption. Qed.

Lemma parseDate_reads_day_first_witness :
  parseDate calendarHost (Some (js "Listed 05/03/2024 by the agent"))
  = Some (DateAt 1709596800000).
Proof.
  exact (parseDate_reads_day_first calendarHost (js "Listed ")
           (js " by the agent") 48 53 47 48 51 47 50 48 50 52
           eq_refl eq_refl eq_refl eq_refl eq_refl).
Defined.

(* ===================================================================== *)
(** ** The status of a record *)
(* ===================================================================== *)

(** X23: the status of a record is decided by the first status
    element that mentions sold, offer or listed in any case, and by that
    element alone: without such an element the record has no status, and when
    the first one mentions neither sold nor offer the record has no status
    either, whatever the elements after it say. *)
Theorem record_status :
  forall (hostDateParse : jsstring -> Date) (optionsSuburb : jsstring)
         (c : Container) (p : Property),
    extractContainer hostDateParse optionsSuburb c = Some p ->
    match filter isStatusText (statusTexts c) with
    | [] => status p = None
    | t :: _ =>
        status p = classifyStatus t
        /\ (includes (toLowerCase t) (js "sold") = false ->
            includes (toLowerCase t) (js "offer") = false ->
            status p = None)
    end.
Proof.
  intros host sub c p H. unfold extractContainer, containerBody in H.
  destruct (thrown c); [discriminate|].
  destruct (negb (truthy (findPropertyUrl c))); [discriminate|].
  injection H as <-. cbn [status].
  destruct (filter isStatusText (statusTexts c)) as [|t rest];
    [reflexivity|].
  cbn [firstText]. split; [reflexivity|].
  intros Hs Ho. unfold classifyStatus. rewrite Hs, Ho. reflexivity.
Qed.

Lemma record_status_witness :
  exists p,
    extractContainer strictHost (js "Sandton") listedThenSold = Some p
    /\ status p = None.
Proof.
  eexists. split; [vm_compute; reflexivity|].
  refine (proj2 (record_status strictHost (js "Sandton") listedThenSold _ _)
            eq_refl eq_refl).
  vm_compute. reflexivity.
Defined.
